(** * Quantum-ZKP: a shallow embedding of the proof engines and their primitives

    The development follows the TypeScript sources:
    - [QuantumCrypto] (utils/crypto): hashing, hash combination, parameter
      validation, buffer/bigint packing, LWE sampling, Merkle trees, modular
      powers, the primality test and the prime search, hash chains and the
      polynomial utilities;
    - [HashZKP], [LatticeZKP], [MultivariateZKP], [HybridZKP]: the engines;
    - [QuantumZKP]: the facade that dispatches a proof to its engine.

    Buffers are lists of bytes, bigints are [Z], JavaScript numbers that count
    things are integers.  SHA-256 and HMAC-SHA-256 (Node's [createHash] and
    [createHmac]) are written out after FIPS 180-4 and RFC 2104 so that the
    engines can be run on concrete inputs.  The verifiers take any value made
    of data; what the comparison operators and the division make of a value
    that is not of the declared type is written out after the language
    standard. *)

From Stdlib Require Import Strings.Ascii Strings.String Strings.Byte.
From Stdlib Require Import ZArith NArith Lia Bool List Permutation.
Import ListNotations.

Local Open Scope Z_scope.

(** ** Buffers *)

Definition Buffer := list byte.

Definition byteToZ (b : byte) : Z := Z.of_N (Byte.to_N b).

Definition byteOfZ (z : Z) : byte :=
  match Byte.of_N (Z.to_N (z mod 256)) with
  | Some b => b
  | None => x00
  end.

Definition byte_eqb (a b : byte) : bool := Byte.eqb a b.

(** [Buffer.equals]: same length and same bytes. *)
Fixpoint Buffer_equals (a b : Buffer) : bool :=
  match a, b with
  | [], [] => true
  | x :: a', y :: b' => Byte.eqb x y && Buffer_equals a' b'
  | _, _ => false
  end.

(** [Buffer.from(text, 'utf8')] for a Rocq string, whose characters are
    already the UTF-8 code units. *)
Definition Buffer_from_utf8 (s : string) : Buffer :=
  map byte_of_ascii (list_ascii_of_string s).

(** [buffer.slice(start, end)] for [0 <= start] and [0 <= end]: both ends are
    clamped to the length and an inverted range is empty. *)
Definition Buffer_slice (buffer : Buffer) (start end_ : nat) : Buffer :=
  firstn (end_ - start) (skipn start buffer).

(** Big-endian value of a byte string. *)
Definition beValue (b : Buffer) : Z :=
  fold_left (fun acc x => acc * 256 + byteToZ x) b 0.

(** ** SHA-256 (FIPS 180-4), on 32-bit words kept in [Z] *)

Module SHA256.

Definition wrap (x : Z) : Z := Z.land x 0xffffffff.

Definition add (x y : Z) : Z := wrap (x + y).

Definition rotr (n x : Z) : Z :=
  Z.lor (Z.shiftr x n) (wrap (Z.shiftl x (32 - n))).

Definition shr (n x : Z) : Z := Z.shiftr x n.

Definition Ch (x y z : Z) : Z :=
  Z.lxor (Z.land x y) (Z.land (Z.lxor x 0xffffffff) z).

Definition Maj (x y z : Z) : Z :=
  Z.lxor (Z.lxor (Z.land x y) (Z.land x z)) (Z.land y z).

Definition bigSigma0 (x : Z) : Z := Z.lxor (Z.lxor (rotr 2 x) (rotr 13 x)) (rotr 22 x).
Definition bigSigma1 (x : Z) : Z := Z.lxor (Z.lxor (rotr 6 x) (rotr 11 x)) (rotr 25 x).
Definition smallSigma0 (x : Z) : Z := Z.lxor (Z.lxor (rotr 7 x) (rotr 18 x)) (shr 3 x).
Definition smallSigma1 (x : Z) : Z := Z.lxor (Z.lxor (rotr 17 x) (rotr 19 x)) (shr 10 x).

(** The first primes, from which the standard derives its constants. *)
Definition isPrime (n : nat) : bool :=
  forallb (fun d => negb (Nat.eqb (Nat.modulo n d) 0)) (seq 2 (n - 2)).

Definition firstPrimes (count : nat) : list Z :=
  firstn count (map Z.of_nat (filter isPrime (seq 2 320))).

(** Integer cube root, one binary digit at a time from [2 ^ (bits - 1)] down. *)
Fixpoint cubeRoot (bits : nat) (n root : Z) : Z :=
  match bits with
  | O => root
  | S k =>
      let candidate := root + 2 ^ Z.of_nat k in
      cubeRoot k n (if candidate ^ 3 <=? n then candidate else root)
  end.

(** The sixty-four round constants: the first thirty-two bits of the
    fractional parts of the cube roots of the first sixty-four primes. *)
Definition roundConstants : list Z :=
  Eval vm_compute in
    map (fun p => wrap (cubeRoot 40 (p * 2 ^ 96) 0)) (firstPrimes 64).

(** The eight chaining words. *)
Record State : Type := mkState
  { sa : Z; sb : Z; sc : Z; sd : Z; se : Z; sf : Z; sg : Z; sh : Z }.

(** The initial chaining words: the first thirty-two bits of the fractional
    parts of the square roots of the first eight primes. *)
Definition initialState : State :=
  Eval vm_compute in
    match map (fun p => wrap (Z.sqrt (p * 2 ^ 64))) (firstPrimes 8) with
    | [a; b; c; d; e; f; g; h] => mkState a b c d e f g h
    | _ => mkState 0 0 0 0 0 0 0 0
    end.

(** Padding: the bit 1, zero bits up to 56 mod 64 bytes, the bit length on
    eight bytes. *)
Definition zeroPadLength (len : nat) : nat :=
  Z.to_nat ((55 - Z.of_nat len) mod 64).

Definition lengthBytes (len : nat) : Buffer :=
  let bits := Z.of_nat len * 8 in
  map (fun i => byteOfZ (Z.shiftr bits (8 * (7 - Z.of_nat i)))) (seq 0 8).

Definition pad (msg : Buffer) : Buffer :=
  msg ++ x80 :: repeat x00 (zeroPadLength (length msg)) ++ lengthBytes (length msg).

(** Big-endian 32-bit words of a byte string (a short tail is dropped; padded
    messages have none). *)
Fixpoint wordsOf (fuel : nat) (b : Buffer) : list Z :=
  match fuel, b with
  | S fuel', b0 :: b1 :: b2 :: b3 :: rest =>
      (((byteToZ b0 * 256 + byteToZ b1) * 256 + byteToZ b2) * 256 + byteToZ b3)
        :: wordsOf fuel' rest
  | _, _ => []
  end.

(** Message schedule: the sixteen block words, then forty-eight more, each
    computed from a sliding window of the last sixteen. *)
Fixpoint extend (n : nat) (window : list Z) : list Z :=
  match n with
  | O => []
  | S n' =>
      let w := add (add (smallSigma1 (nth 14 window 0)) (nth 9 window 0))
                   (add (smallSigma0 (nth 1 window 0)) (nth 0 window 0)) in
      w :: extend n' (tl window ++ [w])
  end.

Definition schedule (block : list Z) : list Z := block ++ extend 48 block.

Definition round (s : State) (kw : Z * Z) : State :=
  let t1 := add (add (add (sh s) (bigSigma1 (se s))) (Ch (se s) (sf s) (sg s)))
                (add (fst kw) (snd kw)) in
  let t2 := add (bigSigma0 (sa s)) (Maj (sa s) (sb s) (sc s)) in
  mkState (add t1 t2) (sa s) (sb s) (sc s) (add (sd s) t1) (se s) (sf s) (sg s).

Definition compress (h : State) (block : list Z) : State :=
  let s := fold_left round (combine roundConstants (schedule block)) h in
  mkState (add (sa h) (sa s)) (add (sb h) (sb s)) (add (sc h) (sc s)) (add (sd h) (sd s))
          (add (se h) (se s)) (add (sf h) (sf s)) (add (sg h) (sg s)) (add (sh h) (sh s)).

Fixpoint blocks (n : nat) (h : State) (words : list Z) : State :=
  match n with
  | O => h
  | S n' => blocks n' (compress h (firstn 16 words)) (skipn 16 words)
  end.

Definition wordBytes (w : Z) : Buffer :=
  [ byteOfZ (Z.shiftr w 24); byteOfZ (Z.shiftr w 16); byteOfZ (Z.shiftr w 8); byteOfZ w ].

Definition stateBytes (s : State) : Buffer :=
  wordBytes (sa s) ++ wordBytes (sb s) ++ wordBytes (sc s) ++ wordBytes (sd s) ++
  wordBytes (se s) ++ wordBytes (sf s) ++ wordBytes (sg s) ++ wordBytes (sh s).

Definition digest (msg : Buffer) : Buffer :=
  let p := pad msg in
  let ws := wordsOf (length p) p in
  stateBytes (blocks (Nat.div (length ws) 16) initialState ws).

End SHA256.

(** Hexadecimal rendering of a buffer, for test vectors. *)
Definition hexDigit (d : Z) : ascii :=
  nth (Z.to_nat d) (list_ascii_of_string "0123456789abcdef") "0"%char.

Definition Buffer_toString_hex (b : Buffer) : list ascii :=
  flat_map (fun x => [hexDigit (byteToZ x / 16); hexDigit (byteToZ x mod 16)]) b.

Definition hexString (b : Buffer) : string := string_of_list_ascii (Buffer_toString_hex b).

(** ** Hexadecimal text *)

(** Value of one hexadecimal character, as [BigInt('0x...')] and
    [Buffer.from(..., 'hex')] read it. *)
Definition hexVal (c : ascii) : option Z :=
  let n := Z.of_nat (nat_of_ascii c) in
  if (48 <=? n) && (n <=? 57) then Some (n - 48)
  else if (97 <=? n) && (n <=? 102) then Some (n - 87)
  else if (65 <=? n) && (n <=? 70) then Some (n - 55)
  else None.

(** [BigInt(`0x${hex}`)] on the digits produced by [toString('hex')]. *)
Definition BigInt_of_hex (hex : list ascii) : Z :=
  fold_left (fun acc c => acc * 16 + match hexVal c with Some d => d | None => 0 end) hex 0.

(** [hex.padStart(target, '0')]. *)
Definition padStart (target : nat) (s : list ascii) : list ascii :=
  repeat "0"%char (target - length s) ++ s.

(** Digits of a non-negative bigint, most significant first; [fuel] bounds the
    number of digits. *)
Fixpoint hexDigits (fuel : nat) (n : Z) (acc : list ascii) : list ascii :=
  match fuel with
  | O => acc
  | S fuel' =>
      if n <? 16 then hexDigit n :: acc
      else hexDigits fuel' (n / 16) (hexDigit (n mod 16) :: acc)
  end.

(** [int.toString(16)]: a minus sign before the digits of a negative value. *)
Definition BigInt_toString16 (n : Z) : list ascii :=
  if n <? 0
  then "-"%char :: hexDigits (S (Z.to_nat (Z.log2 (- n)))) (- n) []
  else hexDigits (S (Z.to_nat (Z.log2 n))) n [].

(** [Buffer.from(text, 'hex')]: bytes are decoded pair by pair and decoding
    stops at the first pair that is not two hexadecimal digits; a trailing
    single character is dropped. *)
Fixpoint Buffer_from_hex (s : list ascii) : Buffer :=
  match s with
  | c1 :: c2 :: rest =>
      match hexVal c1, hexVal c2 with
      | Some h, Some l => byteOfZ (h * 16 + l) :: Buffer_from_hex rest
      | _, _ => []
      end
  | _ => []
  end.

(** [text.includes('corrupted')] on [buffer.toString('utf8')].  The marker is
    plain ASCII: UTF-8 decoding maps every byte below 0x80 to the same
    character and no other byte sequence to an ASCII character, so the decoded
    text contains the marker exactly when the bytes contain its nine bytes. *)
Fixpoint startsWith (prefix b : Buffer) : bool :=
  match prefix, b with
  | [], _ => true
  | p :: prefix', x :: b' => Byte.eqb p x && startsWith prefix' b'
  | _ :: _, [] => false
  end.

Fixpoint includesBytes (needle b : Buffer) : bool :=
  startsWith needle b ||
  match b with
  | [] => false
  | _ :: b' => includesBytes needle b'
  end.

Definition corruptedMarker : Buffer := Buffer_from_utf8 "corrupted".

Definition includesCorrupted (b : Buffer) : bool := includesBytes corruptedMarker b.

(** ** Exceptions and the random source *)

Inductive JsError : Type :=
| TypeError
| RangeError
| Error (message : string).

(** Outcome of a piece of code without unbounded loops: a value or a thrown
    exception. *)
Inductive Outcome (A : Type) : Type :=
| Ok (a : A)
| Throw (e : JsError).

Arguments Ok {A} a.
Arguments Throw {A} e.

Definition bindO {A B : Type} (m : Outcome A) (f : A -> Outcome B) : Outcome B :=
  match m with
  | Ok a => f a
  | Throw e => Throw e
  end.

(** [try { body } catch { return fallback }]. *)
Definition tryCatch {A : Type} (body : Outcome A) (fallback : A) : Outcome A :=
  match body with
  | Ok a => Ok a
  | Throw _ => Ok fallback
  end.

(** Outcome of code that may loop without bound: [OutOfFuel] when the
    iteration bound given to the loop ran out. *)
Inductive Run (A : Type) : Type :=
| Returned (a : A)
| Raised (e : JsError)
| OutOfFuel.

Arguments Returned {A} a.
Arguments Raised {A} e.
Arguments OutOfFuel {A}.

(** What the process takes from outside: the bytes the secure random source
    hands out, in order; the floating-point Box-Muller expression
    [round(sigma * sqrt(-2 ln u1) * cos(2 pi u2))] of
    [generateDiscreteGaussianError] as a function of [sigma] and of the two
    integers drawn below 1000; the clock. *)
Record Environment : Type := mkEnvironment
  { entropy : nat -> byte;
    gaussian : Z -> Z -> Z -> Z;
    now : Z }.

(** Code that draws random bytes: the state is the number of bytes drawn so far. *)
Definition Rand (A : Type) : Type := nat -> Run (A * nat).

Definition retR {A : Type} (a : A) : Rand A := fun cursor => Returned (a, cursor).

Definition bindR {A B : Type} (m : Rand A) (f : A -> Rand B) : Rand B :=
  fun cursor =>
    match m cursor with
    | Returned (a, cursor') => f a cursor'
    | Raised e => Raised e
    | OutOfFuel => OutOfFuel
    end.

Definition throwR {A : Type} (e : JsError) : Rand A := fun _ => Raised e.

Definition liftR {A : Type} (m : Outcome A) : Rand A :=
  fun cursor =>
    match m with
    | Ok a => Returned (a, cursor)
    | Throw e => Raised e
    end.

Declare Scope js_scope.
Delimit Scope js_scope with js.

Notation "'let*' x ':=' m 'in' k" := (bindO m (fun x => k))
  (at level 10, x pattern, m at level 100, k at level 200) : js_scope.
Notation "'let!' x ':=' m 'in' k" := (bindR m (fun x => k))
  (at level 10, x pattern, m at level 100, k at level 200) : js_scope.

Local Open Scope js_scope.

(** ** Numbers

    A number is a double: NaN, an infinity, or a finite value
    [mantissa * 2 ^ exponent]. *)

Inductive JsNumber : Type :=
| NaN
| Infinity (negative : bool)
| Finite (mantissa exponent : Z).

Definition negate (x : JsNumber) : JsNumber :=
  match x with
  | NaN => NaN
  | Infinity negative => Infinity (negb negative)
  | Finite m e => Finite (- m) e
  end.

(** The order of two numbers; [None] when one of them is NaN. *)
Definition compareNumbers (x y : JsNumber) : option comparison :=
  match x, y with
  | NaN, _ | _, NaN => None
  | Infinity a, Infinity b =>
      Some (match a, b with
            | true, false => Lt
            | false, true => Gt
            | _, _ => Eq
            end)
  | Infinity negative, Finite _ _ => Some (if negative then Lt else Gt)
  | Finite _ _, Infinity negative => Some (if negative then Gt else Lt)
  | Finite m1 e1, Finite m2 e2 =>
      let e := Z.min e1 e2 in
      Some (Z.compare (m1 * 2 ^ (e1 - e)) (m2 * 2 ^ (e2 - e)))
  end.

(** [x < y]: true, false, or undefined ([None]) when NaN takes part. *)
Definition lessThan (x y : JsNumber) : option bool :=
  match compareNumbers x y with
  | Some Lt => Some true
  | Some _ => Some false
  | None => None
  end.

(** The integer a number is, when it is one. *)
Definition integerValue (x : JsNumber) : option Z :=
  match x with
  | Finite m e =>
      if 0 <=? e then Some (m * 2 ^ e)
      else if m mod 2 ^ (- e) =? 0 then Some (m / 2 ^ (- e))
      else None
  | _ => None
  end.

(** [Math.ceil] of a finite number. *)
Definition ceiling (m e : Z) : Z :=
  if 0 <=? e then m * 2 ^ e else - ((- m) / 2 ^ (- e)).

(** [p / d * 2 ^ s] as a fraction with a positive denominator. *)
Definition scaled (p d s : Z) : Z * Z :=
  if 0 <=? s then (p * 2 ^ s, d) else (p, d * 2 ^ (- s)).

(** The integer nearest to [p / d], the even one of two that are equally
    near. *)
Definition roundHalfEven (p d : Z) : Z :=
  let q := p / d in
  let r := p mod d in
  if 2 * r <? d then q
  else if d <? 2 * r then q + 1
  else if Z.even q then q else q + 1.

(** The double nearest to [p / d] for [0 < p] and [0 < d]: fifty-three
    binary digits, the exponent not below that of the smallest normal number,
    ties to even, and Infinity from [2 ^ 1024] on. *)
Definition nearestDouble (p d : Z) : JsNumber :=
  let k := Z.log2 p - Z.log2 d in
  let (pk, dk) := scaled p d (- k) in
  let e := if dk <=? pk then k else k - 1 in
  let ulp := Z.max e (-1022) - 52 in
  let (pu, du) := scaled p d (- ulp) in
  let m := roundHalfEven pu du in
  if m =? 0 then Finite 0 0
  else if 1024 <=? Z.log2 m + ulp then Infinity false
  else Finite m ulp.

(** The number for the fraction [p / d], [0 < d]. *)
Definition toDouble (p d : Z) : JsNumber :=
  if p =? 0 then Finite 0 0
  else if 0 <? p then nearestDouble p d
  else negate (nearestDouble (- p) d).

(** ** Numeric text

    [Number(text)] and [BigInt(text)] as the comparison operators and the
    division apply them to a string.  Text is read in UTF-8; a byte that
    belongs neither to a white space nor to the literal makes it NaN, and so
    does the replacement character that decoding puts for an invalid byte. *)

(** The text after one white space or line terminator at its head, in
    UTF-8: TAB, LF, VT, FF, CR, SP, U+00A0, U+1680, U+2000 to U+200A, U+2028,
    U+2029, U+202F, U+205F, U+3000 and U+FEFF. *)
Definition afterWhiteSpace (text : list Z) : option (list Z) :=
  match text with
  | 9 :: rest | 10 :: rest | 11 :: rest | 12 :: rest | 13 :: rest | 32 :: rest => Some rest
  | 194 :: 160 :: rest => Some rest
  | 225 :: 154 :: 128 :: rest => Some rest
  | 226 :: 128 :: c :: rest =>
      if ((128 <=? c) && (c <=? 138)) || (c =? 168) || (c =? 169) || (c =? 175)
      then Some rest else None
  | 226 :: 129 :: 159 :: rest => Some rest
  | 227 :: 128 :: 128 :: rest => Some rest
  | 239 :: 187 :: 191 :: rest => Some rest
  | _ => None
  end.

Fixpoint skipWhiteSpace (fuel : nat) (text : list Z) : list Z :=
  match fuel with
  | O => text
  | S fuel' =>
      match afterWhiteSpace text with
      | Some rest => skipWhiteSpace fuel' rest
      | None => text
      end
  end.

(** The characters before the first white space, and the rest. *)
Fixpoint untilWhiteSpace (text : list Z) : list Z * list Z :=
  match text with
  | [] => ([], [])
  | c :: rest =>
      match afterWhiteSpace text with
      | Some _ => ([], text)
      | None => let (word, tail) := untilWhiteSpace rest in (c :: word, tail)
      end
  end.

(** The text between leading and trailing white space, when nothing but
    white space follows its first word. *)
Definition trimmed (text : list Z) : option (list Z) :=
  let (word, tail) := untilWhiteSpace (skipWhiteSpace (length text) text) in
  match skipWhiteSpace (length tail) tail with
  | [] => Some word
  | _ => None
  end.

Definition digitValue (base c : Z) : option Z :=
  let v := if (48 <=? c) && (c <=? 57) then c - 48
           else if (97 <=? c) && (c <=? 102) then c - 87
           else if (65 <=? c) && (c <=? 70) then c - 55
           else 16 in
  if v <? base then Some v else None.

(** The leading digits of a text, and what follows them. *)
Fixpoint leadingDigits (base : Z) (text : list Z) : list Z * list Z :=
  match text with
  | [] => ([], [])
  | c :: rest =>
      match digitValue base c with
      | Some v => let (digits, tail) := leadingDigits base rest in (v :: digits, tail)
      | None => ([], text)
      end
  end.

Definition digitsValue (base : Z) (digits : list Z) : Z :=
  fold_left (fun acc v => acc * base + v) digits 0.

(** A text made of one digit or more, and of digits only. *)
Definition allDigits (base : Z) (text : list Z) : option Z :=
  match leadingDigits base text with
  | ((_ :: _) as digits, []) => Some (digitsValue base digits)
  | _ => None
  end.

(** [0x], [0o] and [0b] literals, in either case of the letter. *)
Definition nonDecimalLiteral (text : list Z) : option Z :=
  match text with
  | 48 :: c :: digits =>
      if (c =? 120) || (c =? 88) then allDigits 16 digits
      else if (c =? 111) || (c =? 79) then allDigits 8 digits
      else if (c =? 98) || (c =? 66) then allDigits 2 digits
      else None
  | _ => None
  end.

(** A sign, when there is one, and what follows it. *)
Definition signOf (text : list Z) : bool * list Z :=
  match text with
  | 43 :: rest => (false, rest)
  | 45 :: rest => (true, rest)
  | _ => (false, text)
  end.

(** An unsigned decimal literal: digits, a point, digits and an exponent,
    with a digit on one side of the point at least.  The result is the
    integer that the digits spell and the power of ten that multiplies it. *)
Definition decimalLiteral (text : list Z) : option (Z * Z) :=
  let (whole, afterWhole) := leadingDigits 10 text in
  let '(fraction, afterFraction) :=
    match afterWhole with
    | 46 :: rest => leadingDigits 10 rest
    | _ => ([], afterWhole)
    end in
  match whole ++ fraction with
  | [] => None
  | digits =>
      let shift := - Z.of_nat (length fraction) in
      match afterFraction with
      | [] => Some (digitsValue 10 digits, shift)
      | c :: exponentText =>
          if (c =? 101) || (c =? 69)
          then let (negative, exponentDigits) := signOf exponentText in
               match allDigits 10 exponentDigits with
               | Some x => Some (digitsValue 10 digits, (if negative then - x else x) + shift)
               | None => None
               end
          else None
      end
  end.

Definition infinityText : list Z := map byteToZ (Buffer_from_utf8 "Infinity").

(** [Number(text)] for a text given by its UTF-8 bytes. *)
Definition StringToNumber (text : Buffer) : JsNumber :=
  match trimmed (map byteToZ text) with
  | None => NaN
  | Some [] => Finite 0 0
  | Some word =>
      match nonDecimalLiteral word with
      | Some n => toDouble n 1
      | None =>
          let (negative, unsigned) := signOf word in
          if list_eq_dec Z.eq_dec unsigned infinityText then Infinity negative
          else match decimalLiteral unsigned with
               | Some (digits, x) =>
                   let value := if 0 <=? x then toDouble (digits * 10 ^ x) 1
                                else toDouble digits (10 ^ (- x)) in
                   if negative then negate value else value
               | None => NaN
               end
      end
  end.

(** [BigInt(text)], [None] where it is a SyntaxError and the comparison
    operators take the text for undefined. *)
Definition StringToBigInt (text : Buffer) : option Z :=
  match trimmed (map byteToZ text) with
  | None => None
  | Some [] => Some 0
  | Some word =>
      match nonDecimalLiteral word with
      | Some n => Some n
      | None =>
          let (negative, unsigned) := signOf word in
          match allDigits 10 unsigned with
          | Some n => Some (if negative then - n else n)
          | None => None
          end
      end
  end.

(** ** JavaScript values

    The values a caller can hand to [verifyProof] as data: the primitives,
    Buffers, arrays, and objects whose properties are data.  [JNumber n] is
    the integer [n]; both zeros are [JNumber 0], which no test of the engines
    tells apart.  [JFraction whole part] is the number strictly between
    [whole] and [whole + 1] whose binary digits after the point are the
    digits of [part] from its lowest up to its leading one: [JFraction 2 1]
    is 2.5 and [JFraction 0 6] is 0.375.  A string is held as its UTF-8
    text. *)

#[local] Set Warnings "-register-all".

Inductive JsValue : Type :=
| JUndefined
| JNull
| JBool (b : bool)
| JNumber (n : Z)
| JBigInt (n : Z)
| JString (s : string)
| JBuffer (b : Buffer)
| JArray (items : list JsValue)
| JObject (fields : list (string * JsValue))
| JNaN
| JInfinity (negative : bool)
| JFraction (whole : Z) (part : positive).

Fixpoint lookupField (key : string) (fields : list (string * JsValue)) : JsValue :=
  match fields with
  | [] => JUndefined
  | (k, v) :: rest => if String.eqb k key then v else lookupField key rest
  end.

(** [value.key] for the property names the engines read, and [length].
    Reading a property of [undefined] or [null] throws. *)
Definition getProp (value : JsValue) (key : string) : Outcome JsValue :=
  match value with
  | JUndefined | JNull => Throw TypeError
  | JObject fields => Ok (lookupField key fields)
  | JArray items =>
      Ok (if String.eqb key "length" then JNumber (Z.of_nat (length items)) else JUndefined)
  | JBuffer b =>
      Ok (if String.eqb key "length" then JNumber (Z.of_nat (length b)) else JUndefined)
  | JString s =>
      Ok (if String.eqb key "length" then JNumber (Z.of_nat (String.length s)) else JUndefined)
  | _ => Ok JUndefined
  end.

(** [{ ...value, key: v }]: the object with one property replaced. *)
Definition withField (value : JsValue) (key : string) (v : JsValue) : JsValue :=
  match value with
  | JObject fields => JObject ((key, v) :: fields)
  | _ => JObject [(key, v)]
  end.

Definition isString (value : JsValue) (s : string) : bool :=
  match value with
  | JString s' => String.eqb s' s
  | _ => false
  end.

Definition instanceofBuffer (value : JsValue) : bool :=
  match value with JBuffer _ => true | _ => false end.

Definition instanceofArray (value : JsValue) : bool :=
  match value with JArray _ => true | _ => false end.

Definition isUndefined (value : JsValue) : bool :=
  match value with JUndefined => true | _ => false end.

(** [!value] is [negb (truthy value)]. *)
Definition truthy (value : JsValue) : bool :=
  match value with
  | JUndefined | JNull | JNaN => false
  | JBool b => b
  | JNumber n | JBigInt n => negb (n =? 0)
  | JString s => negb (String.eqb s "")
  | JBuffer _ | JArray _ | JObject _ | JInfinity _ | JFraction _ _ => true
  end.

(** The digits of [part] after the point, as a numerator over a power of
    two: [(n, k)] stands for [n / 2 ^ k]. *)
Fixpoint fractionDigits (part : positive) : Z * Z :=
  match part with
  | xH => (1, 1)
  | xO rest => let (n, k) := fractionDigits rest in (n, k + 1)
  | xI rest => let (n, k) := fractionDigits rest in (n + 2 ^ k, k + 1)
  end.

(** The number that a value of type number is. *)
Definition numberOf (value : JsValue) : JsNumber :=
  match value with
  | JNumber n => Finite n 0
  | JInfinity negative => Infinity negative
  | JFraction whole part =>
      let (n, k) := fractionDigits part in Finite (whole * 2 ^ k + n) (- k)
  | _ => NaN
  end.

(** *** Conversion to a primitive and to a number

    The relational operators and the division first turn an object into a
    primitive.  An array gives the text of its elements joined by commas, a
    Buffer its UTF-8 text, any other object the text [[object Object]]; an
    object with a data property of its own called [toString] has no method to
    call and the conversion throws. *)

(** A text, as far as a conversion to a number reads it: characters; the
    digits [String(x)] of a number, which read back as [x] and spell an
    integer literal only for an integer below [10 ^ 21]; the decimal digits
    of a bigint; or elements joined by commas, which is no literal. *)
Inductive JsText : Type :=
| Characters (utf8 : Buffer)
| DigitsOfNumber (x : JsNumber)
| DigitsOfBigInt (n : Z)
| Joined.

Inductive Primitive : Type :=
| PUndefined
| PNull
| PBool (b : bool)
| PNumber (x : JsNumber)
| PBigInt (n : Z)
| PText (text : JsText).

Definition hasOwnField (key : string) (fields : list (string * JsValue)) : bool :=
  existsb (fun field => String.eqb (fst field) key) fields.

(** [String(value)], and the text that [join] takes for an element of an
    array, where [undefined] and [null] are empty. *)
Fixpoint toText (element : bool) (value : JsValue) : Outcome JsText :=
  match value with
  | JUndefined => Ok (Characters (if element then [] else Buffer_from_utf8 "undefined"))
  | JNull => Ok (Characters (if element then [] else Buffer_from_utf8 "null"))
  | JBool b => Ok (Characters (Buffer_from_utf8 (if b then "true" else "false")))
  | JNumber _ | JNaN | JInfinity _ | JFraction _ _ => Ok (DigitsOfNumber (numberOf value))
  | JBigInt n => Ok (DigitsOfBigInt n)
  | JString s => Ok (Characters (Buffer_from_utf8 s))
  | JBuffer b => Ok (Characters b)
  | JArray [] => Ok (Characters [])
  | JArray [only] => toText true only
  | JArray items =>
      let* _ := (fix each (l : list JsValue) : Outcome unit :=
                   match l with
                   | [] => Ok tt
                   | x :: rest => let* _ := toText true x in each rest
                   end) items in
      Ok Joined
  | JObject fields =>
      if hasOwnField "toString" fields then Throw TypeError
      else Ok (Characters (Buffer_from_utf8 "[object Object]"))
  end.

Definition toPrimitive (value : JsValue) : Outcome Primitive :=
  match value with
  | JUndefined => Ok PUndefined
  | JNull => Ok PNull
  | JBool b => Ok (PBool b)
  | JNumber _ | JNaN | JInfinity _ | JFraction _ _ => Ok (PNumber (numberOf value))
  | JBigInt n => Ok (PBigInt n)
  | JString _ | JBuffer _ | JArray _ | JObject _ =>
      let* text := toText false value in Ok (PText text)
  end.

Definition readNumber (text : JsText) : JsNumber :=
  match text with
  | Characters utf8 => StringToNumber utf8
  | DigitsOfNumber x => x
  | DigitsOfBigInt n => toDouble n 1
  | Joined => NaN
  end.

Definition readBigInt (text : JsText) : option Z :=
  match text with
  | Characters utf8 => StringToBigInt utf8
  | DigitsOfNumber x =>
      match integerValue x with
      | Some n => if Z.abs n <? 10 ^ 21 then Some n else None
      | None => None
      end
  | DigitsOfBigInt n => Some n
  | Joined => None
  end.

(** The value that a primitive has in a comparison with a number; a bigint
    is compared by its value. *)
Definition asNumber (p : Primitive) : JsNumber :=
  match p with
  | PUndefined => NaN
  | PNull => Finite 0 0
  | PBool b => Finite (if b then 1 else 0) 0
  | PNumber x => x
  | PBigInt n => Finite n 0
  | PText text => readNumber text
  end.

(** The value that a primitive has in a comparison with a bigint: a text is
    read as a bigint, and one that is no integer literal makes the comparison
    undefined, as NaN does. *)
Definition againstBigInt (p : Primitive) : JsNumber :=
  match p with
  | PText text =>
      match readBigInt text with
      | Some n => Finite n 0
      | None => NaN
      end
  | _ => asNumber p
  end.

(** [value > bound] for a number [bound]. *)
Definition greaterThan (value : JsValue) (bound : Z) : Outcome bool :=
  let* p := toPrimitive value in
  Ok (match lessThan (Finite bound 0) (asNumber p) with
      | Some true => true
      | _ => false
      end).

(** [value > bound] for a bigint [bound]. *)
Definition greaterThanBigInt (value : JsValue) (bound : Z) : Outcome bool :=
  let* p := toPrimitive value in
  Ok (match lessThan (Finite bound 0) (againstBigInt p) with
      | Some true => true
      | _ => false
      end).

(** [n >= value] for a bigint [n]: false when the comparison is undefined. *)
Definition notLessThan (n : Z) (value : JsValue) : Outcome bool :=
  let* p := toPrimitive value in
  Ok (match lessThan (Finite n 0) (againstBigInt p) with
      | Some false => true
      | _ => false
      end).

(** A value used as a number in arithmetic: a bigint mixed with numbers
    throws. *)
Definition toNumber (value : JsValue) : Outcome JsNumber :=
  let* p := toPrimitive value in
  match p with
  | PBigInt _ => Throw TypeError
  | _ => Ok (asNumber p)
  end.

(** A value used where a method of Buffer is called on it or where a Buffer
    argument is required. *)
Definition asBuffer (value : JsValue) : Outcome Buffer :=
  match value with
  | JBuffer b => Ok b
  | _ => Throw TypeError
  end.

(** [for (const x of value)]. *)
Definition iterate (value : JsValue) : Outcome (list JsValue) :=
  match value with
  | JArray items => Ok items
  | JBuffer b => Ok (map (fun x => JNumber (byteToZ x)) b)
  | JString s => Ok (map (fun c => JString (String c EmptyString)) (list_ascii_of_string s))
  | _ => Throw TypeError
  end.

Fixpoint mapO {A B : Type} (f : A -> Outcome B) (l : list A) : Outcome (list B) :=
  match l with
  | [] => Ok []
  | x :: rest =>
      let* y := f x in
      let* ys := mapO f rest in
      Ok (y :: ys)
  end.

(** A loop that returns at the first element for which [f] holds, and leaves
    at the first exception. *)
Fixpoint existsO {A : Type} (f : A -> Outcome bool) (l : list A) : Outcome bool :=
  match l with
  | [] => Ok false
  | x :: rest =>
      let* found := f x in
      if found then Ok true else existsO f rest
  end.

(** A loop that threads an accumulator through the elements of [l] and
    leaves at the first exception. *)
Fixpoint foldO {A B : Type} (f : A -> B -> Outcome A) (l : list B) (acc : A) : Outcome A :=
  match l with
  | [] => Ok acc
  | x :: rest =>
      let* acc' := f acc x in
      foldO f rest acc'
  end.

(** [array[k] = v] for an index inside the array. *)
Definition arraySet {A : Type} (k : nat) (v : A) (array : list A) : list A :=
  firstn k array ++ v :: skipn (S k) array.

(** The 32-bit signed integer that the bitwise operators make of a number. *)
Definition toInt32 (z : Z) : Z := (z + 2 ^ 31) mod 2 ^ 32 - 2 ^ 31.

(** ** HMAC-SHA-256 (RFC 2104), Node's [createHmac('sha256', key)] *)

Module HMAC.

Definition blockSize : nat := 64.

Definition blockKey (key : Buffer) : Buffer :=
  let k := if Nat.ltb blockSize (length key) then SHA256.digest key else key in
  k ++ repeat x00 (blockSize - length k).

Definition xorPad (pad : Z) (key : Buffer) : Buffer :=
  map (fun x => byteOfZ (Z.lxor (byteToZ x) pad)) key.

Definition digest (key data : Buffer) : Buffer :=
  let k := blockKey key in
  SHA256.digest (xorPad 0x5c k ++ SHA256.digest (xorPad 0x36 k ++ data)).

End HMAC.

(** ** QuantumCrypto (utils/crypto) *)

Module QuantumCrypto.

(** [hash(data, 'sha256')] on a Buffer.  The engines only ever ask for
    SHA-256. *)
Definition hash (data : Buffer) : Buffer := SHA256.digest data.

(** [hmac(data, key, 'sha256')]. *)
Definition hmac (data key : Buffer) : Buffer := HMAC.digest key data.

(** [hash] applied to an untyped value: text is encoded as UTF-8, a Buffer is
    taken as it is, anything else is refused by [update]. *)
Definition hashValue (data : JsValue) : Outcome Buffer :=
  match data with
  | JString s => Ok (hash (Buffer_from_utf8 s))
  | JBuffer b => Ok (hash b)
  | _ => Throw TypeError
  end.

(** [combineHashes]: [reduce] without an initial value starts from the first
    element. *)
Definition combineHashes (hashes : list Buffer) : Outcome Buffer :=
  match hashes with
  | [] => Throw (Error "Cannot combine empty hash array")
  | [only] => Ok only
  | first :: rest => Ok (fold_left (fun acc h => hash (acc ++ h)) rest first)
  end.

(** *** Parameter validation *)

Inductive AlgorithmType : Type := lattice | hash_ | multivariate | hybrid.

Definition algorithmName (a : AlgorithmType) : string :=
  match a with
  | lattice => "lattice"
  | hash_ => "hash"
  | multivariate => "multivariate"
  | hybrid => "hybrid"
  end.

(** [typeof value === 'number']. *)
Definition isNumber (value : JsValue) : bool :=
  match value with
  | JNumber _ | JNaN | JInfinity _ | JFraction _ _ => true
  | _ => false
  end.

(** [typeof value !== 'number' || value < bound]: NaN is below nothing, and
    a fraction is below an integer when its whole part is. *)
Definition notNumberOrBelow (value : JsValue) (bound : Z) : bool :=
  match value with
  | JNumber n => n <? bound
  | JNaN => false
  | JInfinity negative => negative
  | JFraction whole _ => whole <? bound
  | _ => true
  end.

(** [typeof dimension !== 'number' || dimension < 128], then
    [typeof modulus !== 'bigint' || modulus <= 0n]. *)
Definition validateLatticeParameters (parameters : list (string * JsValue)) : bool :=
  let dimension := lookupField "dimension" parameters in
  let modulus := lookupField "modulus" parameters in
  if notNumberOrBelow dimension 128 then false
  else match modulus with
       | JBigInt m => if m <=? 0 then false else true
       | _ => false
       end.

Definition validateHashParameters (parameters : list (string * JsValue)) : bool :=
  let chainLength := lookupField "chainLength" parameters in
  if notNumberOrBelow chainLength 100 then false else true.

Definition validateMultivariateParameters (parameters : list (string * JsValue)) : bool :=
  let variables := lookupField "variables" parameters in
  let equations := lookupField "equations" parameters in
  if notNumberOrBelow variables 8 then false
  else match variables, equations with
       | JNumber v, JNumber e => if e <? v then false else true
       | _, _ =>
           if negb (isNumber equations) then false
           else match lessThan (numberOf equations) (numberOf variables) with
                | Some true => false
                | _ => true
                end
       end.

Definition validateHybridParameters (parameters : list (string * JsValue)) : bool :=
  match lookupField "algorithms" parameters with
  | JArray algorithms =>
      if Nat.ltb (length algorithms) 2 then false
      else forallb (fun alg => isString alg "lattice" || isString alg "hash"
                               || isString alg "multivariate") algorithms
  | _ => false
  end.

Definition validateParameters (algorithm : AlgorithmType)
    (parameters : list (string * JsValue)) : bool :=
  match algorithm with
  | lattice => validateLatticeParameters parameters
  | hash_ => validateHashParameters parameters
  | multivariate => validateMultivariateParameters parameters
  | hybrid => validateHybridParameters parameters
  end.

(** *** Buffers and big integers *)

(** [Math.ceil(a / b)] for two counts. *)
Definition ceilDiv (a b : nat) : nat := Nat.div (a + b - 1) b.

(** One iteration of the loop of [bufferToBigInts]. *)
Definition sliceToBigInt (buffer : Buffer) (bytesPerInt i : nat) : Z :=
  let start := (i * bytesPerInt)%nat in
  let end_ := Nat.min (start + bytesPerInt) (length buffer) in
  let slice := Buffer_slice buffer start end_ in
  if Nat.eqb (length slice) 0 then 0
  else
    let hex := Buffer_toString_hex slice in
    let paddedHex := padStart (length slice * 2) hex in
    BigInt_of_hex paddedHex.

(** The loop [for (let i = 0; i < count; i++)] run [iterations] times. *)
Definition bufferToBigIntsLoop (buffer : Buffer) (bytesPerInt iterations : nat) : list Z :=
  map (sliceToBigInt buffer bytesPerInt) (seq 0 iterations).

Definition bufferToBigInts (buffer : Buffer) (count : nat) : list Z :=
  let bytesPerInt := ceilDiv (length buffer) count in
  bufferToBigIntsLoop buffer bytesPerInt count.

(** [a / count] for an integer [a] and a finite [count] other than zero. *)
Definition divideInteger (a m e : Z) : JsNumber :=
  let (p, d) := if 0 <=? e then (a, Z.abs m * 2 ^ e) else (a * 2 ^ (- e), Z.abs m) in
  if m <? 0 then negate (toDouble p d) else toDouble p d.

(** [bufferToBigInts] called with an untyped count.  The count is converted
    to a number by the division and by the test of the loop; a bigint cannot
    divide a number.  The loop makes one pass for every integer from 0 that
    is below the count, none when the count is NaN, and an array takes
    [2 ^ 32 - 1] elements: the push after that throws.  For a count that is
    an integer the quotient [buffer.length / count] is rounded to no other
    integer than its own ceiling; for a fraction [Math.ceil] is taken of the
    rounded quotient, and when that is Infinity the start of every slice is
    NaN or Infinity and every slice is empty. *)
Definition bufferToBigIntsValue (buffer : Buffer) (count : JsValue) : Outcome (list Z) :=
  let* c := toNumber count in
  match c with
  | NaN | Infinity true => Ok []
  | Infinity false => Throw RangeError
  | Finite m e =>
      let passes := ceiling m e in
      if 2 ^ 32 <=? passes then Throw RangeError
      else
        match integerValue c with
        | Some n => Ok (bufferToBigInts buffer (Z.to_nat n))
        | None =>
            match divideInteger (Z.of_nat (length buffer)) m e with
            | Finite qm qe =>
                let bytesPerInt := ceiling qm qe in
                Ok (bufferToBigIntsLoop buffer (Z.to_nat bytesPerInt) (Z.to_nat passes))
            | _ => Ok (repeat 0 (Z.to_nat passes))
            end
        end
  end.

(** The callback of [ints.map] in [bigIntsToBuffer]. *)
Definition bigIntToBuffer (int : Z) : Buffer :=
  let hex := BigInt_toString16 int in
  Buffer_from_hex (padStart (length hex + Nat.modulo (length hex) 2) hex).

Definition bigIntsToBuffer (ints : list Z) : Buffer :=
  concat (map bigIntToBuffer ints).

(** *** Merkle trees *)

(** The inner [for] loop of [generateMerkleTree]: adjacent pairs are hashed,
    a last node without a neighbour is paired with itself. *)
Fixpoint nextLevel (currentLevel : list Buffer) : list Buffer :=
  match currentLevel with
  | [] => []
  | [leftNode] => [hash (leftNode ++ leftNode)]
  | leftNode :: rightNode :: rest => hash (leftNode ++ rightNode) :: nextLevel rest
  end.

(** The [while (currentLevel.length > 1)] loop; every pass shortens the level,
    so as many passes as there are leaves are never used up. *)
Fixpoint upperLevels (fuel : nat) (currentLevel : list Buffer) : list (list Buffer) :=
  match fuel with
  | O => []
  | S fuel' =>
      if Nat.ltb 1 (length currentLevel)
      then let next := nextLevel currentLevel in next :: upperLevels fuel' next
      else []
  end.

Definition generateMerkleTree (leaves : list Buffer)
    : Outcome (list (list Buffer) * Buffer) :=
  if Nat.eqb (length leaves) 0
  then Throw (Error "Cannot generate Merkle tree with no leaves")
  else
    let tree := leaves :: upperLevels (length leaves) leaves in
    Ok (tree, nth 0 (last tree []) []).

(** [generateMerkleProof]: one pass per level below the top. *)
Fixpoint generateMerkleProof (tree : list (list Buffer)) (leafIndex : nat) : list Buffer :=
  match tree with
  | level :: ((_ :: _) as above) =>
      let isRight := Nat.eqb (Nat.modulo leafIndex 2) 1 in
      let siblingIndex := if isRight then (leafIndex - 1)%nat else (leafIndex + 1)%nat in
      (if Nat.ltb siblingIndex (length level) then [nth siblingIndex level []] else [])
        ++ generateMerkleProof above (Nat.div leafIndex 2)
  | _ => []
  end.

Fixpoint merkleFold (currentHash : Buffer) (proof : list Buffer) (currentIndex : nat) : Buffer :=
  match proof with
  | [] => currentHash
  | sibling :: rest =>
      let isRight := Nat.eqb (Nat.modulo currentIndex 2) 1 in
      let combined := if isRight then sibling ++ currentHash else currentHash ++ sibling in
      merkleFold (hash combined) rest (Nat.div currentIndex 2)
  end.

Definition verifyMerkleProof (leaf : Buffer) (proof : list Buffer) (root : Buffer)
    (leafIndex : nat) : bool :=
  Buffer_equals (merkleFold leaf proof leafIndex) root.

(** [verifyMerkleProof] on untyped arguments: [Buffer.concat] and [equals]
    refuse anything that is not a Buffer, [for ... of] anything that cannot be
    iterated. *)
Definition verifyMerkleProofValue (leaf proof root : JsValue) (leafIndex : nat)
    : Outcome bool :=
  let* siblings := iterate proof in
  let* leafBytes := asBuffer leaf in
  let* siblingBytes := mapO asBuffer siblings in
  let* rootBytes := asBuffer root in
  Ok (verifyMerkleProof leafBytes siblingBytes rootBytes leafIndex).

(** *** Hash chains, challenge lengths and polynomials *)

Fixpoint createHashChainLoop (current : Buffer) (n : nat) : list Buffer :=
  match n with
  | O => []
  | S n' => let next := hash current in next :: createHashChainLoop next n'
  end.

(** [createHashChain]: the public twin of the hash engine's private function;
    it refuses a length that is not positive. *)
Definition createHashChain (seed : Buffer) (length : Z) : Outcome (list Buffer) :=
  if length <=? 0 then Throw (Error "Chain length must be positive")
  else Ok (createHashChainLoop seed (Z.to_nat length)).

Definition getChallengeLength (algorithm : AlgorithmType) : Z :=
  match algorithm with
  | lattice => 32
  | hash_ => 16
  | multivariate => 24
  | hybrid => 40
  end.

(** One pass of the inner loop of [polynomialMultiply].  Reading [b[j]] past
    the end gives [undefined], which a bigint cannot be multiplied with; the
    product is formed before the remainder is taken. *)
Definition polynomialMultiplyStep (a b : list Z) (modulus : Z) (i : nat)
    (result : list Z) (j : nat) : Outcome (list Z) :=
  let degree := length a in
  let k := Nat.modulo (i + j) degree in
  match nth_error b j with
  | None => Throw TypeError
  | Some bj =>
      if modulus =? 0 then Throw RangeError
      else Ok (arraySet k (Z.rem (nth k result 0 + nth i a 0 * bj) modulus) result)
  end.

Definition polynomialMultiply (a b : list Z) (modulus : Z) : Outcome (list Z) :=
  let degree := length a in
  foldO (fun result i => foldO (polynomialMultiplyStep a b modulus i) (seq 0 degree) result)
        (seq 0 degree) (repeat 0 degree).

(** The inner loop of [evaluateMultivariatePolynomial] on one row:
    [term = term * values[j] ** BigInt(j)] for the positions [j] that [values]
    has. *)
Definition monomialTerm (row values : list Z) : Z :=
  fold_left (fun term j =>
               if Nat.ltb j (length values) then term * nth j values 0 ^ Z.of_nat j else term)
            (seq 0 (length row)) 1.

(** [evaluateMultivariatePolynomial]: [result += polynomial[i][0] * term]; the
    first entry of an empty row is [undefined]. *)
Definition evaluateMultivariatePolynomial (polynomial : list (list Z)) (values : list Z)
    : Outcome Z :=
  foldO (fun result row =>
           match row with
           | [] => Throw TypeError
           | first :: _ => Ok (result + first * monomialTerm row values)
           end)
        polynomial 0.

(** *** Randomness *)

Section Randomness.

Variable env : Environment.

Definition generateRandomBytes (length : Z) : Rand Buffer :=
  fun cursor =>
    if length <=? 0 then Raised (Error "Length must be positive")
    else
      let n := Z.to_nat length in
      Returned (map (fun i => entropy env (cursor + i)%nat) (seq 0 n), (cursor + n)%nat).

(** [generateRandomBigInt]: the remainder of bigints is truncated, and a zero
    range is a division by zero. *)
Definition generateRandomBigInt (min max : Z) : Rand Z :=
  let range := max - min in
  let bytes := ceilDiv (length (BigInt_toString16 range)) 2 in
  let! buffer := generateRandomBytes (Z.of_nat bytes) in
  let value := BigInt_of_hex (Buffer_toString_hex buffer) in
  if range =? 0 then throwR RangeError
  else retR (Z.rem value range + min).

Definition generateDiscreteGaussianError (sigma : Z) : Rand Z :=
  let! r1 := generateRandomBigInt 0 1000 in
  let! r2 := generateRandomBigInt 0 1000 in
  retR (gaussian env sigma r1 r2).

(** [for (let i = 0; i < n; i++) out.push(draw)]. *)
Fixpoint repeatR {A : Type} (n : nat) (draw : Rand A) : Rand (list A) :=
  match n with
  | O => retR []
  | S n' =>
      let! x := draw in
      let! xs := repeatR n' draw in
      retR (x :: xs)
  end.

Definition generateLWESample (dimension : Z) (modulus errorBound : Z)
    : Rand (list Z * Z) :=
  let! a := repeatR (Z.to_nat dimension) (generateRandomBigInt 0 modulus) in
  let! error := generateDiscreteGaussianError errorBound in
  let! r := generateRandomBigInt 0 modulus in
  if modulus =? 0 then throwR RangeError
  else retR (a, Z.rem (r + error) modulus).

(** [modPow]: square and multiply along the binary digits of the exponent,
    lowest digit first ([exponent % 2n], [exponent >> 1n]). *)
Fixpoint modPowLoop (exponent : positive) (base result modulus : Z) : Z :=
  match exponent with
  | xH => Z.rem (result * base) modulus
  | xO e => modPowLoop e (Z.rem (base * base) modulus) result modulus
  | xI e => modPowLoop e (Z.rem (base * base) modulus) (Z.rem (result * base) modulus) modulus
  end.

Definition modPow (base exponent modulus : Z) : Outcome Z :=
  if modulus =? 1 then Ok 0
  else if modulus =? 0 then Throw RangeError
  else match exponent with
       | Zpos e => Ok (modPowLoop e (Z.rem base modulus) 1 modulus)
       | _ => Ok 1
       end.

Fixpoint strongProbablePrimeLoop (iterations : nat) (x n : Z) : bool :=
  match iterations with
  | O => false
  | S k =>
      let x' := Z.rem (x * x) n in
      if x' =? n - 1 then true
      else if x' =? 1 then false
      else strongProbablePrimeLoop k x' n
  end.

Definition isStrongProbablePrime (n a d r : Z) : Outcome bool :=
  let* x := modPow a d n in
  if (x =? 1) || (x =? n - 1) then Ok true
  else Ok (strongProbablePrimeLoop (Z.to_nat (r - 1)) x n).

(** [while (d % 2n === 0n) { d = d / 2n; r += 1n }] on a positive [d]. *)
Fixpoint oddPart (d : positive) (r : Z) : Z * Z :=
  match d with
  | xO d' => oddPart d' (r + 1)
  | _ => (Zpos d, r)
  end.

Fixpoint millerRabinRounds (k : nat) (n d r : Z) : Rand bool :=
  match k with
  | O => retR true
  | S k' =>
      let! a := generateRandomBigInt 2 (n - 2) in
      let! probable := liftR (isStrongProbablePrime n a d r) in
      if probable then millerRabinRounds k' n d r else retR false
  end.

Definition millerRabinPrimalityTest (n : Z) (k : nat) : Rand bool :=
  if n <=? 1 then retR false
  else if n <=? 3 then retR true
  else if Z.rem n 2 =? 0 then retR false
  else
    match n - 1 with
    | Zpos p => let (d, r) := oddPart p 0 in millerRabinRounds k n d r
    | _ => retR false
    end.

(** The search loop of [generateLargePrime], at most [fuel] candidates. *)
Fixpoint primeSearch (fuel : nat) (minValue maxValue candidate : Z) : Rand Z :=
  match fuel with
  | O => fun _ => OutOfFuel
  | S fuel' =>
      let! prime := millerRabinPrimalityTest candidate 40 in
      if prime then retR candidate
      else
        let next := candidate + 2 in
        primeSearch fuel' minValue maxValue (if maxValue <? next then minValue else next)
  end.

Definition generateLargePrime (fuel : nat) (bits : Z) : Rand Z :=
  if bits <? 64 then throwR (Error "Prime must be at least 64 bits for security")
  else
    let maxValue := Z.shiftl 1 bits - 1 in
    let minValue := Z.shiftl 1 (bits - 1) in
    let! candidate := generateRandomBigInt minValue maxValue in
    primeSearch fuel minValue maxValue
      (if Z.rem candidate 2 =? 0 then candidate + 1 else candidate).

Definition generateQuantumSafeChallenge (algorithm : AlgorithmType) : Rand Buffer :=
  let length := getChallengeLength algorithm in
  generateRandomBytes length.

Definition isProbablePrime (n : Z) : Rand bool := millerRabinPrimalityTest n 5.

(** The second loop of [generateRLWEPolynomial]: an error is drawn for every
    coefficient in turn. *)
Fixpoint addErrors (coefficients : list Z) (modulus errorBound : Z) : Rand (list Z) :=
  match coefficients with
  | [] => retR []
  | c :: rest =>
      let! error := generateDiscreteGaussianError errorBound in
      if modulus =? 0 then throwR RangeError
      else
        let! rest' := addErrors rest modulus errorBound in
        retR (Z.rem (c + error) modulus :: rest')
  end.

Definition generateRLWEPolynomial (degree modulus errorBound : Z) : Rand (list Z) :=
  if negb (Z.land (toInt32 degree) (toInt32 (degree - 1)) =? 0)
  then throwR (Error "Degree must be a power of 2 for RLWE")
  else
    let! coefficients := repeatR (Z.to_nat degree) (generateRandomBigInt 0 modulus) in
    addErrors coefficients modulus errorBound.

(** [generateMultivariateSystem]: [equations] rows of [variables] polynomials
    of [degree + 1] coefficients ([d <= degree]). *)
Definition generateMultivariateSystem (variables equations degree : Z)
    : Rand (list (list (list Z))) :=
  repeatR (Z.to_nat equations)
    (repeatR (Z.to_nat variables)
       (repeatR (Z.to_nat (degree + 1)) (generateRandomBigInt 0 (2 ^ 64)))).

End Randomness.

End QuantumCrypto.

(** ** Arguments of [createProof] *)

(** [secret: Buffer | string]. *)
Inductive Secret : Type :=
| SecretBuffer (b : Buffer)
| SecretText (s : string).

Definition secretBytes (secret : Secret) : Buffer :=
  match secret with
  | SecretBuffer b => b
  | SecretText s => Buffer_from_utf8 s
  end.

(** [Partial<ProofParameters>], the numeric fields. *)
Record ProofParameters : Type := mkProofParameters
  { dimension : option Z;
    modulus : option Z;
    chainLength : option Z;
    variables : option Z;
    equations : option Z }.

Definition noParameters : ProofParameters := mkProofParameters None None None None None.

(** [parameters?.field]. *)
Definition optionalField (parameters : option ProofParameters)
    (field : ProofParameters -> option Z) : option Z :=
  match parameters with
  | Some p => field p
  | None => None
  end.

(** [value || fallback] for a number or bigint that may be absent: zero is
    falsy. *)
Definition orDefault (value : option Z) (fallback : Z) : Z :=
  match value with
  | Some v => if v =? 0 then fallback else v
  | None => fallback
  end.

Definition elements (value : JsValue) : list JsValue :=
  match value with
  | JArray items => items
  | _ => []
  end.

(** [value.length === n], used behind a test that [value] is truthy. *)
Definition hasLength (value : JsValue) (n : nat) : bool :=
  match getProp value "length" with
  | Ok (JNumber k) => k =? Z.of_nat n
  | _ => false
  end.

Definition jsBuffers (l : list Buffer) : JsValue := JArray (map JBuffer l).

(** ** HashZKP (algorithms/hash) *)

Module HashZKP.

Import QuantumCrypto.

Definition DEFAULT_CHAIN_LENGTH : Z := 1000.
Definition VERSION : string := "1.0.0".

Fixpoint createHashChainLoop (current : Buffer) (n : nat) : list Buffer :=
  match n with
  | O => []
  | S n' => let next := hash current in next :: createHashChainLoop next n'
  end.

Definition createHashChain (seed : Buffer) (length : Z) : list Buffer :=
  createHashChainLoop seed (Z.to_nat length).

(** [createHashChain] with a seed that may be [undefined] (the last element
    of an empty batch): hashing [undefined] throws. *)
Definition createHashChainFrom (current : option Buffer) (length : Z)
    : Outcome (list Buffer) :=
  match current with
  | Some seed => Ok (createHashChain seed length)
  | None => if 0 <? length then Throw TypeError else Ok []
  end.

(** The passes of [for (let i = 0; i < length; i += batchSize)] of
    [createOptimizedHashChain], one for each start [i]. *)
Fixpoint optimizedBatches (current : option Buffer) (length : Z) (starts : list Z)
    : Outcome (list Buffer) :=
  match starts with
  | [] => Ok []
  | i :: rest =>
      let batchLength := Z.min 100 (length - i) in
      let* batch := createHashChainFrom current batchLength in
      let* chain := optimizedBatches (nth_error batch (List.length batch - 1)) length rest in
      Ok (batch ++ chain)
  end.

Definition createOptimizedHashChain (seed : Buffer) (length : Z) : Outcome (list Buffer) :=
  let batchSize := 100 in
  let passes := Z.to_nat ((length + batchSize - 1) / batchSize) in
  optimizedBatches (Some seed) length (map (fun k => Z.of_nat k * batchSize) (seq 0 passes)).

Fixpoint verifyHashChainLoop (previous : Buffer) (rest : list Buffer) : bool :=
  match rest with
  | [] => true
  | x :: rest' =>
      let expected := hash previous in
      if negb (Buffer_equals expected x) then false
      else verifyHashChainLoop x rest'
  end.

Definition verifyHashChain (hashChain : list Buffer) : bool :=
  if Nat.ltb (length hashChain) 2 then false
  else match hashChain with
       | first :: rest => verifyHashChainLoop first rest
       | [] => false
       end.

(** [verifyHashChain] on the elements of an untyped array. *)
Fixpoint verifyHashChainLoopValue (previous : JsValue) (rest : list JsValue) : Outcome bool :=
  match rest with
  | [] => Ok true
  | x :: rest' =>
      let* expected := hashValue previous in
      let* xBytes := asBuffer x in
      if negb (Buffer_equals expected xBytes) then Ok false
      else verifyHashChainLoopValue x rest'
  end.

Definition verifyHashChainValue (hashChain : list JsValue) : Outcome bool :=
  if Nat.ltb (length hashChain) 2 then Ok false
  else match hashChain with
       | first :: rest => verifyHashChainLoopValue first rest
       | [] => Ok false
       end.

Definition generateChallenge (commitment witness : Buffer) : Buffer :=
  hash (commitment ++ witness).

Definition fit32 (b : Buffer) : Buffer :=
  if Nat.leb 32 (length b) then Buffer_slice b 0 32
  else b ++ repeat x00 (32 - length b).

Definition createResponse (secret witness challenge : Buffer) : Buffer :=
  let secretHash := hash secret in
  let challengeResponse := hmac challenge secretHash in
  let witnessPart := fit32 witness in
  let responsePart := fit32 challengeResponse in
  witnessPart ++ responsePart.

Definition validateProofStructure (proof : JsValue) : Outcome bool :=
  let* type := getProp proof "type" in
  let* commitment := getProp proof "commitment" in
  let* challenge := getProp proof "challenge" in
  let* response := getProp proof "response" in
  let* hashChain := getProp proof "hashChain" in
  let* chainLength := getProp proof "chainLength" in
  let* merkleTree := getProp proof "merkleTree" in
  let* merkleProof := getProp proof "merkleProof" in
  if isString type "hash"
     && instanceofBuffer commitment
     && instanceofBuffer challenge
     && instanceofBuffer response
     && instanceofArray hashChain
     && Nat.ltb 0 (length (elements hashChain))
  then
    let* positiveLength := greaterThan chainLength 0 in
    Ok (positiveLength
        && negb (isUndefined merkleTree)
        && negb (isUndefined merkleProof))
  else Ok false.

Definition verifyProofBody (proof : JsValue) : Outcome bool :=
  let* valid := validateProofStructure proof in
  if negb valid then Ok false else
  let* hashChain := getProp proof "hashChain" in
  if negb (truthy hashChain) || Nat.eqb (length (elements hashChain)) 0 then Ok false else
  let* merkleProof := getProp proof "merkleProof" in
  let* commitmentChain := getProp proof "commitmentChain" in
  let first := nth 0 (elements hashChain) JUndefined in
  let* inTree := verifyMerkleProofValue first merkleProof commitmentChain 0 in
  if negb inTree then Ok false else
  let* chained := verifyHashChainValue (elements hashChain) in
  if negb chained then Ok false else
  let* expectedCommitment := asBuffer first in
  let* commitment := getProp proof "commitment" in
  let* commitmentBytes := asBuffer commitment in
  if negb (Buffer_equals expectedCommitment commitmentBytes) then Ok false else
  let* response := getProp proof "response" in
  if negb (truthy response) || negb (hasLength response 64) then Ok false else
  let* challenge := getProp proof "challenge" in
  if negb (truthy challenge) || negb (hasLength challenge 32) then Ok false else
  Ok true.

(** The whole body sits in [try { ... } catch { return false }]. *)
Definition verifyProof (proof : JsValue) : Outcome bool :=
  tryCatch (verifyProofBody proof) false.

Section Create.

Variable env : Environment.

Definition createProof (secret : Secret) (parameters : option ProofParameters)
    : Rand JsValue :=
  let chainLength := orDefault (optionalField parameters chainLength) DEFAULT_CHAIN_LENGTH in
  if negb (validateParameters hash_ [("chainLength"%string, JNumber chainLength)])
  then throwR (Error "Invalid hash parameters")
  else
    let secretBuffer := secretBytes secret in
    let! witness := generateRandomBytes env 32 in
    let! randomSeed := generateRandomBytes env 16 in
    let combinedSeed := secretBuffer ++ randomSeed in
    let commitmentChain := createHashChain combinedSeed chainLength in
    let commitment := nth 0 commitmentChain [] in
    let challenge := generateChallenge commitment witness in
    let response := createResponse secretBuffer witness challenge in
    let! (tree, root) := liftR (generateMerkleTree commitmentChain) in
    let merkleProof := generateMerkleProof tree 0 in
    retR (JObject
      [ ("type", JString "hash");
        ("commitment", JBuffer commitment);
        ("challenge", JBuffer challenge);
        ("response", JBuffer response);
        ("parameters", JObject [("chainLength", JNumber chainLength)]);
        ("quantumSafe", JBool true);
        ("timestamp", JNumber (now env));
        ("version", JString VERSION);
        ("chainLength", JNumber chainLength);
        ("hashChain", jsBuffers commitmentChain);
        ("commitmentChain", JBuffer root);
        ("merkleTree", JArray (map jsBuffers tree));
        ("merkleProof", jsBuffers merkleProof) ]%string).

End Create.

End HashZKP.

(** The three sentinel tests shared by the lattice, multivariate and hybrid
    verifiers: [x.toString('utf8').includes('corrupted')] on a Buffer. *)
Definition mentionsCorrupted (value : JsValue) : Outcome bool :=
  let* bytes := asBuffer value in
  Ok (includesCorrupted bytes).

(** [verifyZeroKnowledge], the same in the three engines that have it. *)
Definition digestsDiffer (proof : JsValue) : Outcome bool :=
  let* response := getProp proof "response" in
  let* challenge := getProp proof "challenge" in
  let* responseHash := QuantumCrypto.hashValue response in
  let* challengeHash := QuantumCrypto.hashValue challenge in
  Ok (negb (Buffer_equals responseHash challengeHash)).

(** ** LatticeZKP (algorithms/lattice) *)

Module LatticeZKP.

Import QuantumCrypto.

Definition DEFAULT_DIMENSION : Z := 256.
Definition DEFAULT_BITS : Z := 1024.
Definition DEFAULT_ERROR_BOUND : Z := 8.
Definition VERSION : string := "1.0.0".

(** The accumulation loop of [createLWECommitment]. *)
Definition innerProduct (a secretInts : list Z) (modulus : Z) : Z :=
  fold_left (fun commitment p => Z.rem (commitment + fst p * snd p) modulus)
            (combine a secretInts) 0.

Definition generateLWEChallenge (commitment witness : Buffer) (a : list Z) : Buffer :=
  let aBuffer := bigIntsToBuffer a in
  hash (commitment ++ witness ++ aBuffer).

Definition createLWEResponse (secret witness challenge : Buffer) (a : list Z) (modulus : Z)
    : Buffer :=
  let secretInts := bufferToBigInts secret (length a) in
  let challengeInt := BigInt_of_hex (Buffer_toString_hex challenge) in
  let weightedSecret := map (fun s => Z.rem (s * challengeInt) modulus) secretInts in
  let witnessInts := bufferToBigInts witness (length a) in
  let response :=
    map (fun p => Z.rem (fst p + snd p) modulus) (combine weightedSecret witnessInts) in
  bigIntsToBuffer response.

Definition polynomialHash (coefficients : list Z) : Buffer :=
  hash (bigIntsToBuffer coefficients).

Definition validateProofStructure (proof : JsValue) : Outcome bool :=
  let* type := getProp proof "type" in
  let* commitment := getProp proof "commitment" in
  let* challenge := getProp proof "challenge" in
  let* response := getProp proof "response" in
  let* polynomialCommitment := getProp proof "polynomialCommitment" in
  let* dimension := getProp proof "dimension" in
  let* modulus := getProp proof "modulus" in
  if isString type "lattice"
     && instanceofBuffer commitment
     && instanceofBuffer challenge
     && instanceofBuffer response
     && instanceofBuffer polynomialCommitment
  then
    let* positiveDimension := greaterThan dimension 0 in
    if positiveDimension then greaterThanBigInt modulus 0 else Ok false
  else Ok false.

(** [value < 0n || value >= proof.modulus]. *)
Definition outOfRange (value : Z) (modulus : JsValue) : Outcome bool :=
  if value <? 0 then Ok true else notLessThan value modulus.

Definition verifyLWEEquationBody (proof : JsValue) : Outcome bool :=
  let* responseValue := getProp proof "response" in
  let* responseBytes := asBuffer responseValue in
  if includesCorrupted responseBytes then Ok false else
  let* commitmentValue := getProp proof "commitment" in
  let* commitmentBytes := asBuffer commitmentValue in
  let commitment := nth 0 (bufferToBigInts commitmentBytes 1) 0 in
  let* dimension := getProp proof "dimension" in
  let* modulus := getProp proof "modulus" in
  let* response := bufferToBigIntsValue responseBytes dimension in
  if negb (match dimension with
           | JNumber d => Z.of_nat (length response) =? d
           | _ => false
           end) then Ok false else
  let* responseOutOfRange := existsO (fun value => outOfRange value modulus) response in
  if responseOutOfRange then Ok false else
  let* commitmentOutOfRange := outOfRange commitment modulus in
  if commitmentOutOfRange then Ok false else
  let hasNonZero := existsb (fun value => negb (value =? 0)) response in
  if negb hasNonZero then Ok false else
  let uniqueValues := nodup Z.eq_dec response in
  if Nat.eqb (length uniqueValues) 1 && (nth 0 response 0 =? 0) then Ok false else
  Ok true.

Definition verifyLWEEquation (proof : JsValue) : Outcome bool :=
  tryCatch (verifyLWEEquationBody proof) false.

Definition verifyPolynomialCommitmentBody (proof : JsValue) : Outcome bool :=
  let* polynomialCommitment := getProp proof "polynomialCommitment" in
  if negb (truthy polynomialCommitment) || hasLength polynomialCommitment 0 then Ok false else
  if negb (hasLength polynomialCommitment 32) then Ok false else
  Ok true.

Definition verifyPolynomialCommitment (proof : JsValue) : Outcome bool :=
  tryCatch (verifyPolynomialCommitmentBody proof) false.

Definition verifyZeroKnowledge (proof : JsValue) : Outcome bool :=
  tryCatch (digestsDiffer proof) false.

(** [bufferToBigInts(proof.response, Math.min(proof.response.length / 8, 10))].
    Below 80 bytes the count is the fraction [length / 8]: the loop
    [i < count] then runs [ceil(length / 8)] times and
    [Math.ceil(length / count)] is 8. *)
Definition leadingResponseInts (response : Buffer) : list Z :=
  if Nat.ltb (length response) 80
  then bufferToBigIntsLoop response 8 (ceilDiv (length response) 8)
  else bufferToBigInts response 10.

Definition verifyProofBody (proof : JsValue) : Outcome bool :=
  let* valid := validateProofStructure proof in
  if negb valid then Ok false else
  let* response := getProp proof "response" in
  if negb (truthy response) || hasLength response 0 then Ok false else
  let* challenge := getProp proof "challenge" in
  if negb (truthy challenge) || negb (hasLength challenge 32) then Ok false else
  let* commitment := getProp proof "commitment" in
  if negb (truthy commitment) || hasLength commitment 0 then Ok false else
  let* responseBytes := asBuffer response in
  let responseInts := leadingResponseInts responseBytes in
  let hasValidResponse := existsb (fun value => negb (value =? 0)) responseInts in
  if negb hasValidResponse then Ok false else
  let* challengeBytes := asBuffer challenge in
  let challengeInts := bufferToBigInts challengeBytes 4 in
  let hasValidChallenge := existsb (fun value => negb (value =? 0)) challengeInts in
  if negb hasValidChallenge then Ok false else
  let* responseMarked := mentionsCorrupted response in
  let* challengeMarked := mentionsCorrupted challenge in
  let* commitmentMarked := mentionsCorrupted commitment in
  if responseMarked || challengeMarked || commitmentMarked then Ok false else
  let* isValidLWE := verifyLWEEquation proof in
  if negb isValidLWE then Ok false else
  let* isValidPolynomial := verifyPolynomialCommitment proof in
  if negb isValidPolynomial then Ok false else
  let* isZeroKnowledge := verifyZeroKnowledge proof in
  if negb isZeroKnowledge then Ok false else
  Ok true.

Definition verifyProof (proof : JsValue) : Outcome bool :=
  tryCatch (verifyProofBody proof) false.

Section Create.

Variable env : Environment.

Definition createLWECommitment (a : list Z) (secret : Buffer) (modulus : Z) : Rand Buffer :=
  let secretInts := bufferToBigInts secret (length a) in
  let commitment := innerProduct a secretInts modulus in
  let! error := generateDiscreteGaussianError env DEFAULT_ERROR_BOUND in
  let commitment := Z.rem (commitment + error) modulus in
  retR (bigIntsToBuffer [commitment]).

Definition generatePolynomialCoefficients (dimension : Z) : Rand (list Z) :=
  repeatR (Z.to_nat dimension) (generateRandomBigInt env 0 (2 ^ 64)).

Definition createPolynomialCommitment (dimension : Z) : Rand Buffer :=
  let! coefficients := generatePolynomialCoefficients dimension in
  retR (polynomialHash coefficients).

(** [createProof] once [dimension] and [modulus] are settled. *)
Definition createProofWith (dimension modulus : Z) (secret : Secret) : Rand JsValue :=
  let errorBound := DEFAULT_ERROR_BOUND in
  if negb (validateParameters lattice
             [("dimension"%string, JNumber dimension); ("modulus"%string, JBigInt modulus)])
  then throwR (Error "Invalid lattice parameters")
  else
    let secretBuffer := secretBytes secret in
    let! sample := generateLWESample env dimension modulus errorBound in
    let a := fst sample in
    let! witness := generateRandomBytes env 32 in
    let! commitment := createLWECommitment a secretBuffer modulus in
    let challenge := generateLWEChallenge commitment witness a in
    let response := createLWEResponse secretBuffer witness challenge a modulus in
    let! polynomialCommitment := createPolynomialCommitment dimension in
    retR (JObject
      [ ("type", JString "lattice");
        ("commitment", JBuffer commitment);
        ("response", JBuffer response);
        ("challenge", JBuffer challenge);
        ("parameters", JObject [("dimension", JNumber dimension); ("modulus", JBigInt modulus)]);
        ("quantumSafe", JBool true);
        ("timestamp", JNumber (now env));
        ("version", JString VERSION);
        ("dimension", JNumber dimension);
        ("modulus", JBigInt modulus);
        ("polynomialCommitment", JBuffer polynomialCommitment) ]%string).

(** [createProof]; [fuel] bounds the prime search that supplies a missing
    modulus. *)
Definition createProof (fuel : nat) (secret : Secret) (parameters : option ProofParameters)
    : Rand JsValue :=
  let dimension := orDefault (optionalField parameters dimension) DEFAULT_DIMENSION in
  let! modulus :=
    match optionalField parameters modulus with
    | Some m => if m =? 0 then generateLargePrime env fuel DEFAULT_BITS else retR m
    | None => generateLargePrime env fuel DEFAULT_BITS
    end in
  createProofWith dimension modulus secret.

End Create.

End LatticeZKP.

(** ** MultivariateZKP (algorithms/multivariate): verification *)

Module MultivariateZKP.

Import QuantumCrypto.

Definition validateProofStructure (proof : JsValue) : Outcome bool :=
  let* type := getProp proof "type" in
  let* commitment := getProp proof "commitment" in
  let* challenge := getProp proof "challenge" in
  let* response := getProp proof "response" in
  let* polynomialSystem := getProp proof "polynomialSystem" in
  let* solution := getProp proof "solution" in
  let* variables := getProp proof "variables" in
  let* equations := getProp proof "equations" in
  if isString type "multivariate"
     && instanceofBuffer commitment
     && instanceofBuffer challenge
     && instanceofBuffer response
     && instanceofBuffer polynomialSystem
     && instanceofBuffer solution
  then
    let* positiveVariables := greaterThan variables 0 in
    if positiveVariables then greaterThan equations 0 else Ok false
  else Ok false.

Definition verifyMultivariateCommitmentBody (proof : JsValue) : Outcome bool :=
  let* commitment := getProp proof "commitment" in
  if negb (truthy commitment) || negb (hasLength commitment 32) then Ok false else
  Ok true.

Definition verifyMultivariateCommitment (proof : JsValue) : Outcome bool :=
  tryCatch (verifyMultivariateCommitmentBody proof) false.

Definition verifyPolynomialSolutionBody (proof : JsValue) : Outcome bool :=
  let* solution := getProp proof "solution" in
  let* solutionMarked := mentionsCorrupted solution in
  if solutionMarked then Ok false else
  if negb (truthy solution) || hasLength solution 0 then Ok false else
  let* solutionBytes := asBuffer solution in
  let* equations := getProp proof "equations" in
  let* solutionInts := bufferToBigIntsValue solutionBytes equations in
  if existsb (fun value => (value <? 0) || (2 ^ 64 <? value)) solutionInts then Ok false else
  Ok true.

Definition verifyPolynomialSolution (proof : JsValue) : Outcome bool :=
  tryCatch (verifyPolynomialSolutionBody proof) false.

Definition verifyZeroKnowledge (proof : JsValue) : Outcome bool :=
  tryCatch (digestsDiffer proof) false.

Definition verifyProofBody (proof : JsValue) : Outcome bool :=
  let* valid := validateProofStructure proof in
  if negb valid then Ok false else
  let* response := getProp proof "response" in
  let* challenge := getProp proof "challenge" in
  let* commitment := getProp proof "commitment" in
  let* responseMarked := mentionsCorrupted response in
  let* challengeMarked := mentionsCorrupted challenge in
  let* commitmentMarked := mentionsCorrupted commitment in
  if responseMarked || challengeMarked || commitmentMarked then Ok false else
  let* isValidCommitment := verifyMultivariateCommitment proof in
  if negb isValidCommitment then Ok false else
  let* isValidSolution := verifyPolynomialSolution proof in
  if negb isValidSolution then Ok false else
  let* isZeroKnowledge := verifyZeroKnowledge proof in
  if negb isZeroKnowledge then Ok false else
  Ok true.

Definition verifyProof (proof : JsValue) : Outcome bool :=
  tryCatch (verifyProofBody proof) false.

End MultivariateZKP.

(** ** HybridZKP (algorithms/hybrid): verification *)

Module HybridZKP.

Definition validateProofStructure (proof : JsValue) : Outcome bool :=
  let* type := getProp proof "type" in
  let* commitment := getProp proof "commitment" in
  let* challenge := getProp proof "challenge" in
  let* response := getProp proof "response" in
  let* proofs := getProp proof "proofs" in
  let* combined := getProp proof "combined" in
  let* algorithmWeights := getProp proof "algorithmWeights" in
  Ok (isString type "hybrid"
      && instanceofBuffer commitment
      && instanceofBuffer challenge
      && instanceofBuffer response
      && instanceofArray proofs
      && Nat.ltb 0 (length (elements proofs))
      && instanceofBuffer combined
      && negb (isUndefined algorithmWeights)).

(** [switch (proof.type)]. *)
Definition verifyComponentProof (proof : JsValue) : Outcome bool :=
  let* type := getProp proof "type" in
  if isString type "lattice" then LatticeZKP.verifyProof proof
  else if isString type "hash" then HashZKP.verifyProof proof
  else if isString type "multivariate" then MultivariateZKP.verifyProof proof
  else Ok false.

(** [for (const componentProof of proof.proofs)], leaving at the first
    component that does not verify. *)
Fixpoint verifyComponents (proofs : list JsValue) : Outcome bool :=
  match proofs with
  | [] => Ok true
  | componentProof :: rest =>
      let* isValidComponent := verifyComponentProof componentProof in
      if negb isValidComponent then Ok false else verifyComponents rest
  end.

Definition verifyHybridCommitmentBody (proof : JsValue) : Outcome bool :=
  let* commitment := getProp proof "commitment" in
  if negb (truthy commitment) || negb (hasLength commitment 32) then Ok false else
  Ok true.

Definition verifyHybridCommitment (proof : JsValue) : Outcome bool :=
  tryCatch (verifyHybridCommitmentBody proof) false.

Definition verifyZeroKnowledge (proof : JsValue) : Outcome bool :=
  tryCatch (digestsDiffer proof) false.

Definition verifyCombinedProofBody (proof : JsValue) : Outcome bool :=
  let* combined := getProp proof "combined" in
  if negb (truthy combined) || hasLength combined 0 then Ok false else
  let* combinedMarked := mentionsCorrupted combined in
  if combinedMarked then Ok false else
  Ok true.

Definition verifyCombinedProof (proof : JsValue) : Outcome bool :=
  tryCatch (verifyCombinedProofBody proof) false.

Definition verifyProofBody (proof : JsValue) : Outcome bool :=
  let* valid := validateProofStructure proof in
  if negb valid then Ok false else
  let* response := getProp proof "response" in
  let* challenge := getProp proof "challenge" in
  let* commitment := getProp proof "commitment" in
  let* responseMarked := mentionsCorrupted response in
  let* challengeMarked := mentionsCorrupted challenge in
  let* commitmentMarked := mentionsCorrupted commitment in
  if responseMarked || challengeMarked || commitmentMarked then Ok false else
  let* proofs := getProp proof "proofs" in
  let* components := iterate proofs in
  let* componentsValid := verifyComponents components in
  if negb componentsValid then Ok false else
  let* isValidCommitment := verifyHybridCommitment proof in
  if negb isValidCommitment then Ok false else
  let* isZeroKnowledge := verifyZeroKnowledge proof in
  if negb isZeroKnowledge then Ok false else
  let* isValidCombined := verifyCombinedProof proof in
  if negb isValidCombined then Ok false else
  Ok true.

Definition verifyProof (proof : JsValue) : Outcome bool :=
  tryCatch (verifyProofBody proof) false.

End HybridZKP.

(** ** QuantumZKP (the facade): verification *)

Module QuantumZKP.

(** The text of [result.error]: the message built from the unknown type, or
    the message of a caught exception. *)
Inductive VerificationError : Type :=
| UnknownProofType (type : JsValue)
| CaughtError (e : JsError).

(** [VerificationResult] without its timing. *)
Record VerificationResult : Type := mkVerificationResult
  { isValid : bool;
    algorithm : JsValue;
    error : option VerificationError }.

(** [switch (proof.type)] inside the [try]. *)
Definition verifyByType (proof : JsValue) : Outcome (bool * option VerificationError) :=
  let* type := getProp proof "type" in
  if isString type "lattice" then
    let* isValid := LatticeZKP.verifyProof proof in Ok (isValid, None)
  else if isString type "hash" then
    let* isValid := HashZKP.verifyProof proof in Ok (isValid, None)
  else if isString type "multivariate" then
    let* isValid := MultivariateZKP.verifyProof proof in Ok (isValid, None)
  else if isString type "hybrid" then
    let* isValid := HybridZKP.verifyProof proof in Ok (isValid, None)
  else Ok (false, Some (UnknownProofType type)).

(** [verifyProof]: the result is assembled after the [try], where
    [proof.type] is read once more. *)
Definition verifyProof (proof : JsValue) : Outcome VerificationResult :=
  let verdict :=
    match verifyByType proof with
    | Ok v => v
    | Throw e => (false, Some (CaughtError e))
    end in
  let* type := getProp proof "type" in
  Ok (mkVerificationResult (fst verdict) type (snd verdict)).

(** [shareSecret]: one push for each party. *)
Definition shareSecret (secret : Secret) (parties : Z) : list Buffer :=
  let secretBuffer := secretBytes secret in
  map (fun _ => QuantumCrypto.hash secretBuffer) (seq 0 (Z.to_nat parties)).

Definition createReconstructionKey (shares : list Buffer) : Buffer :=
  QuantumCrypto.hash (concat shares).

End QuantumZKP.

(** * Vocabulary of the statements *)

(** The chain [c] with its element at index [j] replaced by [x]. *)
Definition replaceAt {A : Type} (j : nat) (x : A) (c : list A) : list A :=
  firstn j c ++ x :: skipn (S j) c.

(** The chain of the unit test of [verifyHashChain]: three links from
    ['test-seed']. *)
Definition sampleChain : list Buffer :=
  HashZKP.createHashChain (Buffer_from_utf8 "test-seed") 3.

(** The two inputs of the unit test of [combineHashes]. *)
Definition hash1 : Buffer := Buffer_from_utf8 "hash1".

Definition hash2 : Buffer := Buffer_from_utf8 "hash2".

(** The leaves of the unit test of the Merkle functions. *)
Definition threeLeaves : list Buffer :=
  map Buffer_from_utf8 ["leaf1"; "leaf2"; "leaf3"]%string.

(** One step of reading hexadecimal text, and one step of reading bytes:
    [BigInt_of_hex] and [beValue] are their left folds. *)
Definition hexStep (acc : Z) (c : ascii) : Z :=
  acc * 16 + match hexVal c with Some d => d | None => 0 end.

Definition byteStep (acc : Z) (x : byte) : Z := acc * 256 + byteToZ x.

(** [c] is one of [0-9a-fA-F]. *)
Definition validHex (c : ascii) : Prop := hexVal c <> None.

(** [b] without its leading zero bytes; [normalized b] when it has none. *)
Fixpoint stripLeadingZeros (b : Buffer) : Buffer :=
  match b with
  | x :: rest => if Byte.eqb x x00 then stripLeadingZeros rest else b
  | [] => []
  end.

Definition normalized (b : Buffer) : Prop :=
  match b with
  | x :: _ => x <> x00
  | [] => True
  end.

(** The buffer of the unit test of [bufferToBigInts], with two of its bytes
    zeroed. *)
Definition eightBytes : Buffer := [x01; x02; x03; x04; x00; x00; x07; x08].

(** The big-endian number held by the [bytes] bytes that the source hands out
    from position [cursor] on. *)
Definition randomValue (env : Environment) (bytes cursor : nat) : Z :=
  beValue (map (fun i => entropy env (cursor + i)%nat) (seq 0 bytes)).

(** Number of bytes [generateRandomBigInt] draws for a range. *)
Definition rangeBytes (range : Z) : nat :=
  QuantumCrypto.ceilDiv (length (BigInt_toString16 range)) 2.

(** A draw below a positive bound. *)
Definition drawBelow (env : Environment) (bound : Z) (cursor : nat) : Z :=
  Z.rem (randomValue env (rangeBytes bound) cursor) bound.

(** The error drawn at [cursor]: two draws below 1000 fed to the Box-Muller
    expression. *)
Definition errorAt (env : Environment) (sigma : Z) (cursor : nat) : Z :=
  gaussian env sigma (drawBelow env 1000 cursor) (drawBelow env 1000 (cursor + 2)%nat).

(** [sum_i a_i * s_i]. *)
Definition dotProduct (a s : list Z) : Z :=
  fold_left (fun acc p => acc + fst p * snd p) (combine a s) 0.

(** A random source whose only non-zero byte is the tenth, and whose
    Box-Muller expression evaluates to 34. *)
Definition countingEnvironment : Environment :=
  mkEnvironment (fun i => if Nat.eqb i 9 then x05 else x00) (fun _ _ _ => 34) 0.

(** The [n] bytes that [generateRandomBytes] hands out from [cursor] on. *)
Definition entropyBytes (env : Environment) (cursor n : nat) : Buffer :=
  map (fun i => entropy env (cursor + i)%nat) (seq 0 n).

(** [{ chainLength: c }] as the argument of [createProof]. *)
Definition withChainLength (c : Z) : option ProofParameters :=
  Some (mkProofParameters None None (Some c) None None).

(** The values computed by a run of [HashZKP.createProof] that starts with
    the random source at [cursor]. *)
Section HashRun.

Variables (env : Environment) (secret : Secret) (chainLength : Z) (cursor : nat).

Definition runWitness : Buffer := entropyBytes env cursor 32.
Definition runSeed : Buffer := entropyBytes env (cursor + 32) 16.
Definition runChain : list Buffer :=
  HashZKP.createHashChain (secretBytes secret ++ runSeed) chainLength.
Definition runCommitment : Buffer := nth 0 runChain [].
Definition runChallenge : Buffer := HashZKP.generateChallenge runCommitment runWitness.
Definition runResponse : Buffer :=
  HashZKP.createResponse (secretBytes secret) runWitness runChallenge.

(** The object literal that [createProof] returns. *)
Definition runProof (tree : list (list Buffer)) (root : Buffer) : JsValue :=
  JObject
    [ ("type", JString "hash");
      ("commitment", JBuffer runCommitment);
      ("challenge", JBuffer runChallenge);
      ("response", JBuffer runResponse);
      ("parameters", JObject [("chainLength", JNumber chainLength)]);
      ("quantumSafe", JBool true);
      ("timestamp", JNumber (now env));
      ("version", JString HashZKP.VERSION);
      ("chainLength", JNumber chainLength);
      ("hashChain", jsBuffers runChain);
      ("commitmentChain", JBuffer root);
      ("merkleTree", JArray (map jsBuffers tree));
      ("merkleProof", jsBuffers (QuantumCrypto.generateMerkleProof tree 0)) ]%string.

End HashRun.

(** A random source with bytes [7 i + 3 mod 256] and error [-9], and the
    secret of the test suites. *)
Definition sampleEnvironment : Environment :=
  mkEnvironment (fun i => byteOfZ (Z.of_nat i * 7 + 3)) (fun _ _ _ => -9) 1754352000000.

Definition sampleSecret : Secret := SecretText "test-secret-data".

(** The three fields that the corruption tests replace. *)
Definition coreField (field : string) : Prop :=
  field = "commitment"%string \/ field = "challenge"%string \/ field = "response"%string.

(** Thirty-two bytes ['A'], unrelated to any commitment. *)
Definition unrelatedChallenge : Buffer := repeat x41 32.

(** The values computed by a run of [LatticeZKP.createProof] once the
    modulus is known, the random source being at [cursor]. *)
Section LatticeRun.

Variables (env : Environment) (dimension modulus : Z) (secret : Secret) (cursor : nat).

(** The vector [a] of [generateLWESample]; its scalar [b] is dropped. *)
Definition latticeA : list Z :=
  map (fun i => drawBelow env modulus (cursor + i * rangeBytes modulus)%nat)
      (seq 0 (Z.to_nat dimension)).

(** Position of the random source when the witness is drawn. *)
Definition witnessCursor : nat :=
  (cursor + Z.to_nat dimension * rangeBytes modulus + 4 + rangeBytes modulus)%nat.

Definition latticeWitness : Buffer := entropyBytes env witnessCursor 32.

(** Position of the random source when [createLWECommitment] samples its
    error. *)
Definition errorCursor : nat := (witnessCursor + 32)%nat.

Definition latticeCommitment : Buffer :=
  QuantumCrypto.bigIntsToBuffer
    [Z.rem (LatticeZKP.innerProduct latticeA
              (QuantumCrypto.bufferToBigInts (secretBytes secret) (length latticeA)) modulus
            + errorAt env LatticeZKP.DEFAULT_ERROR_BOUND errorCursor) modulus].

Definition latticeChallenge : Buffer :=
  LatticeZKP.generateLWEChallenge latticeCommitment latticeWitness latticeA.

Definition latticeResponse : Buffer :=
  LatticeZKP.createLWEResponse (secretBytes secret) latticeWitness latticeChallenge
    latticeA modulus.

Definition latticePolynomialCommitment : Buffer :=
  LatticeZKP.polynomialHash
    (map (fun i => drawBelow env (2 ^ 64) (errorCursor + 4 + i * 9)%nat)
         (seq 0 (Z.to_nat dimension))).

(** The object literal that [createProof] returns. *)
Definition latticeProof : JsValue :=
  JObject
    [ ("type", JString "lattice");
      ("commitment", JBuffer latticeCommitment);
      ("response", JBuffer latticeResponse);
      ("challenge", JBuffer latticeChallenge);
      ("parameters", JObject [("dimension", JNumber dimension); ("modulus", JBigInt modulus)]);
      ("quantumSafe", JBool true);
      ("timestamp", JNumber (now env));
      ("version", JString LatticeZKP.VERSION);
      ("dimension", JNumber dimension);
      ("modulus", JBigInt modulus);
      ("polynomialCommitment", JBuffer latticePolynomialCommitment) ]%string.

End LatticeRun.

(** The error that [createLWECommitment] sampled in a run of [createProof]
    that left the random source at [cursor']: the coefficients of the
    polynomial commitment, nine bytes each, are drawn after it. *)
Definition commitmentError (env : Environment) (parameters : option ProofParameters)
    (cursor' : nat) : Z :=
  let n := Z.to_nat (orDefault (optionalField parameters dimension)
                               LatticeZKP.DEFAULT_DIMENSION) in
  errorAt env LatticeZKP.DEFAULT_ERROR_BOUND (cursor' - 9 * n - 4)%nat.

(** Random sources whose sampled error is [-1], respectively [3]. *)
Definition negativeErrorEnvironment : Environment :=
  mkEnvironment (fun _ => x01) (fun _ _ _ => -1) 1754352000000.

Definition positiveErrorEnvironment : Environment :=
  mkEnvironment (fun i => byteOfZ (Z.of_nat i * 7 + 3)) (fun _ _ _ => 3) 1754352000000.

(** [{ modulus: 1000003n }] and [{ dimension: 128, modulus: 1000003n }]. *)
Definition smallModulus : option ProofParameters :=
  Some (mkProofParameters None (Some 1000003) None None None).

Definition smallLattice : option ProofParameters :=
  Some (mkProofParameters (Some 128) (Some 1000003) None None None).

(** A lattice proof whose [dimension] is a bigint: dividing the response
    length by it throws inside [verifyLWEEquation], whose own handler turns
    the fault into [false]. *)
Definition bigintDimensionProof : JsValue :=
  JObject
    [ ("type", JString "lattice");
      ("commitment", JBuffer [x01]);
      ("challenge", JBuffer (repeat x01 32));
      ("response", JBuffer (repeat x01 16));
      ("polynomialCommitment", JBuffer (repeat x01 32));
      ("dimension", JBigInt 2);
      ("modulus", JBigInt 1000) ]%string.

(** A value that has little of a hash proof: the chain length is [true], the
    Merkle tree [null], the Merkle proof an empty string, and
    [parameters], [quantumSafe], [timestamp] and [version] are missing.  The
    chain is a 32-byte value and its digest, the commitment and the Merkle
    root are that value again. *)
Definition looseHashProof : JsValue :=
  let first := repeat x01 32 in
  JObject
    [ ("type", JString "hash");
      ("commitment", JBuffer first);
      ("challenge", JBuffer (repeat x00 32));
      ("response", JBuffer (repeat x00 64));
      ("hashChain", JArray [JBuffer first; JBuffer (QuantumCrypto.hash first)]);
      ("chainLength", JBool true);
      ("merkleTree", JNull);
      ("merkleProof", JString "");
      ("commitmentChain", JBuffer first) ]%string.

(** [millerRabinPrimalityTest(n, 40)] on the sample random source. *)
Definition primalityVerdict (n : Z) : Run (bool * nat) :=
  QuantumCrypto.millerRabinPrimalityTest sampleEnvironment n 40 0%nat.

Definition verdictIs (n : Z) (expected : bool) : bool :=
  match primalityVerdict n with
  | Returned (b, _) => Bool.eqb b expected
  | _ => false
  end.

(** The product of a list of integers, and the residues [1 .. p - 1]. *)
Definition product (l : list Z) : Z := fold_right Z.mul 1 l.

Definition residues (p : Z) : list Z := map Z.of_nat (seq 1 (Z.to_nat (p - 1))).

(** A random source whose first draw puts the prime search of
    [generateLargePrime(64)] on its largest candidate, [2 ^ 64 - 1], and whose
    next draw is the base 2. *)
Definition wrappingEnvironment : Environment :=
  mkEnvironment
    (fun i => nth i [x7f; xff; xff; xff; xff; xff; xff; xfe] x00)
    (fun _ _ _ => 0) 0.


(** [sum_{i < n} f i], and the coefficient [k] of the cyclic product of two
    coefficient lists: the sum of the [a_i * b_j] with [i + j = k] modulo
    the length. *)
Definition sumTo (n : nat) (f : nat -> Z) : Z :=
  fold_left (fun acc i => acc + f i) (seq 0 n) 0.

Definition cyclicCoefficient (a b : list Z) (k : nat) : Z :=
  let n := length a in
  sumTo n (fun i => nth i a 0 * nth (Nat.modulo (k + n - i) n) b 0).

(** A proof made by the hash engine, a hybrid proof built around it by hand
    and a multivariate proof built by hand. *)
Definition sampleHashProof : JsValue :=
  match HashZKP.createProof sampleEnvironment sampleSecret (withChainLength 100) 0%nat with
  | Returned (proof, _) => proof
  | _ => JNull
  end.

Definition sampleHybridProof : JsValue :=
  JObject
    [ ("type", JString "hybrid");
      ("commitment", JBuffer (repeat x01 32));
      ("challenge", JBuffer (repeat x02 32));
      ("response", JBuffer (repeat x03 32));
      ("proofs", JArray [sampleHashProof]);
      ("combined", JBuffer [x01]);
      ("algorithmWeights", JObject []) ]%string.

Definition sampleMultivariateProof : JsValue :=
  JObject
    [ ("type", JString "multivariate");
      ("commitment", JBuffer (repeat x01 32));
      ("challenge", JBuffer (repeat x02 32));
      ("response", JBuffer (repeat x03 32));
      ("polynomialSystem", JBuffer [x01]);
      ("solution", JBuffer [x01; x02]);
      ("variables", JNumber 8);
      ("equations", JNumber 12) ]%string.

(** The array of [polynomialMultiply] after the passes [j < t] of the inner
    loop for row [i], started on [r]; and the array after the rows [i < s] of
    the outer loop. *)
Definition partialRow (a b : list Z) (modulus : Z) (i : nat) (r : list Z) (t : nat) : list Z :=
  let n := length a in
  map (fun k =>
         if Nat.ltb (Nat.modulo (k + n - i) n) t
         then Z.rem (nth k r 0 + nth i a 0 * nth (Nat.modulo (k + n - i) n) b 0) modulus
         else nth k r 0)
      (seq 0 n).

Definition afterRows (a b : list Z) (modulus : Z) (s : nat) : list Z :=
  let n := length a in
  map (fun k => sumTo s (fun i => nth i a 0 * nth (Nat.modulo (k + n - i) n) b 0) mod modulus)
      (seq 0 n).

(** * Properties *)

(** ** Test vectors for the digests (FIPS 180-4 and RFC 4231) *)

Example sha256_empty :
  hexString (SHA256.digest []) =
  "e3b0c44298fc1c149afbf4c8996fb92427ae41e4649b934ca495991b7852b855"%string.
Proof. vm_compute. reflexivity. Qed.

Example sha256_abc :
  hexString (SHA256.digest (Buffer_from_utf8 "abc")) =
  "ba7816bf8f01cfea414140de5dae2223b00361a396177a9cb410ff61f20015ad"%string.
Proof. vm_compute. reflexivity. Qed.

Example sha256_two_blocks :
  hexString (SHA256.digest
    (Buffer_from_utf8 "abcdbcdecdefdefgefghfghighijhijkijkljklmklmnlmnomnopnopq")) =
  "248d6a61d20638b8e5c026930c3e6039a33ce45964ff2167f6ecedd419db06c1"%string.
Proof. vm_compute. reflexivity. Qed.

Example hmac_rfc4231_case1 :
  hexString (HMAC.digest (repeat x0b 20) (Buffer_from_utf8 "Hi There")) =
  "b0344c61d8db38535ca8afceaf0bf12b881dc200c9833da726e9376c2e32cff7"%string.
Proof. vm_compute. reflexivity. Qed.

Example hmac_rfc4231_case2 :
  hexString (HMAC.digest (Buffer_from_utf8 "Jefe")
                         (Buffer_from_utf8 "what do ya want for nothing?")) =
  "5bdcc146bf60754e6a042426089575c75a003f089d2739839dec58b964ec3843"%string.
Proof. vm_compute. reflexivity. Qed.

Lemma digest_length (msg : Buffer) : length (SHA256.digest msg) = 32%nat.
Proof. reflexivity. Qed.

Lemma hash_length (data : Buffer) : length (QuantumCrypto.hash data) = 32%nat.
Proof. apply digest_length. Qed.

#[global] Opaque SHA256.digest.

(** ** Bytes and buffers *)

Lemma byteToZ_range (b : byte) : 0 <= byteToZ b < 256.
Proof.
  unfold byteToZ. pose proof (Byte.to_N_bounded b) as H.
  apply N.leb_le in H. apply N.leb_le in H. lia.
Qed.

Lemma byteToZ_byteOfZ (z : Z) : byteToZ (byteOfZ z) = z mod 256.
Proof.
  unfold byteToZ, byteOfZ.
  assert (Hr : 0 <= z mod 256 < 256) by (apply Z.mod_pos_bound; lia).
  destruct (Byte.of_N (Z.to_N (z mod 256))) as [b|] eqn:E.
  - apply Byte.to_of_N in E. rewrite E. lia.
  - apply Byte.of_N_None_iff in E. lia.
Qed.

Lemma byteOfZ_byteToZ (b : byte) : byteOfZ (byteToZ b) = b.
Proof.
  unfold byteOfZ, byteToZ.
  pose proof (byteToZ_range b) as Hr. unfold byteToZ in Hr.
  rewrite Z.mod_small by lia. rewrite N2Z.id, Byte.of_to_N. reflexivity.
Qed.

Lemma byteToZ_inj (a b : byte) : byteToZ a = byteToZ b -> a = b.
Proof.
  intros H. rewrite <- (byteOfZ_byteToZ a), <- (byteOfZ_byteToZ b), H. reflexivity.
Qed.

Lemma Buffer_equals_refl (a : Buffer) : Buffer_equals a a = true.
Proof.
  induction a as [|x a IH]; simpl; [reflexivity|].
  rewrite (Byte.byte_dec_lb (eq_refl x)). exact IH.
Qed.

Lemma Buffer_equals_eq (a b : Buffer) : Buffer_equals a b = true <-> a = b.
Proof.
  split.
  - revert b. induction a as [|x a IH]; intros [|y b] H; simpl in H;
      try discriminate; [reflexivity|].
    apply andb_true_iff in H. destruct H as [Hxy Hab].
    apply Byte.byte_dec_bl in Hxy. f_equal; [exact Hxy | apply IH, Hab].
  - intros ->. apply Buffer_equals_refl.
Qed.

Lemma Buffer_equals_neq (a b : Buffer) : a <> b -> Buffer_equals a b = false.
Proof.
  intros H. destruct (Buffer_equals a b) eqn:E; [|reflexivity].
  apply Buffer_equals_eq in E. contradiction.
Qed.

(** ** Hash chains *)

Lemma replaceAt_length {A : Type} (j : nat) (x : A) (c : list A) :
  (j < length c)%nat -> length (replaceAt j x c) = length c.
Proof.
  intros H. unfold replaceAt.
  rewrite length_app, length_firstn.
  change (length (x :: skipn (S j) c)) with (S (length (skipn (S j) c))).
  rewrite length_skipn. lia.
Qed.

Lemma replaceAt_nth_same {A : Type} (j : nat) (x d : A) (c : list A) :
  (j < length c)%nat -> nth j (replaceAt j x c) d = x.
Proof.
  intros H. unfold replaceAt.
  rewrite app_nth2; rewrite length_firstn; [|lia].
  replace (j - Nat.min j (length c))%nat with 0%nat by lia. reflexivity.
Qed.

Lemma replaceAt_nth_other {A : Type} (j i : nat) (x d : A) (c : list A) :
  (j < length c)%nat -> i <> j -> nth i (replaceAt j x c) d = nth i c d.
Proof.
  intros H Hij. unfold replaceAt.
  destruct (Nat.lt_ge_cases i j) as [Hlt|Hge].
  - rewrite app_nth1 by (rewrite length_firstn; lia).
    rewrite <- (firstn_skipn j c) at 2.
    rewrite app_nth1 by (rewrite length_firstn; lia). reflexivity.
  - rewrite app_nth2 by (rewrite length_firstn; lia).
    rewrite length_firstn. replace (Nat.min j (length c)) with j by lia.
    destruct (i - j)%nat as [|k] eqn:E; [lia|]. cbn [nth].
    rewrite nth_skipn. f_equal. lia.
Qed.

Lemma verifyHashChainLoop_spec (rest : list Buffer) :
  forall previous,
    HashZKP.verifyHashChainLoop previous rest = true <->
    (forall i, (i < length rest)%nat ->
       nth i rest [] = QuantumCrypto.hash (nth i (previous :: rest) [])).
Proof.
  induction rest as [|x rest IH]; intros previous; simpl.
  - split; [intros _ i Hi; lia | reflexivity].
  - destruct (Buffer_equals (QuantumCrypto.hash previous) x) eqn:E; simpl.
    + apply Buffer_equals_eq in E. rewrite IH. split.
      * intros H [|i] Hi; [symmetry; exact E | apply H; lia].
      * intros H i Hi. apply (H (S i)). lia.
    + split; [discriminate|]. intros H.
      specialize (H 0%nat ltac:(lia)). simpl in H.
      rewrite H, Buffer_equals_refl in E. discriminate.
Qed.

(** The chain test on a well-typed array is the chain test on its Buffers. *)
Lemma verifyHashChainLoopValue_typed (rest : list Buffer) :
  forall previous,
    HashZKP.verifyHashChainLoopValue (JBuffer previous) (map JBuffer rest) =
    Ok (HashZKP.verifyHashChainLoop previous rest).
Proof.
  induction rest as [|x rest IH]; intros previous; simpl; [reflexivity|].
  destruct (Buffer_equals (QuantumCrypto.hash previous) x); simpl; [apply IH | reflexivity].
Qed.

Lemma verifyHashChainValue_typed (c : list Buffer) :
  HashZKP.verifyHashChainValue (map JBuffer c) = Ok (HashZKP.verifyHashChain c).
Proof.
  unfold HashZKP.verifyHashChainValue, HashZKP.verifyHashChain.
  rewrite length_map. destruct (Nat.ltb (length c) 2); [reflexivity|].
  destruct c as [|first rest]; [reflexivity|]. apply verifyHashChainLoopValue_typed.
Qed.

(** C4: [verifyHashChain] accepts exactly the chains of at least two elements
    in which every element after the first is the SHA-256 digest of its
    predecessor; replacing one element after the first of an accepted chain
    by a different value gives a chain that is rejected. *)
Theorem verifyHashChain_accepts_iff_chained :
  (forall c : list Buffer,
     HashZKP.verifyHashChain c = true <->
     (2 <= length c)%nat /\
     (forall i, (1 <= i < length c)%nat ->
        nth i c [] = QuantumCrypto.hash (nth (i - 1) c []))) /\
  (forall (c : list Buffer) (j : nat) (x : Buffer),
     HashZKP.verifyHashChain c = true ->
     (1 <= j < length c)%nat ->
     x <> nth j c [] ->
     HashZKP.verifyHashChain (replaceAt j x c) = false).
Proof.
  assert (Hiff : forall c : list Buffer,
     HashZKP.verifyHashChain c = true <->
     (2 <= length c)%nat /\
     (forall i, (1 <= i < length c)%nat ->
        nth i c [] = QuantumCrypto.hash (nth (i - 1) c []))).
  { intros c. unfold HashZKP.verifyHashChain.
    destruct (Nat.ltb (length c) 2) eqn:E.
    - apply Nat.ltb_lt in E. split; [discriminate | intros [H _]; lia].
    - apply Nat.ltb_ge in E. destruct c as [|first rest]; [simpl in E; lia|].
      rewrite verifyHashChainLoop_spec. split.
      + intros H. split; [exact E|]. intros i Hi.
        destruct i as [|i]; [lia|]. simpl in Hi.
        replace (S i - 1)%nat with i by lia.
        change (nth (S i) (first :: rest) []) with (nth i rest []).
        apply H. lia.
      + intros [_ H] i Hi. specialize (H (S i)). simpl in H.
        rewrite Nat.sub_0_r in H. apply H. lia. }
  split; [exact Hiff|].
  intros c j x Hc Hj Hx.
  destruct (HashZKP.verifyHashChain (replaceAt j x c)) eqn:E; [|reflexivity].
  exfalso. apply Hiff in Hc. apply Hiff in E.
  destruct Hc as [_ Hc]. destruct E as [_ E].
  rewrite replaceAt_length in E by lia.
  specialize (E j Hj). specialize (Hc j Hj).
  rewrite replaceAt_nth_same in E by lia.
  rewrite replaceAt_nth_other in E by lia.
  apply Hx. congruence.
Qed.

Lemma verifyHashChain_accepts_iff_chained_witness :
  HashZKP.verifyHashChain (replaceAt 1 (Buffer_from_utf8 "corrupted") sampleChain) = false.
Proof.
  apply (proj2 verifyHashChain_accepts_iff_chained sampleChain 1%nat
               (Buffer_from_utf8 "corrupted")).
  - vm_compute. reflexivity.
  - vm_compute. split; repeat constructor.
  - intros H. apply (f_equal (@length byte)) in H. vm_compute in H. discriminate.
Defined.

(** ** Hash combination *)

(** C8 as stated fails: two orders of the same two hashes give two digests. *)
Lemma combineHashes_depends_on_order :
  Permutation [hash1; hash2] [hash2; hash1] /\
  QuantumCrypto.combineHashes [hash1; hash2] <> QuantumCrypto.combineHashes [hash2; hash1].
Proof.
  split; [apply perm_swap|].
  vm_compute. intros H. discriminate H.
Qed.

(** C8, amended: [combineHashes] is the left fold [acc := sha256(acc ++ h)]
    over the list from its first element (a single hash is returned as it
    is), and it throws exactly on the empty list. *)
Theorem combineHashes_left_fold (hashes : list Buffer) :
  (QuantumCrypto.combineHashes hashes = Throw (Error "Cannot combine empty hash array")
   <-> hashes = []) /\
  ((exists e, QuantumCrypto.combineHashes hashes = Throw e) <-> hashes = []) /\
  (forall first rest, hashes = first :: rest ->
     QuantumCrypto.combineHashes hashes =
     Ok (fold_left (fun acc h => QuantumCrypto.hash (acc ++ h)) rest first)).
Proof.
  destruct hashes as [|first [|second rest]]; simpl.
  - repeat split; try reflexivity; try (intros; discriminate).
    intros _. eexists. reflexivity.
  - repeat split; try discriminate.
    + intros [e H]. discriminate.
    + intros f r H. injection H as <- <-. reflexivity.
  - repeat split; try discriminate.
    + intros [e H]. discriminate.
    + intros f r H. injection H as <- <-. reflexivity.
Qed.

Lemma combineHashes_left_fold_witness :
  QuantumCrypto.combineHashes [hash1; hash2] =
  Ok (fold_left (fun acc h => QuantumCrypto.hash (acc ++ h)) [hash2] hash1).
Proof.
  apply (proj2 (proj2 (combineHashes_left_fold [hash1; hash2])) hash1 [hash2]).
  reflexivity.
Defined.

(** ** Merkle trees *)

(** C5 at three leaves: the proof generated for the last leaf is not accepted
    for that leaf, while the proofs for the first two are. *)
Theorem merkle_proof_of_unpaired_leaf_rejected :
  exists tree root,
    QuantumCrypto.generateMerkleTree threeLeaves = Ok (tree, root) /\
    QuantumCrypto.verifyMerkleProof (nth 2 threeLeaves [])
      (QuantumCrypto.generateMerkleProof tree 2) root 2 = false /\
    QuantumCrypto.verifyMerkleProof (nth 0 threeLeaves [])
      (QuantumCrypto.generateMerkleProof tree 0) root 0 = true /\
    QuantumCrypto.verifyMerkleProof (nth 1 threeLeaves [])
      (QuantumCrypto.generateMerkleProof tree 1) root 1 = true.
Proof.
  eexists. eexists. split; [vm_compute; reflexivity|].
  repeat split; vm_compute; reflexivity.
Qed.

(** ** Hexadecimal text and big-endian values *)

Lemma hexVal_hexDigit (d : Z) : 0 <= d < 16 -> hexVal (hexDigit d) = Some d.
Proof.
  intros H. rewrite <- (Z2Nat.id d) by lia.
  assert (Hn : (Z.to_nat d < 16)%nat) by lia.
  generalize dependent (Z.to_nat d). clear H. intros n Hn.
  do 16 (destruct n as [|n]; [reflexivity|]). lia.
Qed.

Lemma hexVal_range (c : ascii) (d : Z) : hexVal c = Some d -> 0 <= d < 16.
Proof.
  unfold hexVal. intros H.
  repeat match type of H with
         | (if ?b then _ else _) = _ => destruct b eqn:?
         end; inversion H; subst; lia.
Qed.

Lemma fold_hex_of_bytes (b : Buffer) :
  forall acc, fold_left hexStep (Buffer_toString_hex b) acc = fold_left byteStep b acc.
Proof.
  induction b as [|x b IH]; intros acc; [reflexivity|].
  unfold Buffer_toString_hex in *. simpl. rewrite IH. f_equal.
  pose proof (byteToZ_range x) as Hx.
  unfold hexStep, byteStep.
  rewrite !hexVal_hexDigit.
  - pose proof (Z.div_mod (byteToZ x) 16 ltac:(lia)). lia.
  - apply Z.mod_pos_bound. lia.
  - split; [apply Z.div_pos; lia | apply Z.div_lt_upper_bound; lia].
Qed.

Lemma BigInt_of_hex_toString_hex (b : Buffer) :
  BigInt_of_hex (Buffer_toString_hex b) = beValue b.
Proof. apply fold_hex_of_bytes. Qed.

Lemma Buffer_toString_hex_length (b : Buffer) :
  length (Buffer_toString_hex b) = (length b * 2)%nat.
Proof.
  induction b as [|x b IH]; [reflexivity|].
  unfold Buffer_toString_hex in *. simpl. rewrite IH. reflexivity.
Qed.

Lemma padStart_enough (target : nat) (s : list ascii) :
  (target <= length s)%nat -> padStart target s = s.
Proof.
  intros H. unfold padStart. replace (target - length s)%nat with 0%nat by lia. reflexivity.
Qed.

Lemma fold_byteStep_nonneg (b : Buffer) : forall acc, 0 <= acc -> 0 <= fold_left byteStep b acc.
Proof.
  induction b as [|x b IH]; intros acc H; simpl; [exact H|].
  apply IH. unfold byteStep. pose proof (byteToZ_range x). lia.
Qed.

Lemma beValue_nonneg (b : Buffer) : 0 <= beValue b.
Proof. apply fold_byteStep_nonneg. lia. Qed.

Lemma beValue_snoc (b : Buffer) (x : byte) : beValue (b ++ [x]) = beValue b * 256 + byteToZ x.
Proof. unfold beValue. rewrite fold_left_app. reflexivity. Qed.

Lemma fold_byteStep_acc (b : Buffer) :
  forall acc, fold_left byteStep b acc = acc * 256 ^ Z.of_nat (length b) + fold_left byteStep b 0.
Proof.
  induction b as [|x b IH]; intros acc.
  - simpl. lia.
  - cbn [fold_left length]. rewrite IH, (IH (byteStep 0 x)). unfold byteStep.
    rewrite Nat2Z.inj_succ, Z.pow_succ_r by lia. lia.
Qed.

Lemma beValue_cons (x : byte) (b : Buffer) :
  beValue (x :: b) = byteToZ x * 256 ^ Z.of_nat (length b) + beValue b.
Proof.
  unfold beValue. cbn [fold_left]. rewrite fold_byteStep_acc.
  change (fold_left (fun acc x0 => acc * 256 + byteToZ x0) b 0) with (fold_left byteStep b 0).
  change (fold_left (fun acc x0 => acc * 256 + byteToZ x0) b (0 * 256 + byteToZ x))
    with (fold_left byteStep b (0 * 256 + byteToZ x)).
  rewrite fold_byteStep_acc. lia.
Qed.

(** The loop body of [bufferToBigInts] reads its slice as a big-endian number. *)
Lemma sliceToBigInt_beValue (buffer : Buffer) (bytesPerInt i : nat) :
  QuantumCrypto.sliceToBigInt buffer bytesPerInt i =
  beValue (Buffer_slice buffer (i * bytesPerInt)
             (Nat.min (i * bytesPerInt + bytesPerInt) (length buffer))).
Proof.
  unfold QuantumCrypto.sliceToBigInt.
  set (slice := Buffer_slice _ _ _).
  destruct (Nat.eqb (length slice) 0) eqn:E.
  - apply Nat.eqb_eq in E. destruct slice; [reflexivity | discriminate].
  - rewrite padStart_enough by (rewrite Buffer_toString_hex_length; lia).
    apply BigInt_of_hex_toString_hex.
Qed.

Lemma nth_map_seq {A : Type} (f : nat -> A) (n i : nat) (d : A) :
  (i < n)%nat -> nth i (map f (seq 0 n)) d = f i.
Proof.
  intros H. rewrite (nth_indep _ d (f 0%nat)) by (rewrite length_map, length_seq; exact H).
  rewrite map_nth, seq_nth by exact H. reflexivity.
Qed.

Lemma ceilDiv_bounds (a b : nat) :
  (0 < b)%nat ->
  (a <= QuantumCrypto.ceilDiv a b * b)%nat /\ (QuantumCrypto.ceilDiv a b * b < a + b)%nat.
Proof.
  intros Hb. unfold QuantumCrypto.ceilDiv.
  pose proof (Nat.div_mod_eq (a + b - 1) b) as H.
  pose proof (Nat.mod_upper_bound (a + b - 1) b ltac:(lia)) as Hm.
  nia.
Qed.

Lemma bufferToBigInts_length (b : Buffer) (n : nat) :
  length (QuantumCrypto.bufferToBigInts b n) = n.
Proof.
  unfold QuantumCrypto.bufferToBigInts, QuantumCrypto.bufferToBigIntsLoop.
  rewrite length_map, length_seq. reflexivity.
Qed.

Lemma bufferToBigInts_nth (b : Buffer) (n i : nat) :
  (i < n)%nat ->
  nth i (QuantumCrypto.bufferToBigInts b n) 0 =
  beValue (Buffer_slice b (i * QuantumCrypto.ceilDiv (length b) n)
             (Nat.min (i * QuantumCrypto.ceilDiv (length b) n
                       + QuantumCrypto.ceilDiv (length b) n) (length b))).
Proof.
  intros Hi. unfold QuantumCrypto.bufferToBigInts, QuantumCrypto.bufferToBigIntsLoop.
  rewrite nth_map_seq by exact Hi. apply sliceToBigInt_beValue.
Qed.

(** C10: [bufferToBigInts(b, n)] for a positive count returns [n] integers;
    the slices are [bytesPerInt = ceil(length / n)] bytes wide, the [i]-th
    integer is the big-endian value of the [i]-th slice (cut at the end of the
    buffer), and it is 0 when the slice starts at or after the end. *)
Theorem bufferToBigInts_reads_slices (b : Buffer) (n : nat) :
  (0 < n)%nat ->
  let bytesPerInt := QuantumCrypto.ceilDiv (length b) n in
  (length b <= bytesPerInt * n < length b + n)%nat /\
  length (QuantumCrypto.bufferToBigInts b n) = n /\
  (forall i, (i < n)%nat ->
     nth i (QuantumCrypto.bufferToBigInts b n) 0 =
     beValue (Buffer_slice b (i * bytesPerInt)
                (Nat.min (i * bytesPerInt + bytesPerInt) (length b)))) /\
  (forall i, (i < n)%nat -> (length b <= i * bytesPerInt)%nat ->
     nth i (QuantumCrypto.bufferToBigInts b n) 0 = 0).
Proof.
  intros Hn bytesPerInt.
  split; [apply ceilDiv_bounds; exact Hn|].
  split; [apply bufferToBigInts_length|].
  split; [intros i Hi; apply bufferToBigInts_nth, Hi|].
  - intros i Hi Hpast. rewrite bufferToBigInts_nth by exact Hi. fold bytesPerInt.
    unfold Buffer_slice.
    replace (Nat.min (i * bytesPerInt + bytesPerInt) (length b) - i * bytesPerInt)%nat
      with 0%nat by lia.
    reflexivity.
Qed.

Lemma bufferToBigInts_reads_slices_witness :
  length (QuantumCrypto.bufferToBigInts [x01; x02; x03; x04; x05] 4) = 4%nat /\
  nth 3 (QuantumCrypto.bufferToBigInts [x01; x02; x03; x04; x05] 4) 0 = 0.
Proof.
  pose proof (bufferToBigInts_reads_slices [x01; x02; x03; x04; x05] 4 ltac:(lia)) as H.
  destruct H as [_ [Hlen [_ Hzero]]].
  split; [exact Hlen|].
  apply Hzero; vm_compute; lia.
Defined.

(** *** From big integers back to bytes *)

Lemma validHex_hexDigit (d : Z) : 0 <= d < 16 -> validHex (hexDigit d).
Proof. intros H. unfold validHex. rewrite hexVal_hexDigit by exact H. discriminate. Qed.

Lemma fold_hexStep_acc (s : list ascii) :
  forall acc, fold_left hexStep s acc = acc * 16 ^ Z.of_nat (length s) + fold_left hexStep s 0.
Proof.
  induction s as [|c s IH]; intros acc.
  - simpl. lia.
  - cbn [fold_left length]. rewrite IH, (IH (hexStep 0 c)). unfold hexStep.
    rewrite Nat2Z.inj_succ, Z.pow_succ_r by lia. lia.
Qed.

Lemma BigInt_of_hex_cons (c : ascii) (s : list ascii) :
  BigInt_of_hex (c :: s) =
  match hexVal c with Some d => d | None => 0 end * 16 ^ Z.of_nat (length s) + BigInt_of_hex s.
Proof.
  unfold BigInt_of_hex.
  change (fun acc c0 => acc * 16 + match hexVal c0 with Some d => d | None => 0 end)
    with hexStep.
  cbn [fold_left]. rewrite fold_hexStep_acc. unfold hexStep at 1.
  destruct (hexVal c); lia.
Qed.

Lemma hexDigits_value (fuel : nat) :
  forall n acc, 0 <= n < 16 ^ Z.of_nat fuel ->
    BigInt_of_hex (hexDigits fuel n acc) =
    n * 16 ^ Z.of_nat (length acc) + BigInt_of_hex acc.
Proof.
  induction fuel as [|fuel IH]; intros n acc Hn.
  - change (16 ^ Z.of_nat 0) with 1 in Hn. assert (n = 0) by lia. subst n.
    cbn [hexDigits]. lia.
  - cbn [hexDigits]. destruct (n <? 16) eqn:E.
    + apply Z.ltb_lt in E.
      rewrite BigInt_of_hex_cons, hexVal_hexDigit by lia. reflexivity.
    + apply Z.ltb_ge in E. rewrite IH.
      * rewrite BigInt_of_hex_cons, hexVal_hexDigit by (apply Z.mod_pos_bound; lia).
        cbn [length]. rewrite Nat2Z.inj_succ, Z.pow_succ_r by lia.
        pose proof (Z.div_mod n 16 ltac:(lia)). nia.
      * split; [apply Z.div_pos; lia|].
        apply Z.div_lt_upper_bound; [lia|].
        rewrite Nat2Z.inj_succ, Z.pow_succ_r in Hn by lia. lia.
Qed.

Lemma hexDigits_valid (fuel : nat) :
  forall n acc, 0 <= n -> Forall validHex acc -> Forall validHex (hexDigits fuel n acc).
Proof.
  induction fuel as [|fuel IH]; intros n acc Hn Hacc; cbn [hexDigits]; [exact Hacc|].
  destruct (n <? 16) eqn:E.
  - apply Z.ltb_lt in E. constructor; [apply validHex_hexDigit; lia | exact Hacc].
  - apply IH; [apply Z.div_pos; lia|].
    constructor; [apply validHex_hexDigit, Z.mod_pos_bound; lia | exact Hacc].
Qed.

Lemma hexDigits_length_pos (fuel : nat) :
  forall n acc, (0 < length (hexDigits (S fuel) n acc))%nat.
Proof.
  induction fuel as [|fuel IH]; intros n acc; cbn [hexDigits].
  - destruct (n <? 16); cbn [length]; lia.
  - destruct (n <? 16); [cbn [length]; lia | apply IH].
Qed.

Lemma log2_fuel (n : Z) : 0 <= n -> n < 16 ^ Z.of_nat (S (Z.to_nat (Z.log2 n))).
Proof.
  intros H. rewrite Nat2Z.inj_succ, Z2Nat.id by apply Z.log2_nonneg.
  destruct (Z.eq_dec n 0) as [->|Hn]; [reflexivity|].
  pose proof (Z.log2_spec n ltac:(lia)) as [_ Hlt].
  eapply Z.lt_le_trans; [exact Hlt|].
  pose proof (Z.log2_nonneg n) as Hl.
  rewrite <- !Z.add_1_r.
  change 16 with (2 ^ 4). rewrite <- Z.pow_mul_r by lia.
  apply Z.pow_le_mono_r; lia.
Qed.

Lemma BigInt_toString16_nonneg (n : Z) :
  0 <= n ->
  BigInt_of_hex (BigInt_toString16 n) = n /\
  Forall validHex (BigInt_toString16 n) /\
  (0 < length (BigInt_toString16 n))%nat.
Proof.
  intros H. unfold BigInt_toString16.
  destruct (n <? 0) eqn:E; [apply Z.ltb_lt in E; lia|].
  split; [|split].
  - rewrite hexDigits_value by (split; [exact H | apply log2_fuel; exact H]).
    change (BigInt_of_hex []) with 0. change (16 ^ Z.of_nat (length (@nil ascii))) with 1. lia.
  - apply hexDigits_valid; [exact H | constructor].
  - apply hexDigits_length_pos.
Qed.

(** Decoding an even number of hexadecimal digits. *)
Lemma Buffer_from_hex_value (k : nat) :
  forall s acc, length s = (2 * k)%nat -> Forall validHex s ->
    fold_left byteStep (Buffer_from_hex s) acc = fold_left hexStep s acc.
Proof.
  induction k as [|k IH]; intros s acc Hlen Hvalid.
  - destruct s; [reflexivity | discriminate].
  - destruct s as [|c1 [|c2 rest]]; try (simpl in Hlen; lia).
    inversion Hvalid as [|? ? H1 Hv1]; subst.
    inversion Hv1 as [|? ? H2 Hv2]; subst.
    unfold validHex in H1, H2. cbn [Buffer_from_hex].
    destruct (hexVal c1) as [h|] eqn:E1; [|contradiction].
    destruct (hexVal c2) as [l|] eqn:E2; [|contradiction].
    cbn [fold_left]. rewrite IH by (simpl in Hlen; try lia; assumption).
    f_equal. unfold byteStep, hexStep. rewrite E1, E2, byteToZ_byteOfZ.
    apply hexVal_range in E1. apply hexVal_range in E2.
    rewrite Z.mod_small by lia. lia.
Qed.

Lemma bigIntToBuffer_beValue (n : Z) :
  0 <= n -> beValue (QuantumCrypto.bigIntToBuffer n) = n.
Proof.
  intros H. destruct (BigInt_toString16_nonneg n H) as [Hval [Hvalid Hpos]].
  unfold QuantumCrypto.bigIntToBuffer.
  set (hex := BigInt_toString16 n) in *.
  pose proof (Nat.mod_upper_bound (length hex) 2 ltac:(lia)) as Hm.
  pose proof (Nat.div_mod_eq (length hex) 2) as Hd.
  unfold padStart, beValue.
  change (fun acc x => acc * 256 + byteToZ x) with byteStep.
  replace (length hex + Nat.modulo (length hex) 2 - length hex)%nat
    with (Nat.modulo (length hex) 2) by lia.
  remember (Nat.modulo (length hex) 2) as r eqn:Er.
  destruct r as [|[|r]]; [| |lia]; cbn [repeat app].
  - rewrite (Buffer_from_hex_value (length hex / 2)); [exact Hval | lia | exact Hvalid].
  - rewrite (Buffer_from_hex_value (length hex / 2 + 1)).
    + cbn [fold_left]. change (hexStep 0 "0"%char) with 0. exact Hval.
    + cbn [length]. lia.
    + constructor; [unfold validHex; discriminate | exact Hvalid].
Qed.

(** A negative bigint prints with a minus sign, which is not a hexadecimal
    digit: its encoding is the empty buffer. *)
Lemma bigIntToBuffer_negative (n : Z) : n < 0 -> QuantumCrypto.bigIntToBuffer n = [].
Proof.
  intros H. unfold QuantumCrypto.bigIntToBuffer, BigInt_toString16.
  destruct (n <? 0) eqn:E; [|apply Z.ltb_ge in E; lia].
  set (digits := hexDigits _ _ _).
  assert (Hpos : (0 < length digits)%nat) by apply hexDigits_length_pos.
  unfold padStart. cbn [length].
  replace (S (length digits) + Nat.modulo (S (length digits)) 2 - S (length digits))%nat
    with (Nat.modulo (S (length digits)) 2) by lia.
  pose proof (Nat.mod_upper_bound (S (length digits)) 2 ltac:(lia)) as Hm.
  destruct (Nat.modulo (S (length digits)) 2) as [|[|m]]; [| |lia].
  - destruct digits as [|d rest]; [simpl in Hpos; lia|]. reflexivity.
  - reflexivity.
Qed.

(** *** Leading zero bytes *)

Lemma stripLeadingZeros_normalized (b : Buffer) : normalized (stripLeadingZeros b).
Proof.
  induction b as [|x b IH]; simpl; [exact I|].
  destruct (Byte.eqb x x00) eqn:E; [exact IH|].
  simpl. apply Byte.eqb_false. exact E.
Qed.

Lemma stripLeadingZeros_beValue (b : Buffer) : beValue (stripLeadingZeros b) = beValue b.
Proof.
  induction b as [|x b IH]; simpl; [reflexivity|].
  destruct (Byte.eqb x x00) eqn:E; [|reflexivity].
  apply Byte.byte_dec_bl in E. subst x.
  rewrite IH, beValue_cons. change (byteToZ x00) with 0. lia.
Qed.

Lemma normalized_positive (x : byte) (b : Buffer) : normalized (x :: b) -> 0 < beValue (x :: b).
Proof.
  simpl. intros H. rewrite beValue_cons.
  pose proof (byteToZ_range x) as Hx. pose proof (beValue_nonneg b) as Hb.
  assert (byteToZ x <> 0).
  { intros E. apply H. apply byteToZ_inj. rewrite E. reflexivity. }
  assert (0 < 256 ^ Z.of_nat (length b)) by (apply Z.pow_pos_nonneg; lia).
  nia.
Qed.

Lemma normalized_prefix (b : Buffer) (x : byte) : normalized (b ++ [x]) -> normalized b.
Proof. destruct b; simpl; auto. Qed.

Lemma normalized_beValue_inj (a : Buffer) :
  forall b, normalized a -> normalized b -> beValue a = beValue b -> a = b.
Proof.
  induction a as [|x a IH] using rev_ind; intros b Ha Hb Heq.
  - destruct b as [|y b]; [reflexivity|].
    pose proof (normalized_positive y b Hb). change (beValue []) with 0 in Heq. lia.
  - destruct b as [|y b _] using rev_ind.
    + destruct a as [|z a].
      * pose proof (normalized_positive x [] Ha). change (beValue []) with 0 in Heq.
        simpl app in *. lia.
      * pose proof (normalized_positive z (a ++ [x]) Ha). change (beValue []) with 0 in Heq.
        simpl app in *. lia.
    + rewrite !beValue_snoc in Heq.
      pose proof (byteToZ_range x). pose proof (byteToZ_range y).
      assert (beValue a = beValue b /\ byteToZ x = byteToZ y) as [Hv Hxy] by lia.
      f_equal.
      * apply IH; [eapply normalized_prefix, Ha | eapply normalized_prefix, Hb | exact Hv].
      * f_equal. apply byteToZ_inj. exact Hxy.
Qed.

(** Two byte strings with the same big-endian value differ in leading zero
    bytes only. *)
Lemma same_value_same_digits (a b : Buffer) :
  beValue a = beValue b -> stripLeadingZeros a = stripLeadingZeros b.
Proof.
  intros H. apply normalized_beValue_inj; try apply stripLeadingZeros_normalized.
  rewrite !stripLeadingZeros_beValue. exact H.
Qed.

(** *** The slices cover the buffer *)

Lemma firstn_plus {A : Type} (a b : nat) (l : list A) :
  firstn (a + b) l = firstn a l ++ firstn b (skipn a l).
Proof.
  revert l. induction a as [|a IH]; intros l; [reflexivity|].
  destruct l as [|x l]; simpl.
  - rewrite firstn_nil. reflexivity.
  - rewrite IH. reflexivity.
Qed.

Lemma slices_concat (b : Buffer) (k n : nat) :
  concat (map (fun i => Buffer_slice b (i * k) (Nat.min (i * k + k) (length b))) (seq 0 n)) =
  firstn (n * k) b.
Proof.
  induction n as [|n IH]; [reflexivity|].
  rewrite seq_S, map_app, concat_app, IH. simpl.
  rewrite app_nil_r. replace (k + n * k)%nat with (n * k + k)%nat by lia.
  rewrite firstn_plus. f_equal. unfold Buffer_slice.
  destruct (Nat.le_ge_cases (n * k + k) (length b)) as [H|H].
  - f_equal. lia.
  - replace (Nat.min (n * k + k) (length b)) with (length b) by lia.
    rewrite !firstn_all2; try reflexivity; rewrite length_skipn; lia.
Qed.

(** C7: for a non-empty buffer [b] and [0 < n <= length b], the integers
    [bufferToBigInts(b, n)] are re-encoded by [bigIntsToBuffer] segment by
    segment; the slices make up [b], and the [i]-th segment denotes the same
    big-endian integer as the [i]-th slice and equals it up to leading zero
    bytes. *)
Theorem bigIntsToBuffer_bufferToBigInts_roundtrip (b : Buffer) (n : nat) :
  b <> [] -> (0 < n)%nat -> (n <= length b)%nat ->
  let bytesPerInt := QuantumCrypto.ceilDiv (length b) n in
  let slice := fun i => Buffer_slice b (i * bytesPerInt)
                          (Nat.min (i * bytesPerInt + bytesPerInt) (length b)) in
  let segment := fun i =>
    QuantumCrypto.bigIntToBuffer (nth i (QuantumCrypto.bufferToBigInts b n) 0) in
  concat (map slice (seq 0 n)) = b /\
  QuantumCrypto.bigIntsToBuffer (QuantumCrypto.bufferToBigInts b n) =
    concat (map segment (seq 0 n)) /\
  (forall i, (i < n)%nat ->
     beValue (segment i) = beValue (slice i) /\
     stripLeadingZeros (segment i) = stripLeadingZeros (slice i)).
Proof.
  intros Hb Hn Hle bytesPerInt slice segment.
  pose proof (ceilDiv_bounds (length b) n Hn) as Hbounds.
  pose proof (bufferToBigInts_length b n) as Hlen.
  assert (Hnth : forall i, (i < n)%nat ->
            nth i (QuantumCrypto.bufferToBigInts b n) 0 = beValue (slice i))
    by (intros i Hi; apply bufferToBigInts_nth, Hi).
  fold bytesPerInt in Hbounds.
  assert (Hvalue : forall i, (i < n)%nat -> beValue (segment i) = beValue (slice i)).
  { intros i Hi. unfold segment. rewrite Hnth by exact Hi.
    apply bigIntToBuffer_beValue, beValue_nonneg. }
  split; [|split].
  - unfold slice. rewrite slices_concat. apply firstn_all2. lia.
  - unfold QuantumCrypto.bigIntsToBuffer. f_equal.
    apply nth_ext with (d := []) (d' := []).
    + rewrite !length_map, length_seq. exact Hlen.
    + intros i Hi. rewrite length_map, Hlen in Hi.
      rewrite nth_map_seq by exact Hi. unfold segment.
      rewrite (nth_indep _ [] (QuantumCrypto.bigIntToBuffer 0))
        by (rewrite length_map, Hlen; exact Hi).
      apply map_nth.
  - intros i Hi. split; [apply Hvalue, Hi|].
    apply same_value_same_digits, Hvalue, Hi.
Qed.

Lemma bigIntsToBuffer_bufferToBigInts_roundtrip_witness :
  QuantumCrypto.bigIntsToBuffer (QuantumCrypto.bufferToBigInts eightBytes 3) =
  concat (map (fun i => QuantumCrypto.bigIntToBuffer
                          (nth i (QuantumCrypto.bufferToBigInts eightBytes 3) 0))
              (seq 0 3)).
Proof.
  apply (bigIntsToBuffer_bufferToBigInts_roundtrip eightBytes 3).
  - discriminate.
  - vm_compute. lia.
  - vm_compute. lia.
Defined.

(** ** The random source *)

Lemma bindR_returned {A B : Type} (m : Rand A) (f : A -> Rand B) (cursor cursor' : nat) (a : A) :
  m cursor = Returned (a, cursor') -> bindR m f cursor = f a cursor'.
Proof. intros H. unfold bindR. rewrite H. reflexivity. Qed.

Lemma BigInt_toString16_length_pos (n : Z) : (0 < length (BigInt_toString16 n))%nat.
Proof.
  unfold BigInt_toString16. destruct (n <? 0); [cbn [length]; lia|].
  apply hexDigits_length_pos.
Qed.

Lemma rangeBytes_pos (range : Z) : (0 < rangeBytes range)%nat.
Proof.
  unfold rangeBytes, QuantumCrypto.ceilDiv.
  pose proof (BigInt_toString16_length_pos range) as H.
  apply Nat.div_str_pos. lia.
Qed.

Lemma generateRandomBytes_run (env : Environment) (n : nat) (cursor : nat) :
  (0 < n)%nat ->
  QuantumCrypto.generateRandomBytes env (Z.of_nat n) cursor =
  Returned (map (fun i => entropy env (cursor + i)%nat) (seq 0 n), (cursor + n)%nat).
Proof.
  intros H. unfold QuantumCrypto.generateRandomBytes.
  destruct (Z.of_nat n <=? 0) eqn:E; [apply Z.leb_le in E; lia|].
  rewrite Nat2Z.id. reflexivity.
Qed.

Lemma generateRandomBigInt_run (env : Environment) (min max : Z) (cursor : nat) :
  max - min <> 0 ->
  QuantumCrypto.generateRandomBigInt env min max cursor =
  Returned (Z.rem (randomValue env (rangeBytes (max - min)) cursor) (max - min) + min,
            (cursor + rangeBytes (max - min))%nat).
Proof.
  intros H. unfold QuantumCrypto.generateRandomBigInt.
  fold (rangeBytes (max - min)).
  erewrite bindR_returned by (apply generateRandomBytes_run, rangeBytes_pos).
  destruct (max - min =? 0) eqn:E; [apply Z.eqb_eq in E; contradiction|].
  unfold retR. rewrite BigInt_of_hex_toString_hex. reflexivity.
Qed.

Lemma randomValue_nonneg (env : Environment) (bytes cursor : nat) :
  0 <= randomValue env bytes cursor.
Proof. apply beValue_nonneg. Qed.

Lemma drawBelow_range (env : Environment) (bound : Z) (cursor : nat) :
  0 < bound -> 0 <= drawBelow env bound cursor < bound.
Proof.
  intros H. unfold drawBelow. apply Z.rem_bound_pos; [apply randomValue_nonneg | exact H].
Qed.

Lemma generateRandomBigInt_below (env : Environment) (bound : Z) (cursor : nat) :
  bound <> 0 ->
  QuantumCrypto.generateRandomBigInt env 0 bound cursor =
  Returned (drawBelow env bound cursor, (cursor + rangeBytes bound)%nat).
Proof.
  intros H. rewrite generateRandomBigInt_run by lia.
  rewrite Z.sub_0_r, Z.add_0_r. reflexivity.
Qed.

Lemma repeatR_draws (env : Environment) (bound : Z) (n : nat) :
  bound <> 0 ->
  forall cursor,
    QuantumCrypto.repeatR n (QuantumCrypto.generateRandomBigInt env 0 bound) cursor =
    Returned (map (fun i => drawBelow env bound (cursor + i * rangeBytes bound)%nat) (seq 0 n),
              (cursor + n * rangeBytes bound)%nat).
Proof.
  intros H. induction n as [|n IH]; intros cursor.
  - simpl. unfold retR. f_equal. f_equal. lia.
  - cbn [QuantumCrypto.repeatR].
    erewrite bindR_returned by (apply generateRandomBigInt_below; exact H).
    erewrite bindR_returned by apply IH.
    unfold retR. f_equal. f_equal.
    + cbn [seq map]. f_equal; [f_equal; lia|].
      rewrite <- seq_shift, map_map. apply map_ext. intros i. f_equal. lia.
    + lia.
Qed.

Lemma rangeBytes_1000 : rangeBytes 1000 = 2%nat.
Proof. reflexivity. Qed.

Lemma generateDiscreteGaussianError_run (env : Environment) (sigma : Z) (cursor : nat) :
  QuantumCrypto.generateDiscreteGaussianError env sigma cursor =
  Returned (errorAt env sigma cursor, (cursor + 4)%nat).
Proof.
  unfold QuantumCrypto.generateDiscreteGaussianError.
  erewrite bindR_returned by (apply generateRandomBigInt_below; discriminate).
  erewrite bindR_returned by (apply generateRandomBigInt_below; discriminate).
  rewrite rangeBytes_1000. unfold retR, errorAt. f_equal. f_equal. lia.
Qed.

(** ** LWE samples *)

(** C9 as stated fails: on a run that draws [a = [0; 0]], the error 34 and
    then 5, the scalar is 39, which no secret vector explains. *)
Lemma generateLWESample_ignores_inner_product :
  exists cursor',
    QuantumCrypto.generateLWESample countingEnvironment 2 1000 8 0%nat =
      Returned (([0; 0], 39), cursor') /\
    errorAt countingEnvironment 8 4%nat = 34 /\
    forall secret : list Z, 39 <> (dotProduct [0; 0] secret + 34) mod 1000.
Proof.
  eexists. split; [vm_compute; reflexivity|].
  split; [reflexivity|].
  intros [|s0 [|s1 rest]]; vm_compute; discriminate.
Qed.

Lemma generateLWESample_run
    (env : Environment) (dimension modulus errorBound : Z) (cursor : nat) :
  0 < modulus ->
  QuantumCrypto.generateLWESample env dimension modulus errorBound cursor =
  Returned
    ((map (fun i => drawBelow env modulus (cursor + i * rangeBytes modulus)%nat)
          (seq 0 (Z.to_nat dimension)),
      Z.rem (drawBelow env modulus
               (cursor + Z.to_nat dimension * rangeBytes modulus + 4)%nat
             + errorAt env errorBound (cursor + Z.to_nat dimension * rangeBytes modulus)%nat)
            modulus),
     (cursor + Z.to_nat dimension * rangeBytes modulus + 4 + rangeBytes modulus)%nat).
Proof.
  intros Hm. unfold QuantumCrypto.generateLWESample.
  erewrite bindR_returned by (apply repeatR_draws; lia).
  erewrite bindR_returned by apply generateDiscreteGaussianError_run.
  erewrite bindR_returned by (apply generateRandomBigInt_below; lia).
  destruct (modulus =? 0) eqn:E; [apply Z.eqb_eq in E; lia|].
  reflexivity.
Qed.

(** C9, amended: for a positive modulus [generateLWESample] returns
    [dimension] integers [a_i] in [[0, modulus)], each a fresh draw, and the
    scalar [b = (r + error) rem modulus] where [r] is one more fresh draw in
    [[0, modulus)] and [error] the sampled error; [b] depends on no secret and
    not on [a], and lies strictly between [-modulus] and [modulus]. *)
Theorem generateLWESample_fresh_scalar
    (env : Environment) (dimension modulus errorBound : Z) (cursor : nat) :
  0 < modulus ->
  let width := rangeBytes modulus in
  let a := map (fun i => drawBelow env modulus (cursor + i * width)%nat)
               (seq 0 (Z.to_nat dimension)) in
  let afterA := (cursor + Z.to_nat dimension * width)%nat in
  let error := errorAt env errorBound afterA in
  let r := drawBelow env modulus (afterA + 4)%nat in
  let b := Z.rem (r + error) modulus in
  QuantumCrypto.generateLWESample env dimension modulus errorBound cursor =
    Returned ((a, b), (afterA + 4 + width)%nat) /\
  length a = Z.to_nat dimension /\
  Forall (fun x => 0 <= x < modulus) a /\
  0 <= r < modulus /\
  - modulus < b < modulus.
Proof.
  intros Hm width a afterA error r b.
  split; [|split; [|split; [|split]]].
  - apply generateLWESample_run. exact Hm.
  - unfold a. rewrite length_map, length_seq. reflexivity.
  - unfold a. apply Forall_forall. intros x Hx.
    apply in_map_iff in Hx. destruct Hx as [i [<- _]].
    apply drawBelow_range. exact Hm.
  - apply drawBelow_range. exact Hm.
  - unfold b. pose proof (Z.rem_bound_abs (r + error) modulus ltac:(lia)) as H.
    lia.
Qed.

Lemma generateLWESample_fresh_scalar_witness :
  exists a b cursor',
    QuantumCrypto.generateLWESample countingEnvironment 2 1000 8 0%nat =
      Returned ((a, b), cursor') /\
    - 1000 < b < 1000.
Proof.
  pose proof (generateLWESample_fresh_scalar countingEnvironment 2 1000 8 0%nat ltac:(lia)) as H.
  cbv zeta in H. destruct H as [Hrun [_ [_ [_ Hb]]]].
  eexists. eexists. eexists. split; [exact Hrun | exact Hb].
Defined.

(** ** The hash engine *)

Lemma verifyHashChainLoop_created (n : nat) :
  forall seed, HashZKP.verifyHashChainLoop seed (HashZKP.createHashChainLoop seed n) = true.
Proof.
  induction n as [|n IH]; intros seed; [reflexivity|].
  cbn [HashZKP.createHashChainLoop HashZKP.verifyHashChainLoop].
  rewrite Buffer_equals_refl. apply IH.
Qed.

Lemma createHashChainLoop_length (n : nat) :
  forall seed, length (HashZKP.createHashChainLoop seed n) = n.
Proof.
  induction n as [|n IH]; intros seed; [reflexivity|].
  cbn [HashZKP.createHashChainLoop length]. rewrite IH. reflexivity.
Qed.

Lemma createHashChain_length (seed : Buffer) (chainLength : Z) :
  length (HashZKP.createHashChain seed chainLength) = Z.to_nat chainLength.
Proof. apply createHashChainLoop_length. Qed.

Lemma verifyHashChain_created (seed : Buffer) (chainLength : Z) :
  2 <= chainLength ->
  HashZKP.verifyHashChain (HashZKP.createHashChain seed chainLength) = true.
Proof.
  intros H. unfold HashZKP.verifyHashChain, HashZKP.createHashChain.
  rewrite createHashChainLoop_length.
  destruct (Nat.ltb (Z.to_nat chainLength) 2) eqn:E; [apply Nat.ltb_lt in E; lia|].
  destruct (Z.to_nat chainLength) as [|n]; [apply Nat.ltb_ge in E; lia|].
  cbn [HashZKP.createHashChainLoop]. apply verifyHashChainLoop_created.
Qed.

(** The proof generated for leaf 0 always folds to the root: leaf 0 is a left
    node with a neighbour on every level below the top. *)
Lemma merkleFold_first_leaf (fuel : nat) :
  forall level,
    QuantumCrypto.merkleFold (nth 0 level [])
      (QuantumCrypto.generateMerkleProof (level :: QuantumCrypto.upperLevels fuel level) 0) 0 =
    nth 0 (last (level :: QuantumCrypto.upperLevels fuel level) []) [].
Proof.
  induction fuel as [|fuel IH]; intros level; [reflexivity|].
  cbn [QuantumCrypto.upperLevels].
  match goal with |- context [if ?c then _ else _] => destruct c eqn:E end; [|reflexivity].
  destruct level as [|leftNode [|rightNode rest]]; try discriminate.
  set (next := QuantumCrypto.nextLevel (leftNode :: rightNode :: rest)).
  specialize (IH next).
  change (QuantumCrypto.generateMerkleProof
            ((leftNode :: rightNode :: rest) :: next :: QuantumCrypto.upperLevels fuel next) 0)
    with (rightNode ::
          QuantumCrypto.generateMerkleProof (next :: QuantumCrypto.upperLevels fuel next) 0).
  change (last ((leftNode :: rightNode :: rest) :: next :: QuantumCrypto.upperLevels fuel next) [])
    with (last (next :: QuantumCrypto.upperLevels fuel next) []).
  etransitivity; [|exact IH]. reflexivity.
Qed.

Lemma generateMerkleTree_first_leaf (leaves : list Buffer) :
  leaves <> [] ->
  exists tree root,
    QuantumCrypto.generateMerkleTree leaves = Ok (tree, root) /\
    QuantumCrypto.verifyMerkleProof (nth 0 leaves [])
      (QuantumCrypto.generateMerkleProof tree 0) root 0 = true.
Proof.
  intros H. unfold QuantumCrypto.generateMerkleTree, QuantumCrypto.verifyMerkleProof.
  destruct (Nat.eqb (length leaves) 0) eqn:E.
  - apply Nat.eqb_eq in E. destruct leaves; [contradiction | discriminate].
  - eexists. eexists. split; [reflexivity|].
    rewrite merkleFold_first_leaf. apply Buffer_equals_refl.
Qed.

Lemma mapO_asBuffer (l : list Buffer) : mapO asBuffer (map JBuffer l) = Ok l.
Proof.
  induction l as [|x l IH]; [reflexivity|].
  cbn [map mapO asBuffer bindO]. rewrite IH. reflexivity.
Qed.

Lemma verifyMerkleProofValue_typed (leaf : Buffer) (proof : list Buffer) (root : Buffer)
    (leafIndex : nat) :
  QuantumCrypto.verifyMerkleProofValue (JBuffer leaf) (jsBuffers proof) (JBuffer root) leafIndex =
  Ok (QuantumCrypto.verifyMerkleProof leaf proof root leafIndex).
Proof.
  unfold QuantumCrypto.verifyMerkleProofValue, jsBuffers.
  cbn [iterate asBuffer bindO]. rewrite mapO_asBuffer. reflexivity.
Qed.

Lemma fit32_length (b : Buffer) : length (HashZKP.fit32 b) = 32%nat.
Proof.
  unfold HashZKP.fit32, Buffer_slice.
  destruct (Nat.leb 32 (length b)) eqn:E.
  - apply Nat.leb_le in E. rewrite length_firstn. cbn [skipn]. lia.
  - apply Nat.leb_gt in E. rewrite length_app, repeat_length. lia.
Qed.

Lemma createResponse_length (secret witness challenge : Buffer) :
  length (HashZKP.createResponse secret witness challenge) = 64%nat.
Proof.
  unfold HashZKP.createResponse. rewrite length_app, !fit32_length. reflexivity.
Qed.

Lemma hasLength_buffer (b : Buffer) (n : nat) : hasLength (JBuffer b) n = Nat.eqb (length b) n.
Proof.
  unfold hasLength. cbn [getProp]. change (String.eqb "length" "length") with true.
  cbv iota. destruct (Nat.eqb (length b) n) eqn:E.
  - apply Nat.eqb_eq in E. subst n. apply Z.eqb_refl.
  - apply Nat.eqb_neq in E. apply Z.eqb_neq. lia.
Qed.

Lemma elements_jsBuffers (l : list Buffer) : elements (jsBuffers l) = map JBuffer l.
Proof. reflexivity. Qed.

(** The comparisons on values of the declared types. *)
Lemma lessThan_integers (a b : Z) : lessThan (Finite a 0) (Finite b 0) = Some (a <? b).
Proof.
  unfold lessThan, compareNumbers. cbn [Z.min Z.compare Z.sub Z.opp Z.add Z.pow Z.pow_pos].
  change (2 ^ (0 - 0)) with 1. rewrite !Z.mul_1_r. unfold Z.ltb.
  destruct (a ?= b); reflexivity.
Qed.

Lemma greaterThan_number (n bound : Z) : greaterThan (JNumber n) bound = Ok (bound <? n).
Proof.
  unfold greaterThan. cbn [toPrimitive bindO asNumber numberOf].
  rewrite lessThan_integers. destruct (bound <? n); reflexivity.
Qed.

Lemma greaterThanBigInt_bigint (n bound : Z) :
  greaterThanBigInt (JBigInt n) bound = Ok (bound <? n).
Proof.
  unfold greaterThanBigInt. cbn [toPrimitive bindO againstBigInt asNumber].
  rewrite lessThan_integers. destruct (bound <? n); reflexivity.
Qed.

Lemma notLessThan_bigint (n m : Z) : notLessThan n (JBigInt m) = Ok (m <=? n).
Proof.
  unfold notLessThan. cbn [toPrimitive bindO againstBigInt asNumber].
  rewrite lessThan_integers. rewrite Z.leb_antisym. destruct (n <? m); reflexivity.
Qed.

(** What [HashZKP.verifyProof] computes on a proof whose fields have their
    declared types. *)
Lemma HashZKP_verifyProof_typed (proof merkleTree : JsValue)
    (commitment challenge response root : Buffer) (hashChain merkleProof : list Buffer)
    (chainLength : Z) :
  getProp proof "type" = Ok (JString "hash") ->
  getProp proof "commitment" = Ok (JBuffer commitment) ->
  getProp proof "challenge" = Ok (JBuffer challenge) ->
  getProp proof "response" = Ok (JBuffer response) ->
  getProp proof "hashChain" = Ok (jsBuffers hashChain) ->
  getProp proof "chainLength" = Ok (JNumber chainLength) ->
  getProp proof "merkleTree" = Ok merkleTree ->
  getProp proof "merkleProof" = Ok (jsBuffers merkleProof) ->
  getProp proof "commitmentChain" = Ok (JBuffer root) ->
  HashZKP.verifyProof proof =
  Ok (Nat.ltb 0 (length hashChain)
      && (0 <? chainLength)
      && negb (isUndefined merkleTree)
      && QuantumCrypto.verifyMerkleProof (nth 0 hashChain []) merkleProof root 0
      && HashZKP.verifyHashChain hashChain
      && Buffer_equals (nth 0 hashChain []) commitment
      && Nat.eqb (length response) 64
      && Nat.eqb (length challenge) 32).
Proof.
  intros Ht Hc Hch Hr Hh Hl Hmt Hmp Hroot.
  unfold HashZKP.verifyProof, HashZKP.verifyProofBody, HashZKP.validateProofStructure.
  rewrite Ht, Hc, Hch, Hr, Hh, Hl, Hmt, Hmp, Hroot.
  cbn [bindO]. rewrite !elements_jsBuffers. unfold jsBuffers at 1 2.
  cbn [isString instanceofBuffer instanceofArray isUndefined truthy andb negb orb].
  change (String.eqb "hash" "hash") with true. cbn [andb].
  rewrite !length_map, !hasLength_buffer, greaterThan_number.
  destruct hashChain as [|first rest].
  - reflexivity.
  - cbn [length Nat.ltb Nat.leb Nat.eqb andb negb map nth bindO].
    destruct (0 <? chainLength); cbn [andb negb tryCatch]; [|reflexivity].
    destruct (isUndefined merkleTree); cbn [andb negb tryCatch]; [reflexivity|].
    rewrite verifyMerkleProofValue_typed. cbn [bindO].
    destruct (QuantumCrypto.verifyMerkleProof first merkleProof root 0);
      cbn [andb negb tryCatch]; [|reflexivity].
    change (JBuffer first :: map JBuffer rest) with (map JBuffer (first :: rest)).
    rewrite verifyHashChainValue_typed. cbn [bindO].
    destruct (HashZKP.verifyHashChain (first :: rest)); cbn [andb negb tryCatch]; [|reflexivity].
    cbn [asBuffer bindO].
    destruct (Buffer_equals first commitment); cbn [andb negb tryCatch]; [|reflexivity].
    destruct (Nat.eqb (length response) 64); cbn [andb negb orb tryCatch]; [|reflexivity].
    destruct (Nat.eqb (length challenge) 32); reflexivity.
Qed.

(** *** Runs of [HashZKP.createProof] *)

Lemma validateHashParameters_number (c : Z) :
  QuantumCrypto.validateParameters QuantumCrypto.hash_ [("chainLength"%string, JNumber c)] =
  negb (c <? 100).
Proof.
  unfold QuantumCrypto.validateParameters, QuantumCrypto.validateHashParameters,
    QuantumCrypto.notNumberOrBelow.
  simpl. destruct (c <? 100); reflexivity.
Qed.

Lemma runChain_nonempty (env : Environment) (secret : Secret) (chainLength : Z) (cursor : nat) :
  0 < chainLength -> runChain env secret chainLength cursor <> [].
Proof.
  intros H E. apply (f_equal (@length Buffer)) in E.
  unfold runChain in E. rewrite createHashChain_length in E. simpl in E. lia.
Qed.

Lemma HashZKP_createProof_invalid (env : Environment) (secret : Secret)
    (parameters : option ProofParameters) (cursor : nat) :
  orDefault (optionalField parameters chainLength) HashZKP.DEFAULT_CHAIN_LENGTH < 100 ->
  HashZKP.createProof env secret parameters cursor = Raised (Error "Invalid hash parameters").
Proof.
  intros H. unfold HashZKP.createProof.
  rewrite validateHashParameters_number.
  destruct (_ <? 100) eqn:E; [reflexivity | apply Z.ltb_ge in E; lia].
Qed.

Lemma HashZKP_createProof_run (env : Environment) (secret : Secret)
    (parameters : option ProofParameters) (cursor : nat) :
  let c := orDefault (optionalField parameters chainLength) HashZKP.DEFAULT_CHAIN_LENGTH in
  100 <= c ->
  exists tree root,
    QuantumCrypto.generateMerkleTree (runChain env secret c cursor) = Ok (tree, root) /\
    QuantumCrypto.verifyMerkleProof (runCommitment env secret c cursor)
      (QuantumCrypto.generateMerkleProof tree 0) root 0 = true /\
    HashZKP.createProof env secret parameters cursor =
      Returned (runProof env secret c cursor tree root, (cursor + 48)%nat).
Proof.
  intros c Hc.
  destruct (generateMerkleTree_first_leaf (runChain env secret c cursor))
    as [tree [root [Htree Hfirst]]]; [apply runChain_nonempty; lia|].
  exists tree, root. split; [exact Htree|]. split; [exact Hfirst|].
  unfold HashZKP.createProof. fold c.
  rewrite validateHashParameters_number.
  destruct (c <? 100) eqn:E; [apply Z.ltb_lt in E; lia|]. cbn [negb].
  erewrite bindR_returned by (apply (generateRandomBytes_run env 32); lia).
  erewrite bindR_returned by (apply (generateRandomBytes_run env 16); lia).
  fold (entropyBytes env cursor 32). fold (entropyBytes env (cursor + 32) 16).
  fold (runWitness env cursor). fold (runSeed env cursor).
  fold (runChain env secret c cursor).
  unfold bindR, liftR. rewrite Htree. unfold retR.
  f_equal. f_equal. lia.
Qed.

(** A proof made by [createProof] verifies, whatever the secret and the random
    bytes. *)
Lemma HashZKP_verifies_created_proof (env : Environment) (secret : Secret)
    (parameters : option ProofParameters) (cursor cursor' : nat) (proof : JsValue) :
  HashZKP.createProof env secret parameters cursor = Returned (proof, cursor') ->
  HashZKP.verifyProof proof = Ok true.
Proof.
  intros H.
  set (c := orDefault (optionalField parameters chainLength) HashZKP.DEFAULT_CHAIN_LENGTH).
  destruct (Z.lt_ge_cases c 100) as [Hlt|Hge].
  - rewrite HashZKP_createProof_invalid in H by exact Hlt. discriminate.
  - destruct (HashZKP_createProof_run env secret parameters cursor Hge)
      as [tree [root [Htree [Hfirst Hrun]]]].
    fold c in Htree, Hfirst, Hrun. rewrite Hrun in H. injection H as <- _.
    erewrite HashZKP_verifyProof_typed; try reflexivity.
    fold (runCommitment env secret c cursor). rewrite Hfirst.
    assert (Hlen : length (runChain env secret c cursor) = Z.to_nat c)
      by apply createHashChain_length.
    assert (Hchain : HashZKP.verifyHashChain (runChain env secret c cursor) = true)
      by (apply verifyHashChain_created; lia).
    rewrite Hlen, Hchain, Buffer_equals_refl.
    unfold runResponse, runChallenge, HashZKP.generateChallenge.
    rewrite createResponse_length, hash_length.
    destruct (Z.to_nat c) as [|n] eqn:En; [lia|].
    destruct (0 <? c) eqn:E0; [reflexivity | apply Z.ltb_ge in E0; lia].
Qed.

(** C6 as stated fails: a supplied [chainLength] of 0 is below 100 and
    [createProof] returns a proof, with the default chain of 1000. *)
Lemma HashZKP_createProof_accepts_zero_chainLength :
  0 < 100 /\
  exists proof chain,
    HashZKP.createProof sampleEnvironment sampleSecret (withChainLength 0) 0%nat =
      Returned (proof, 48%nat) /\
    getProp proof "hashChain" = Ok (jsBuffers chain) /\
    length chain = 1000%nat.
Proof.
  split; [lia|].
  destruct (HashZKP_createProof_run sampleEnvironment sampleSecret (withChainLength 0) 0%nat)
    as [tree [root [_ [_ Hrun]]]]; [vm_compute; discriminate|].
  eexists. eexists. split; [exact Hrun|]. split; [reflexivity|].
  unfold runChain. rewrite createHashChain_length. reflexivity.
Qed.

(** C6, amended: [createProof] fails with the parameter error whenever the
    supplied [chainLength] is not 0 and is below 100 (so for 50); with 500 it
    returns a proof whose chain has 500 elements; a supplied 0 counts as
    absent and gives the default chain of 1000 elements. *)
Theorem HashZKP_createProof_chainLength
    (env : Environment) (secret : Secret) (cursor : nat) :
  (forall c, c <> 0 -> c < 100 ->
     HashZKP.createProof env secret (withChainLength c) cursor =
     Raised (Error "Invalid hash parameters")) /\
  HashZKP.createProof env secret (withChainLength 50) cursor =
    Raised (Error "Invalid hash parameters") /\
  (exists proof chain,
     HashZKP.createProof env secret (withChainLength 500) cursor =
       Returned (proof, (cursor + 48)%nat) /\
     getProp proof "hashChain" = Ok (jsBuffers chain) /\
     getProp proof "chainLength" = Ok (JNumber 500) /\
     length chain = 500%nat) /\
  (exists proof chain,
     HashZKP.createProof env secret (withChainLength 0) cursor =
       Returned (proof, (cursor + 48)%nat) /\
     getProp proof "hashChain" = Ok (jsBuffers chain) /\
     getProp proof "chainLength" = Ok (JNumber 1000) /\
     length chain = 1000%nat).
Proof.
  split; [|split; [|split]].
  - intros c Hc Hlt. apply HashZKP_createProof_invalid.
    cbn [withChainLength optionalField chainLength orDefault].
    destruct (c =? 0) eqn:E; [apply Z.eqb_eq in E; contradiction | exact Hlt].
  - apply HashZKP_createProof_invalid. vm_compute. reflexivity.
  - destruct (HashZKP_createProof_run env secret (withChainLength 500) cursor)
      as [tree [root [_ [_ Hrun]]]]; [vm_compute; discriminate|].
    eexists. eexists. split; [exact Hrun|]. split; [reflexivity|]. split; [reflexivity|].
    unfold runChain. rewrite createHashChain_length. reflexivity.
  - destruct (HashZKP_createProof_run env secret (withChainLength 0) cursor)
      as [tree [root [_ [_ Hrun]]]]; [vm_compute; discriminate|].
    eexists. eexists. split; [exact Hrun|]. split; [reflexivity|]. split; [reflexivity|].
    unfold runChain. rewrite createHashChain_length. reflexivity.
Qed.

Lemma HashZKP_createProof_chainLength_witness :
  HashZKP.createProof sampleEnvironment sampleSecret (withChainLength 99) 0%nat =
  Raised (Error "Invalid hash parameters").
Proof.
  apply (proj1 (HashZKP_createProof_chainLength sampleEnvironment sampleSecret 0%nat) 99);
    [discriminate | reflexivity].
Defined.

(** ** The verifiers on arbitrary values *)

Lemma withField_lookup (value : JsValue) (key : string) (v : JsValue) :
  exists fields, withField value key v = JObject fields /\ lookupField key fields = v.
Proof.
  destruct value; cbn [withField]; eexists; (split; [reflexivity|]);
    cbn [lookupField]; rewrite String.eqb_refl; reflexivity.
Qed.

Lemma includesCorrupted_marker : includesCorrupted corruptedMarker = true.
Proof. reflexivity. Qed.

(** One step along the chain of tests of a verifier: a test that fails or
    throws ends in [false], otherwise the next test is considered. *)
Ltac verify_step :=
  match goal with
  | |- tryCatch (Ok _) _ = _ => reflexivity
  | |- tryCatch (Throw _) _ = _ => reflexivity
  | |- tryCatch (if ?c then _ else _) _ = _ => destruct c eqn:?
  | |- tryCatch (bindO ?m _) _ = _ => destruct m eqn:?; cbn [bindO]
  end.

(** The path on which every test passed is closed by the marker found in one
    of the three buffers. *)
Ltac marker_found Hb :=
  exfalso;
  repeat match goal with
         | H : mentionsCorrupted (JBuffer _) = Ok _ |- _ =>
             unfold mentionsCorrupted in H; cbn [asBuffer bindO] in H;
             rewrite Hb in H; injection H as H; subst
         end;
  repeat match goal with
         | x : bool |- _ => destruct x
         end;
  discriminate.

Lemma LatticeZKP_marker_rejected (fields : list (string * JsValue)) (b : Buffer) :
  includesCorrupted b = true ->
  lookupField "response" fields = JBuffer b \/
  lookupField "challenge" fields = JBuffer b \/
  lookupField "commitment" fields = JBuffer b ->
  LatticeZKP.verifyProof (JObject fields) = Ok false.
Proof.
  intros Hb H.
  unfold LatticeZKP.verifyProof, LatticeZKP.verifyProofBody, LatticeZKP.validateProofStructure.
  cbn [getProp bindO].
  destruct H as [H|[H|H]]; rewrite H; repeat verify_step; marker_found Hb.
Qed.

Lemma MultivariateZKP_marker_rejected (fields : list (string * JsValue)) (b : Buffer) :
  includesCorrupted b = true ->
  lookupField "response" fields = JBuffer b \/
  lookupField "challenge" fields = JBuffer b \/
  lookupField "commitment" fields = JBuffer b ->
  MultivariateZKP.verifyProof (JObject fields) = Ok false.
Proof.
  intros Hb H.
  unfold MultivariateZKP.verifyProof, MultivariateZKP.verifyProofBody,
    MultivariateZKP.validateProofStructure.
  cbn [getProp bindO].
  destruct H as [H|[H|H]]; rewrite H; repeat verify_step; marker_found Hb.
Qed.

Lemma HybridZKP_marker_rejected (fields : list (string * JsValue)) (b : Buffer) :
  includesCorrupted b = true ->
  lookupField "response" fields = JBuffer b \/
  lookupField "challenge" fields = JBuffer b \/
  lookupField "commitment" fields = JBuffer b ->
  HybridZKP.verifyProof (JObject fields) = Ok false.
Proof.
  intros Hb H.
  unfold HybridZKP.verifyProof, HybridZKP.verifyProofBody, HybridZKP.validateProofStructure.
  cbn [getProp bindO].
  destruct H as [H|[H|H]]; rewrite H; repeat verify_step; marker_found Hb.
Qed.

(** A lattice proof with an empty commitment is rejected. *)
Lemma LatticeZKP_empty_commitment_rejected (fields : list (string * JsValue)) :
  lookupField "commitment" fields = JBuffer [] ->
  LatticeZKP.verifyProof (JObject fields) = Ok false.
Proof.
  intros H.
  unfold LatticeZKP.verifyProof, LatticeZKP.verifyProofBody, LatticeZKP.validateProofStructure.
  cbn [getProp bindO]. rewrite H.
  repeat verify_step.
  exfalso.
  match goal with
  | E : negb (truthy (JBuffer [])) || hasLength (JBuffer []) 0 = false |- _ =>
      vm_compute in E; discriminate E
  end.
Qed.

Lemma coreField_lookup (proof : JsValue) (field : string) (b : Buffer) :
  coreField field ->
  exists fields,
    withField proof field (JBuffer b) = JObject fields /\
    (lookupField "response" fields = JBuffer b \/
     lookupField "challenge" fields = JBuffer b \/
     lookupField "commitment" fields = JBuffer b).
Proof.
  intros Hf. destruct (withField_lookup proof field (JBuffer b)) as [fields [Hw Hl]].
  exists fields. split; [exact Hw|].
  destruct Hf as [-> | [-> | ->]]; auto.
Qed.

(** C3 as stated fails: in a hash proof made by [createProof] the challenge
    can be replaced by 32 unrelated bytes and the proof is still accepted. *)
Lemma HashZKP_accepts_unrelated_challenge :
  exists proof cursor' challenge,
    HashZKP.createProof sampleEnvironment sampleSecret None 0%nat = Returned (proof, cursor') /\
    getProp proof "challenge" = Ok (JBuffer challenge) /\
    challenge <> unrelatedChallenge /\
    HashZKP.verifyProof (withField proof "challenge" (JBuffer unrelatedChallenge)) = Ok true.
Proof.
  destruct (HashZKP_createProof_run sampleEnvironment sampleSecret None 0%nat)
    as [tree [root [Htree [Hfirst Hrun]]]]; [vm_compute; discriminate|].
  cbn [optionalField orDefault] in Htree, Hfirst, Hrun.
  set (c := HashZKP.DEFAULT_CHAIN_LENGTH) in *.
  eexists. eexists. eexists. split; [exact Hrun|]. split; [reflexivity|]. split.
  - intros H. apply Buffer_equals_eq in H.
    unfold runChallenge, runCommitment, runChain, HashZKP.createHashChain in H.
    change (Z.to_nat c) with (S 999) in H.
    cbn [HashZKP.createHashChainLoop nth] in H.
    vm_compute in H. discriminate H.
  - erewrite HashZKP_verifyProof_typed; try reflexivity.
    fold (runCommitment sampleEnvironment sampleSecret c 0). rewrite Hfirst.
    assert (Hlen : length (runChain sampleEnvironment sampleSecret c 0) = Z.to_nat c)
      by apply createHashChain_length.
    assert (Hchain : HashZKP.verifyHashChain (runChain sampleEnvironment sampleSecret c 0) = true)
      by (apply verifyHashChain_created; vm_compute; discriminate).
    rewrite Hlen, Hchain, Buffer_equals_refl.
    unfold runResponse. rewrite createResponse_length. reflexivity.
Qed.

(** C3, amended: replacing the commitment, the challenge or the response by
    the byte string "corrupted" makes [verifyProof] return [false]: for a hash
    proof made by [createProof], and for any lattice, multivariate or hybrid
    proof, in particular those made by [createProof]. *)
Theorem corrupted_marker_rejected (field : string) :
  coreField field ->
  (forall env secret parameters cursor proof cursor',
     HashZKP.createProof env secret parameters cursor = Returned (proof, cursor') ->
     HashZKP.verifyProof (withField proof field (JBuffer corruptedMarker)) = Ok false) /\
  (forall proof,
     LatticeZKP.verifyProof (withField proof field (JBuffer corruptedMarker)) = Ok false) /\
  (forall proof,
     MultivariateZKP.verifyProof (withField proof field (JBuffer corruptedMarker)) = Ok false) /\
  (forall proof,
     HybridZKP.verifyProof (withField proof field (JBuffer corruptedMarker)) = Ok false).
Proof.
  intros Hf. split; [|split; [|split]].
  - intros env secret parameters cursor proof cursor' H.
    set (c := orDefault (optionalField parameters chainLength) HashZKP.DEFAULT_CHAIN_LENGTH).
    destruct (Z.lt_ge_cases c 100) as [Hlt|Hge].
    { rewrite HashZKP_createProof_invalid in H by exact Hlt. discriminate. }
    destruct (HashZKP_createProof_run env secret parameters cursor Hge)
      as [tree [root [Htree [Hfirst Hrun]]]].
    fold c in Htree, Hfirst, Hrun. rewrite Hrun in H. injection H as <- _.
    assert (Hcommit : Buffer_equals (runCommitment env secret c cursor) corruptedMarker = false).
    { apply Buffer_equals_neq. intros E. apply (f_equal (@length byte)) in E.
      unfold runCommitment, runChain, HashZKP.createHashChain in E.
      destruct (Z.to_nat c) as [|n] eqn:En; [lia|].
      cbn [HashZKP.createHashChainLoop nth] in E. rewrite hash_length in E.
      discriminate E. }
    destruct Hf as [-> | [-> | ->]];
      (erewrite HashZKP_verifyProof_typed; [|reflexivity..]);
      fold (runCommitment env secret c cursor);
      rewrite ?Hcommit, ?andb_false_r; reflexivity.
  - intros proof. destruct (coreField_lookup proof field corruptedMarker Hf) as [fields [-> H]].
    apply (LatticeZKP_marker_rejected fields corruptedMarker includesCorrupted_marker H).
  - intros proof. destruct (coreField_lookup proof field corruptedMarker Hf) as [fields [-> H]].
    apply (MultivariateZKP_marker_rejected fields corruptedMarker includesCorrupted_marker H).
  - intros proof. destruct (coreField_lookup proof field corruptedMarker Hf) as [fields [-> H]].
    apply (HybridZKP_marker_rejected fields corruptedMarker includesCorrupted_marker H).
Qed.

Lemma corrupted_marker_rejected_witness :
  LatticeZKP.verifyProof (withField JNull "challenge" (JBuffer corruptedMarker)) = Ok false /\
  match HashZKP.createProof sampleEnvironment sampleSecret (withChainLength 100) 0%nat with
  | Returned (proof, _) =>
      HashZKP.verifyProof (withField proof "challenge" (JBuffer corruptedMarker)) = Ok false
  | _ => False
  end.
Proof.
  assert (Hf : coreField "challenge") by (right; left; reflexivity).
  destruct (corrupted_marker_rejected "challenge" Hf) as [Hhash [Hlattice _]].
  split; [apply Hlattice|].
  destruct (HashZKP_createProof_run sampleEnvironment sampleSecret (withChainLength 100) 0%nat)
    as [tree [root [_ [_ Hrun]]]]; [vm_compute; discriminate|].
  rewrite Hrun. apply (Hhash _ _ _ _ _ _ Hrun).
Defined.

(** ** The lattice engine *)

Lemma sliceToBigInt_empty (bytesPerInt i : nat) :
  QuantumCrypto.sliceToBigInt [] bytesPerInt i = 0.
Proof.
  rewrite sliceToBigInt_beValue. unfold Buffer_slice.
  rewrite skipn_nil, firstn_nil. reflexivity.
Qed.

Lemma innerProduct_zero_secret (modulus : Z) (l : list (Z * Z)) :
  Forall (fun p => snd p = 0) l ->
  fold_left (fun commitment p => Z.rem (commitment + fst p * snd p) modulus) l 0 = 0.
Proof.
  induction 1 as [|p l Hp _ IH]; [reflexivity|].
  cbn [fold_left]. rewrite Hp, Z.mul_0_r, Z.add_0_l.
  replace (Z.rem 0 modulus) with 0 by (destruct modulus; reflexivity).
  exact IH.
Qed.

Lemma innerProduct_empty_secret (a : list Z) (modulus : Z) :
  LatticeZKP.innerProduct a (QuantumCrypto.bufferToBigInts [] (length a)) modulus = 0.
Proof.
  unfold LatticeZKP.innerProduct. apply innerProduct_zero_secret.
  apply Forall_forall. intros [x s] Hin. apply in_combine_r in Hin.
  unfold QuantumCrypto.bufferToBigInts, QuantumCrypto.bufferToBigIntsLoop in Hin.
  apply in_map_iff in Hin. destruct Hin as [i [<- _]].
  apply sliceToBigInt_empty.
Qed.

Lemma validateLatticeParameters_typed (d m : Z) :
  QuantumCrypto.validateParameters QuantumCrypto.lattice
    [("dimension"%string, JNumber d); ("modulus"%string, JBigInt m)] =
  negb (d <? 128) && negb (m <=? 0).
Proof.
  unfold QuantumCrypto.validateParameters, QuantumCrypto.validateLatticeParameters,
    QuantumCrypto.notNumberOrBelow.
  simpl. destruct (d <? 128); [reflexivity|]. destruct (m <=? 0); reflexivity.
Qed.

Lemma rangeBytes_2_64 : rangeBytes (2 ^ 64) = 9%nat.
Proof. vm_compute. reflexivity. Qed.

Lemma LatticeZKP_createProofWith_run
    (env : Environment) (dimension modulus : Z) (secret : Secret) (cursor : nat) :
  128 <= dimension -> 0 < modulus ->
  LatticeZKP.createProofWith env dimension modulus secret cursor =
  Returned (latticeProof env dimension modulus secret cursor,
            (errorCursor dimension modulus cursor + 4 + Z.to_nat dimension * 9)%nat).
Proof.
  intros Hd Hm. unfold LatticeZKP.createProofWith.
  rewrite validateLatticeParameters_typed.
  destruct (dimension <? 128) eqn:Ed; [apply Z.ltb_lt in Ed; lia|].
  destruct (modulus <=? 0) eqn:Em; [apply Z.leb_le in Em; lia|].
  cbn [negb andb].
  erewrite bindR_returned by (apply generateLWESample_run; exact Hm).
  cbn [fst].
  erewrite bindR_returned by (apply (generateRandomBytes_run env 32); lia).
  unfold LatticeZKP.createLWECommitment.
  erewrite bindR_returned
    by (erewrite bindR_returned by apply generateDiscreteGaussianError_run; reflexivity).
  unfold LatticeZKP.createPolynomialCommitment, LatticeZKP.generatePolynomialCoefficients.
  erewrite bindR_returned
    by (erewrite bindR_returned by (apply repeatR_draws; discriminate); reflexivity).
  rewrite rangeBytes_2_64.
  reflexivity.
Qed.

Lemma LatticeZKP_createProofWith_invalid
    (env : Environment) (dimension modulus : Z) (secret : Secret) (cursor : nat) :
  dimension < 128 \/ modulus <= 0 ->
  LatticeZKP.createProofWith env dimension modulus secret cursor =
  Raised (Error "Invalid lattice parameters").
Proof.
  intros H. unfold LatticeZKP.createProofWith.
  rewrite validateLatticeParameters_typed.
  destruct (dimension <? 128) eqn:Ed; [reflexivity|].
  destruct (modulus <=? 0) eqn:Em; [reflexivity|].
  apply Z.ltb_ge in Ed. apply Z.leb_gt in Em. lia.
Qed.

(** Every run of [createProof] that returns went through [createProofWith]
    with a valid dimension and modulus, and returns that object. *)
Lemma LatticeZKP_createProof_returned
    (env : Environment) (fuel : nat) (secret : Secret) (parameters : option ProofParameters)
    (cursor cursor' : nat) (proof : JsValue) :
  LatticeZKP.createProof env fuel secret parameters cursor = Returned (proof, cursor') ->
  let d := orDefault (optionalField parameters dimension) LatticeZKP.DEFAULT_DIMENSION in
  exists m c0,
    match optionalField parameters modulus with
    | Some m' => if m' =? 0
                 then QuantumCrypto.generateLargePrime env fuel LatticeZKP.DEFAULT_BITS
                 else retR m'
    | None => QuantumCrypto.generateLargePrime env fuel LatticeZKP.DEFAULT_BITS
    end cursor = Returned (m, c0) /\
    128 <= d /\ 0 < m /\
    proof = latticeProof env d m secret c0 /\
    cursor' = (errorCursor d m c0 + 4 + Z.to_nat d * 9)%nat.
Proof.
  intros Hrun d.
  unfold LatticeZKP.createProof, bindR in Hrun. fold d in Hrun.
  match type of Hrun with
  | match ?choice with _ => _ end = _ => destruct choice as [[m c0]|e|] eqn:Echoice
  end; try discriminate.
  exists m, c0. split; [reflexivity|].
  destruct (Z.lt_ge_cases d 128) as [Hd|Hd].
  { rewrite LatticeZKP_createProofWith_invalid in Hrun by (left; exact Hd). discriminate. }
  destruct (Z.le_gt_cases m 0) as [Hm|Hm].
  { rewrite LatticeZKP_createProofWith_invalid in Hrun by (right; exact Hm). discriminate. }
  rewrite LatticeZKP_createProofWith_run in Hrun by lia.
  injection Hrun as <- <-. repeat split; lia.
Qed.

(** For a secret without bytes the commitment is the encoding of the bare
    error term, which is empty when that term is negative. *)
Lemma latticeProof_of_empty_secret_rejected
    (env : Environment) (d m : Z) (secret : Secret) (c0 : nat) :
  secretBytes secret = [] ->
  Z.rem (errorAt env LatticeZKP.DEFAULT_ERROR_BOUND (errorCursor d m c0)) m < 0 ->
  latticeCommitment env d m secret c0 = [] /\
  LatticeZKP.verifyProof (latticeProof env d m secret c0) = Ok false.
Proof.
  intros Hsecret Herr.
  assert (Hempty : latticeCommitment env d m secret c0 = []).
  { unfold latticeCommitment, QuantumCrypto.bigIntsToBuffer.
    rewrite Hsecret, innerProduct_empty_secret, Z.add_0_l.
    cbn [map concat]. rewrite app_nil_r.
    apply bigIntToBuffer_negative. exact Herr. }
  split; [exact Hempty|].
  apply LatticeZKP_empty_commitment_rejected.
  cbn [lookupField]. change (String.eqb "type" "commitment") with false.
  change (String.eqb "commitment" "commitment") with true. cbv iota.
  rewrite Hempty. reflexivity.
Qed.

(** C1 on the lattice engine: for a secret without bytes, in a run where the
    error sampled for the commitment is negative modulo the modulus, the proof
    that [createProof] returns is rejected by [verifyProof]. *)
Theorem LatticeZKP_rejects_proof_of_empty_secret
    (env : Environment) (fuel : nat) (secret : Secret) (parameters : option ProofParameters)
    (cursor cursor' : nat) (proof : JsValue) (m : Z) :
  secretBytes secret = [] ->
  LatticeZKP.createProof env fuel secret parameters cursor = Returned (proof, cursor') ->
  getProp proof "modulus" = Ok (JBigInt m) ->
  Z.rem (commitmentError env parameters cursor') m < 0 ->
  LatticeZKP.verifyProof proof = Ok false.
Proof.
  intros Hsecret Hrun Hmod Herr.
  destruct (LatticeZKP_createProof_returned env fuel secret parameters cursor cursor' proof Hrun)
    as [m0 [c0 [_ [Hd [Hm [-> ->]]]]]].
  cbn in Hmod. injection Hmod as <-.
  apply latticeProof_of_empty_secret_rejected; [exact Hsecret|].
  unfold commitmentError in Herr.
  match type of Herr with
  | Z.rem (errorAt _ _ ?c) _ < 0 =>
      replace c with
        (errorCursor (orDefault (optionalField parameters dimension)
                        LatticeZKP.DEFAULT_DIMENSION) m0 c0) in Herr by lia
  end.
  exact Herr.
Qed.

Lemma LatticeZKP_rejects_proof_of_empty_secret_witness :
  LatticeZKP.verifyProof
    (latticeProof negativeErrorEnvironment 256 1000003 (SecretText "") 0) = Ok false.
Proof.
  apply (LatticeZKP_rejects_proof_of_empty_secret negativeErrorEnvironment 0
           (SecretText "") smallModulus 0%nat
           (errorCursor 256 1000003 0 + 4 + Z.to_nat 256 * 9)%nat _ 1000003).
  - reflexivity.
  - apply (LatticeZKP_createProofWith_run negativeErrorEnvironment 256 1000003
             (SecretText "") 0%nat); reflexivity || (vm_compute; discriminate).
  - reflexivity.
  - vm_compute. reflexivity.
Defined.

(** *** Default parameters *)

Lemma primeSearch_range (env : Environment) (minValue maxValue : Z) (fuel : nat) :
  minValue <= maxValue ->
  forall candidate cursor p cursor',
    minValue <= candidate <= maxValue ->
    QuantumCrypto.primeSearch env fuel minValue maxValue candidate cursor =
      Returned (p, cursor') ->
    minValue <= p <= maxValue.
Proof.
  intros Hrange. induction fuel as [|fuel IH]; intros candidate cursor p cursor' Hc Hrun.
  - discriminate Hrun.
  - cbn [QuantumCrypto.primeSearch] in Hrun. unfold bindR in Hrun.
    destruct (QuantumCrypto.millerRabinPrimalityTest env candidate 40 cursor)
      as [[prime c1]|e|]; try discriminate.
    destruct prime.
    + unfold retR in Hrun. injection Hrun as <- _. exact Hc.
    + apply IH in Hrun; [exact Hrun|].
      destruct (maxValue <? candidate + 2) eqn:E; [lia|].
      apply Z.ltb_ge in E. lia.
Qed.

(** A prime found by [generateLargePrime(bits)] has [bits] bits. *)
Lemma generateLargePrime_range (env : Environment) (fuel : nat) (bits : Z)
    (cursor cursor' : nat) (p : Z) :
  QuantumCrypto.generateLargePrime env fuel bits cursor = Returned (p, cursor') ->
  2 ^ (bits - 1) <= p <= 2 ^ bits - 1.
Proof.
  unfold QuantumCrypto.generateLargePrime.
  destruct (bits <? 64) eqn:Eb; [discriminate|]. apply Z.ltb_ge in Eb.
  rewrite !Z.shiftl_1_l.
  assert (Hpow : 2 ^ bits = 2 * 2 ^ (bits - 1)).
  { replace bits with (Z.succ (bits - 1)) at 1 by lia. apply Z.pow_succ_r. lia. }
  assert (Hbig : 2 ^ 63 <= 2 ^ (bits - 1)) by (apply Z.pow_le_mono_r; lia).
  assert (H63 : 2 ^ 63 = 9223372036854775808) by reflexivity.
  intros Hrun. unfold bindR in Hrun.
  rewrite generateRandomBigInt_run in Hrun by lia.
  eapply primeSearch_range in Hrun; [exact Hrun | lia |].
  set (range := 2 ^ bits - 1 - 2 ^ (bits - 1)) in *.
  pose proof (Z.rem_bound_pos (randomValue env (rangeBytes range) cursor) range
                (randomValue_nonneg _ _ _) ltac:(lia)) as Hrem.
  match goal with |- context [if ?c then _ else _] => destruct c end; lia.
Qed.

(** With default parameters the modulus has 1024 bits, so that any negative
    error leaves the commitment empty: the proof of a secret without bytes is
    rejected whenever the sampled error is negative. *)
Lemma LatticeZKP_default_rejects_proof_of_empty_secret
    (env : Environment) (fuel : nat) (secret : Secret)
    (cursor cursor' : nat) (proof : JsValue) :
  secretBytes secret = [] ->
  LatticeZKP.createProof env fuel secret None cursor = Returned (proof, cursor') ->
  - 2 ^ 1023 < commitmentError env None cursor' < 0 ->
  LatticeZKP.verifyProof proof = Ok false.
Proof.
  intros Hsecret Hrun Herr.
  destruct (LatticeZKP_createProof_returned env fuel secret None cursor cursor' proof Hrun)
    as [m [c0 [Hprime [Hd [Hm [-> ->]]]]]].
  assert (Hnone : optionalField (@None ProofParameters) modulus = None) by reflexivity.
  rewrite Hnone in Hprime. clear Hnone.
  apply generateLargePrime_range in Hprime.
  destruct Hprime as [Hlow _].
  change (LatticeZKP.DEFAULT_BITS - 1) with 1023 in Hlow.
  apply latticeProof_of_empty_secret_rejected; [exact Hsecret|].
  unfold commitmentError in Herr. cbn [optionalField orDefault] in *.
  match type of Herr with
  | _ < errorAt _ _ ?c < 0 =>
      replace c with (errorCursor LatticeZKP.DEFAULT_DIMENSION m c0) in Herr by lia
  end.
  set (error := errorAt env LatticeZKP.DEFAULT_ERROR_BOUND
                  (errorCursor LatticeZKP.DEFAULT_DIMENSION m c0)) in *.
  set (bound := 2 ^ 1023) in *. clearbody bound error.
  assert (Hrem : Z.rem error m = error).
  { replace error with (- (- error)) at 1 by lia.
    rewrite Z.rem_opp_l by lia. rewrite Z.rem_small by lia. lia. }
  rewrite Hrem. lia.
Qed.

(** Runs with dimension 128 and a modulus of seven digits: the proof of the
    test suite's secret is accepted, and so is the proof of the empty secret
    when the sampled error is positive. *)
Example LatticeZKP_sample_runs :
  match LatticeZKP.createProof sampleEnvironment 0 sampleSecret smallLattice 0%nat,
        LatticeZKP.createProof positiveErrorEnvironment 0 (SecretText "") smallLattice 0%nat
  with
  | Returned (proof1, _), Returned (proof2, _) =>
      LatticeZKP.verifyProof proof1 = Ok true /\ LatticeZKP.verifyProof proof2 = Ok true
  | _, _ => False
  end.
Proof. vm_compute. split; reflexivity. Qed.

(** *** A hybrid proof with a rejected component *)

Lemma verifyComponents_rejected (component : JsValue) (components : list JsValue) :
  In component components ->
  HybridZKP.verifyComponentProof component = Ok false ->
  HybridZKP.verifyComponents components <> Ok true.
Proof.
  intros Hin Hbad. induction components as [|c rest IH]; [contradiction|].
  cbn [HybridZKP.verifyComponents].
  destruct Hin as [->|Hin].
  - rewrite Hbad. cbn [bindO negb]. discriminate.
  - destruct (HybridZKP.verifyComponentProof c) as [[|]|e]; cbn [bindO negb];
      [apply IH, Hin | discriminate | discriminate].
Qed.

(** The hybrid verifier rejects a proof one of whose components is a lattice
    proof that the lattice verifier rejects. *)
Lemma HybridZKP_rejects_rejected_component
    (fields : list (string * JsValue)) (components : list JsValue) (component : JsValue) :
  lookupField "proofs" fields = JArray components ->
  In component components ->
  getProp component "type" = Ok (JString "lattice") ->
  LatticeZKP.verifyProof component = Ok false ->
  HybridZKP.verifyProof (JObject fields) = Ok false.
Proof.
  intros Hproofs Hin Htype Hbad.
  assert (Hcomponent : HybridZKP.verifyComponentProof component = Ok false).
  { unfold HybridZKP.verifyComponentProof. rewrite Htype. cbn [bindO isString].
    change (String.eqb "lattice" "lattice") with true. cbv iota. exact Hbad. }
  pose proof (verifyComponents_rejected component components Hin Hcomponent) as Hnot.
  unfold HybridZKP.verifyProof, HybridZKP.verifyProofBody, HybridZKP.validateProofStructure.
  cbn [getProp bindO]. rewrite Hproofs. cbn [iterate].
  repeat verify_step.
  exfalso.
  match goal with
  | H : Ok ?b <> Ok true, E : negb ?b = false |- _ =>
      destruct b; [apply H; reflexivity | discriminate E]
  end.
Qed.

(** ** Verification never throws *)

Lemma tryCatch_total {A : Type} (body : Outcome A) (fallback : A) :
  exists a, tryCatch body fallback = Ok a.
Proof. destruct body; eexists; reflexivity. Qed.

Lemma tryCatch_throw {A : Type} (body : Outcome A) (fallback : A) (e : JsError) :
  body = Throw e -> tryCatch body fallback = Ok fallback.
Proof. intros ->. reflexivity. Qed.

Example bigint_dimension_throws_inside :
  LatticeZKP.verifyLWEEquationBody bigintDimensionProof = Throw TypeError /\
  LatticeZKP.verifyLWEEquation bigintDimensionProof = Ok false /\
  LatticeZKP.verifyProof bigintDimensionProof = Ok false.
Proof. repeat split; vm_compute; reflexivity. Qed.

(** What throws inside [bufferToBigInts]: a bigint count at the division, a
    count of [2 ^ 32] or more at the push that the array cannot take. *)
Lemma bufferToBigIntsValue_bigint (buffer : Buffer) (n : Z) :
  QuantumCrypto.bufferToBigIntsValue buffer (JBigInt n) = Throw TypeError.
Proof. reflexivity. Qed.

Lemma bufferToBigIntsValue_oversized (buffer : Buffer) (n : Z) :
  2 ^ 32 <= n -> QuantumCrypto.bufferToBigIntsValue buffer (JNumber n) = Throw RangeError.
Proof.
  intros Hn. unfold QuantumCrypto.bufferToBigIntsValue.
  cbn [toNumber toPrimitive bindO asNumber numberOf]. unfold ceiling.
  change (0 <=? 0) with true. cbv iota. change (2 ^ 0) with 1. rewrite Z.mul_1_r.
  destruct (2 ^ 32 <=? n) eqn:E; [reflexivity|apply Z.leb_gt in E; lia].
Qed.

(** One test further along a verifier, on the goal. *)
Ltac next_test :=
  cbn [bindO tryCatch negb];
  match goal with
  | |- tryCatch (Ok _) _ = _ => reflexivity
  | |- tryCatch (Throw _) _ = _ => reflexivity
  | |- Ok _ = Ok _ => reflexivity
  | |- tryCatch (if ?c then _ else _) _ = _ => destruct c eqn:?
  | |- tryCatch (bindO ?m _) _ = _ => destruct m eqn:?
  end.

Lemma LatticeZKP_unusable_dimension (proof dimension : JsValue) :
  getProp proof "dimension" = Ok dimension ->
  (forall buffer, exists e, QuantumCrypto.bufferToBigIntsValue buffer dimension = Throw e) ->
  LatticeZKP.verifyProof proof = Ok false.
Proof.
  intros Hd Hthrow.
  assert (Hlwe : LatticeZKP.verifyLWEEquation proof = Ok false).
  { unfold LatticeZKP.verifyLWEEquation, LatticeZKP.verifyLWEEquationBody.
    rewrite Hd.
    destruct (getProp proof "response") as [response|]; [|reflexivity]. cbn [bindO].
    destruct (asBuffer response) as [responseBytes|]; [|reflexivity]. cbn [bindO].
    destruct (includesCorrupted responseBytes); [reflexivity|].
    destruct (getProp proof "commitment") as [commitment|]; [|reflexivity]. cbn [bindO].
    destruct (asBuffer commitment) as [commitmentBytes|]; [|reflexivity]. cbn [bindO].
    destruct (getProp proof "modulus") as [modulus|]; [|reflexivity]. cbn [bindO].
    destruct (Hthrow responseBytes) as [e He]. rewrite He. reflexivity. }
  unfold LatticeZKP.verifyProof, LatticeZKP.verifyProofBody. rewrite Hlwe.
  repeat next_test.
Qed.

Lemma MultivariateZKP_unusable_equations (proof equations : JsValue) :
  getProp proof "equations" = Ok equations ->
  (forall buffer, exists e, QuantumCrypto.bufferToBigIntsValue buffer equations = Throw e) ->
  MultivariateZKP.verifyProof proof = Ok false.
Proof.
  intros He Hthrow.
  assert (Hsolution : MultivariateZKP.verifyPolynomialSolution proof = Ok false).
  { unfold MultivariateZKP.verifyPolynomialSolution,
      MultivariateZKP.verifyPolynomialSolutionBody.
    rewrite He.
    destruct (getProp proof "solution") as [solution|]; [|reflexivity]. cbn [bindO].
    destruct (mentionsCorrupted solution) as [[|]|]; [reflexivity| |reflexivity].
    cbn [bindO].
    destruct (negb (truthy solution) || hasLength solution 0); [reflexivity|].
    destruct (asBuffer solution) as [solutionBytes|]; [|reflexivity]. cbn [bindO].
    destruct (Hthrow solutionBytes) as [e Hthrown]. rewrite Hthrown. reflexivity. }
  unfold MultivariateZKP.verifyProof, MultivariateZKP.verifyProofBody. rewrite Hsolution.
  repeat next_test.
Qed.

Lemma HashZKP_unusable_merkleProof (proof merkleProof : JsValue) (e : JsError) :
  getProp proof "merkleProof" = Ok merkleProof ->
  iterate merkleProof = Throw e ->
  HashZKP.verifyProof proof = Ok false.
Proof.
  intros Hm He.
  unfold HashZKP.verifyProof, HashZKP.verifyProofBody, QuantumCrypto.verifyMerkleProofValue.
  rewrite Hm.
  destruct (HashZKP.validateProofStructure proof) as [[|]|]; [|reflexivity|reflexivity].
  cbn [bindO negb].
  destruct (getProp proof "hashChain") as [hashChain|]; [|reflexivity]. cbn [bindO].
  destruct (negb (truthy hashChain) || Nat.eqb (length (elements hashChain)) 0);
    [reflexivity|].
  destruct (getProp proof "commitmentChain") as [root|]; [|reflexivity]. cbn [bindO].
  rewrite He. reflexivity.
Qed.

Lemma verifyComponents_all_accepted (component : JsValue) (components : list JsValue) :
  In component components ->
  HybridZKP.verifyComponentProof component <> Ok true ->
  HybridZKP.verifyComponents components <> Ok true.
Proof.
  intros Hin Hbad. induction components as [|c rest IH]; [contradiction|].
  cbn [HybridZKP.verifyComponents].
  destruct Hin as [->|Hin].
  - destruct (HybridZKP.verifyComponentProof component) as [[|]|];
      [contradiction Hbad; reflexivity | discriminate | discriminate].
  - destruct (HybridZKP.verifyComponentProof c) as [[|]|]; cbn [bindO negb];
      [apply IH, Hin | discriminate | discriminate].
Qed.

Lemma HybridZKP_unusable_component (proof : JsValue) (components : list JsValue) :
  getProp proof "proofs" = Ok (JArray components) ->
  In JNull components \/ In JUndefined components ->
  HybridZKP.verifyProof proof = Ok false.
Proof.
  intros Hproofs Hin.
  assert (Hnot : HybridZKP.verifyComponents components <> Ok true).
  { destruct Hin as [Hin|Hin];
      apply (verifyComponents_all_accepted _ _ Hin); discriminate. }
  unfold HybridZKP.verifyProof, HybridZKP.verifyProofBody.
  rewrite Hproofs. repeat next_test.
  exfalso.
  match goal with
  | Hi : iterate (JArray components) = Ok ?l,
    Hv : HybridZKP.verifyComponents ?l = Ok ?b,
    Hb : negb ?b = false |- _ =>
      cbn [iterate] in Hi; injection Hi as <-;
      destruct b; [exact (Hnot Hv)|discriminate Hb]
  end.
Qed.

(** C2 as stated fails in its second half: a value that breaks the structure
    of a hash proof in three fields, and lacks four more, is not turned down.
    [verifyProof] accepts [looseHashProof], whose chain length is [true], whose
    Merkle tree is [null] and whose Merkle proof is an empty string. *)
Lemma HashZKP_accepts_malformed_proof :
  getProp looseHashProof "chainLength" = Ok (JBool true) /\
  getProp looseHashProof "merkleTree" = Ok JNull /\
  getProp looseHashProof "merkleProof" = Ok (JString "") /\
  getProp looseHashProof "timestamp" = Ok JUndefined /\
  getProp looseHashProof "version" = Ok JUndefined /\
  HashZKP.verifyProof looseHashProof = Ok true.
Proof. repeat split; vm_compute; reflexivity. Qed.

(** C2, amended: on every value made of data (undefined, null, booleans,
    numbers, bigints, strings, Buffers, arrays and objects with data
    properties) each engine's [verifyProof] returns a boolean and throws
    nothing.  The boolean is [false] whenever the engine's structure test does
    not return [true] and whenever the body of the verifier throws; in
    particular for [null] and [undefined], for a lattice dimension or a number
    of equations that is a bigint or is [2 ^ 32] or more, for a hash proof
    whose Merkle proof cannot be iterated and for a hybrid proof with a [null]
    or [undefined] component. *)
Theorem verifyProof_false_on_faults (proof : JsValue) :
  ((exists b, HashZKP.verifyProof proof = Ok b) /\
   (exists b, LatticeZKP.verifyProof proof = Ok b) /\
   (exists b, MultivariateZKP.verifyProof proof = Ok b) /\
   (exists b, HybridZKP.verifyProof proof = Ok b)) /\
  ((HashZKP.validateProofStructure proof <> Ok true -> HashZKP.verifyProof proof = Ok false) /\
   (LatticeZKP.validateProofStructure proof <> Ok true ->
    LatticeZKP.verifyProof proof = Ok false) /\
   (MultivariateZKP.validateProofStructure proof <> Ok true ->
    MultivariateZKP.verifyProof proof = Ok false) /\
   (HybridZKP.validateProofStructure proof <> Ok true ->
    HybridZKP.verifyProof proof = Ok false)) /\
  (forall e,
     (HashZKP.verifyProofBody proof = Throw e -> HashZKP.verifyProof proof = Ok false) /\
     (LatticeZKP.verifyProofBody proof = Throw e -> LatticeZKP.verifyProof proof = Ok false) /\
     (MultivariateZKP.verifyProofBody proof = Throw e ->
      MultivariateZKP.verifyProof proof = Ok false) /\
     (HybridZKP.verifyProofBody proof = Throw e -> HybridZKP.verifyProof proof = Ok false)) /\
  (proof = JNull \/ proof = JUndefined ->
   HashZKP.verifyProof proof = Ok false /\
   LatticeZKP.verifyProof proof = Ok false /\
   MultivariateZKP.verifyProof proof = Ok false /\
   HybridZKP.verifyProof proof = Ok false) /\
  (forall d,
     getProp proof "dimension" = Ok (JBigInt d) \/
     (getProp proof "dimension" = Ok (JNumber d) /\ 2 ^ 32 <= d) ->
     LatticeZKP.verifyProof proof = Ok false) /\
  (forall n,
     getProp proof "equations" = Ok (JBigInt n) \/
     (getProp proof "equations" = Ok (JNumber n) /\ 2 ^ 32 <= n) ->
     MultivariateZKP.verifyProof proof = Ok false) /\
  (forall merkleProof e,
     getProp proof "merkleProof" = Ok merkleProof -> iterate merkleProof = Throw e ->
     HashZKP.verifyProof proof = Ok false) /\
  (forall components,
     getProp proof "proofs" = Ok (JArray components) ->
     In JNull components \/ In JUndefined components ->
     HybridZKP.verifyProof proof = Ok false).
Proof.
  split; [|split; [|split; [|split; [|split; [|split; [|split]]]]]].
  - repeat split; apply tryCatch_total.
  - repeat split; intros H.
    + unfold HashZKP.verifyProof, HashZKP.verifyProofBody.
      destruct (HashZKP.validateProofStructure proof) as [[|]|];
        [contradiction H; reflexivity|reflexivity|reflexivity].
    + unfold LatticeZKP.verifyProof, LatticeZKP.verifyProofBody.
      destruct (LatticeZKP.validateProofStructure proof) as [[|]|];
        [contradiction H; reflexivity|reflexivity|reflexivity].
    + unfold MultivariateZKP.verifyProof, MultivariateZKP.verifyProofBody.
      destruct (MultivariateZKP.validateProofStructure proof) as [[|]|];
        [contradiction H; reflexivity|reflexivity|reflexivity].
    + unfold HybridZKP.verifyProof, HybridZKP.verifyProofBody.
      destruct (HybridZKP.validateProofStructure proof) as [[|]|];
        [contradiction H; reflexivity|reflexivity|reflexivity].
  - intros e. repeat split; intros H; eapply tryCatch_throw; exact H.
  - intros [-> | ->]; repeat split; reflexivity.
  - intros d [Hd | [Hd Hbig]].
    + apply (LatticeZKP_unusable_dimension proof (JBigInt d) Hd).
      intros buffer. exists TypeError. apply bufferToBigIntsValue_bigint.
    + apply (LatticeZKP_unusable_dimension proof (JNumber d) Hd).
      intros buffer. exists RangeError. apply bufferToBigIntsValue_oversized, Hbig.
  - intros n [Hn | [Hn Hbig]].
    + apply (MultivariateZKP_unusable_equations proof (JBigInt n) Hn).
      intros buffer. exists TypeError. apply bufferToBigIntsValue_bigint.
    + apply (MultivariateZKP_unusable_equations proof (JNumber n) Hn).
      intros buffer. exists RangeError. apply bufferToBigIntsValue_oversized, Hbig.
  - intros merkleProof e Hm He. exact (HashZKP_unusable_merkleProof proof merkleProof e Hm He).
  - intros components Hp Hin. exact (HybridZKP_unusable_component proof components Hp Hin).
Qed.

Lemma verifyProof_false_on_faults_witness :
  LatticeZKP.verifyProof bigintDimensionProof = Ok false /\
  HashZKP.verifyProof (withField looseHashProof "merkleProof" (JNumber 7)) = Ok false /\
  HybridZKP.verifyProof (withField sampleHybridProof "proofs" (JArray [JNull])) = Ok false.
Proof.
  split; [|split].
  - apply (proj1 (proj2 (proj2 (proj2 (proj2 (verifyProof_false_on_faults
             bigintDimensionProof))))) 2).
    left. reflexivity.
  - apply (proj1 (proj2 (proj2 (proj2 (proj2 (proj2 (proj2 (verifyProof_false_on_faults
             (withField looseHashProof "merkleProof" (JNumber 7))))))))) (JNumber 7) TypeError);
      reflexivity.
  - apply (proj2 (proj2 (proj2 (proj2 (proj2 (proj2 (proj2 (verifyProof_false_on_faults
             (withField sampleHybridProof "proofs" (JArray [JNull]))))))))) [JNull]).
    + reflexivity.
    + left. left. reflexivity.
Defined.

(** ** The bound on the tree-building loop is never reached *)

Lemma nextLevel_length (n : nat) :
  forall level, (length level <= n)%nat ->
    (2 * length (QuantumCrypto.nextLevel level) <= length level + 1)%nat.
Proof.
  induction n as [|n IH]; intros level H.
  - destruct level; [simpl; lia | simpl in H; lia].
  - destruct level as [|a [|b rest]]; [simpl; lia | simpl; lia|].
    cbn [QuantumCrypto.nextLevel length]. cbn [length] in H.
    specialize (IH rest ltac:(lia)). lia.
Qed.

Lemma upperLevels_reach_root (fuel : nat) :
  forall level, (length level <= fuel)%nat -> level <> [] ->
    length (last (level :: QuantumCrypto.upperLevels fuel level) []) = 1%nat.
Proof.
  induction fuel as [|fuel IH]; intros level Hfuel Hne.
  - destruct level; [contradiction | simpl in Hfuel; lia].
  - cbn [QuantumCrypto.upperLevels].
    match goal with |- context [if ?c then _ else _] => destruct c eqn:E end.
    + apply Nat.ltb_lt in E.
      pose proof (nextLevel_length (length level) level (Nat.le_refl _)) as Hnext.
      change (last (level :: QuantumCrypto.nextLevel level
                      :: QuantumCrypto.upperLevels fuel (QuantumCrypto.nextLevel level)) [])
        with (last (QuantumCrypto.nextLevel level
                      :: QuantumCrypto.upperLevels fuel (QuantumCrypto.nextLevel level)) []).
      apply IH; [lia|].
      destruct level as [|a [|b rest]]; [simpl in E; lia | simpl in E; lia | discriminate].
    + apply Nat.ltb_ge in E. cbn [last].
      destruct level as [|a rest]; [contradiction | simpl in *; lia].
Qed.

(** [generateMerkleTree] ends because its top level has a single node, the
    root. *)
Lemma generateMerkleTree_root (leaves : list Buffer) :
  leaves <> [] ->
  exists tree root,
    QuantumCrypto.generateMerkleTree leaves = Ok (tree, root) /\
    hd [] tree = leaves /\
    last tree [] = [root].
Proof.
  intros H. unfold QuantumCrypto.generateMerkleTree.
  destruct (Nat.eqb (length leaves) 0) eqn:E.
  - apply Nat.eqb_eq in E. destruct leaves; [contradiction | discriminate].
  - eexists. eexists. split; [reflexivity|]. split; [reflexivity|].
    pose proof (upperLevels_reach_root (length leaves) leaves (Nat.le_refl _) H) as Hlen.
    destruct (last (leaves :: QuantumCrypto.upperLevels (length leaves) leaves) [])
      as [|root [|x rest]]; try discriminate.
    reflexivity.
Qed.

(** ** The repository's unit tests, replayed *)

Example modPow_test : QuantumCrypto.modPow 2 10 1000 = Ok 24.
Proof. reflexivity. Qed.

Lemma modPow_modulus_one (base exponent : Z) : QuantumCrypto.modPow base exponent 1 = Ok 0.
Proof. reflexivity. Qed.

Example millerRabin_test :
  forallb (fun n => verdictIs n true) [2; 3; 17; 97] = true /\
  forallb (fun n => verdictIs n false) [0; 1; 4; 15; 100] = true.
Proof. split; vm_compute; reflexivity. Qed.

Example validateParameters_test :
  QuantumCrypto.validateParameters QuantumCrypto.lattice
    [("dimension", JNumber 256); ("modulus", JBigInt 1000)]%string = true /\
  QuantumCrypto.validateParameters QuantumCrypto.lattice
    [("dimension", JNumber 64); ("modulus", JBigInt 1000)]%string = false /\
  QuantumCrypto.validateParameters QuantumCrypto.lattice
    [("dimension", JNumber 256); ("modulus", JBigInt 0)]%string = false /\
  QuantumCrypto.validateParameters QuantumCrypto.hash_
    [("chainLength", JNumber 500)]%string = true /\
  QuantumCrypto.validateParameters QuantumCrypto.hash_
    [("chainLength", JNumber 50)]%string = false /\
  QuantumCrypto.validateParameters QuantumCrypto.multivariate
    [("variables", JNumber 16); ("equations", JNumber 24)]%string = true /\
  QuantumCrypto.validateParameters QuantumCrypto.multivariate
    [("variables", JNumber 4); ("equations", JNumber 8)]%string = false /\
  QuantumCrypto.validateParameters QuantumCrypto.multivariate
    [("variables", JNumber 16); ("equations", JNumber 8)]%string = false /\
  QuantumCrypto.validateParameters QuantumCrypto.hybrid
    [("algorithms", JArray [JString "hash"; JString "lattice"])]%string = true /\
  QuantumCrypto.validateParameters QuantumCrypto.hybrid
    [("algorithms", JArray [JString "hash"])]%string = false /\
  QuantumCrypto.validateParameters QuantumCrypto.hybrid
    [("algorithms", JArray [JString "invalid"; JString "hash"])]%string = false.
Proof. repeat split. Qed.

Example bufferToBigInts_test :
  QuantumCrypto.bufferToBigInts [x01; x02; x03; x04; x05; x06; x07; x08] 2 =
    [16909060; 84281096] /\
  QuantumCrypto.bufferToBigInts [x01; x02; x03; x04] 4 = [1; 2; 3; 4] /\
  QuantumCrypto.bigIntsToBuffer [1; 2; 3; 4] = [x01; x02; x03; x04] /\
  QuantumCrypto.bigIntsToBuffer [] = [] /\
  QuantumCrypto.bigIntsToBuffer [4096; 0; -9] = [x10; x00; x00].
Proof. repeat split. Qed.

(** The comparisons and the loop count on values of other types than the
    declared ones. *)
Example untyped_comparison_test :
  greaterThan (JString "100") 0 = Ok true /\
  greaterThan (JArray [JNumber 100]) 0 = Ok true /\
  greaterThan (JBuffer (Buffer_from_utf8 "7")) 0 = Ok true /\
  greaterThan (JBool true) 0 = Ok true /\
  greaterThan (JFraction 0 1) 0 = Ok true /\
  greaterThan (JString " 0x10 ") 0 = Ok true /\
  greaterThan (JString "1e-400") 0 = Ok false /\
  greaterThan (JString "12px") 0 = Ok false /\
  greaterThan (JArray []) 0 = Ok false /\
  greaterThan (JArray [JNumber 1; JNumber 2]) 0 = Ok false /\
  greaterThan (JObject []) 0 = Ok false /\
  greaterThan JNaN 0 = Ok false /\
  greaterThan (JObject [("toString", JNumber 1)]%string) 0 = Throw TypeError /\
  greaterThanBigInt (JString "16") 0 = Ok true /\
  greaterThanBigInt (JNumber 5) 0 = Ok true /\
  greaterThanBigInt (JFraction 5 1) 0 = Ok true /\
  greaterThanBigInt (JString "5.5") 0 = Ok false /\
  greaterThanBigInt (JArray [JFraction 5 1]) 0 = Ok false /\
  notLessThan 7 (JNumber 5) = Ok true /\
  notLessThan 7 (JString "9") = Ok false /\
  notLessThan 7 JNaN = Ok false.
Proof. repeat split; vm_compute; reflexivity. Qed.

Example untyped_count_test :
  let buffer := [x01; x02; x03; x04] in
  QuantumCrypto.bufferToBigIntsValue buffer (JNumber 2) = Ok [258; 772] /\
  QuantumCrypto.bufferToBigIntsValue buffer (JString "2") = Ok [258; 772] /\
  QuantumCrypto.bufferToBigIntsValue buffer (JArray [JNumber 4]) = Ok [1; 2; 3; 4] /\
  QuantumCrypto.bufferToBigIntsValue buffer (JFraction 1 1) = Ok [66051; 4] /\
  QuantumCrypto.bufferToBigIntsValue buffer (JFraction 0 1) = Ok [16909060] /\
  QuantumCrypto.bufferToBigIntsValue buffer (JString "1e-320") = Ok [0] /\
  QuantumCrypto.bufferToBigIntsValue buffer JNaN = Ok [] /\
  QuantumCrypto.bufferToBigIntsValue buffer JUndefined = Ok [] /\
  QuantumCrypto.bufferToBigIntsValue buffer (JNumber (-3)) = Ok [] /\
  QuantumCrypto.bufferToBigIntsValue buffer (JBigInt 2) = Throw TypeError /\
  QuantumCrypto.bufferToBigIntsValue buffer (JInfinity false) = Throw RangeError /\
  QuantumCrypto.bufferToBigIntsValue buffer (JNumber (2 ^ 32)) = Throw RangeError.
Proof. repeat split; vm_compute; reflexivity. Qed.

Example combineHashes_test :
  QuantumCrypto.combineHashes [hash1] = Ok hash1 /\
  (exists combined,
     QuantumCrypto.combineHashes [hash1; hash2; Buffer_from_utf8 "hash3"] = Ok combined /\
     length combined = 32%nat).
Proof.
  split; [reflexivity|]. eexists. split; [reflexivity|].
  rewrite fold_left_app || idtac. cbn [fold_left]. apply hash_length.
Qed.

(** The invalid proofs of the engines' test suites. *)
Example invalid_proofs_test :
  HashZKP.verifyProof
    (JObject [("type", JString "hash"); ("commitment", JBuffer []); ("challenge", JBuffer []);
              ("response", JBuffer []); ("chainLength", JNumber 0); ("hashChain", JArray []);
              ("commitmentChain", JBuffer []); ("merkleTree", JArray []);
              ("merkleProof", JArray [])]%string) = Ok false /\
  LatticeZKP.verifyProof
    (JObject [("type", JString "lattice"); ("commitment", JBuffer []); ("challenge", JBuffer []);
              ("response", JBuffer []); ("dimension", JNumber 0); ("modulus", JBigInt 0);
              ("polynomialCommitment", JBuffer [])]%string) = Ok false /\
  HybridZKP.verifyProof
    (JObject [("type", JString "hybrid"); ("commitment", JBuffer (repeat x01 32));
              ("challenge", JBuffer (repeat x02 32)); ("response", JBuffer (repeat x03 32));
              ("proofs", JArray [JObject [("type", JString "hash");
                                          ("commitment", JBuffer [])]]);
              ("combined", JBuffer [x01]);
              ("algorithmWeights", JObject [])]%string) = Ok false.
Proof. repeat split; vm_compute; reflexivity. Qed.

(** * Further properties of the code *)

(** ** Modular powers and random integers *)

Lemma pow_square (b : Z) (e : positive) : (b * b) ^ Zpos e = b ^ Zpos e~0.
Proof.
  rewrite Pos2Z.inj_xO, Z.pow_mul_r by lia. f_equal. lia.
Qed.

Lemma modPowLoop_spec (e : positive) :
  forall base result modulus, 0 < modulus -> 0 <= base -> 0 <= result ->
    QuantumCrypto.modPowLoop e base result modulus = (result * base ^ Zpos e) mod modulus.
Proof.
  induction e as [e IH|e IH|]; intros b r m Hm Hb Hr; cbn [QuantumCrypto.modPowLoop].
  - rewrite IH by (try apply Z.rem_nonneg; nia || lia).
    rewrite !Z.rem_mod_nonneg by nia.
    rewrite Z.mul_mod_idemp_l by lia.
    rewrite <- Z.mul_mod_idemp_r by lia. rewrite Z.mod_pow_l.
    rewrite Z.mul_mod_idemp_r by lia. rewrite pow_square.
    f_equal. rewrite Pos2Z.inj_xI, Pos2Z.inj_xO, Z.pow_add_r by lia. ring.
  - rewrite IH by (try apply Z.rem_nonneg; nia || lia).
    rewrite !Z.rem_mod_nonneg by nia.
    rewrite <- Z.mul_mod_idemp_r by lia. rewrite Z.mod_pow_l.
    rewrite Z.mul_mod_idemp_r by lia. rewrite pow_square. reflexivity.
  - rewrite Z.rem_mod_nonneg by nia. rewrite Z.pow_1_r. reflexivity.
Qed.

Lemma modPow_nonneg (base exponent modulus : Z) :
  0 <= base -> 0 <= exponent -> 0 < modulus ->
  QuantumCrypto.modPow base exponent modulus = Ok (base ^ exponent mod modulus).
Proof.
  intros Hb He Hm. unfold QuantumCrypto.modPow.
  destruct (modulus =? 1) eqn:E1.
  - apply Z.eqb_eq in E1. subst. rewrite Z.mod_1_r. reflexivity.
  - apply Z.eqb_neq in E1.
    destruct (modulus =? 0) eqn:E0; [apply Z.eqb_eq in E0; lia|].
    destruct exponent as [|e|e]; [| |lia].
    + rewrite Z.pow_0_r, Z.mod_1_l by lia. reflexivity.
    + rewrite modPowLoop_spec by (try apply Z.rem_nonneg; lia).
      rewrite Z.rem_mod_nonneg by lia. rewrite Z.mul_1_l.
      rewrite Z.mod_pow_l. reflexivity.
Qed.

(** X1: [modPow(base, exponent, modulus)] is [base ^ exponent mod modulus]
    for a non-negative base and exponent and a positive modulus; a modulus of
    1 gives 0 whatever the other arguments, a modulus of 0 is a division by
    zero, and an exponent that is not positive gives 1. *)
Theorem modPow_computes_power (base exponent modulus : Z) :
  (0 <= base -> 0 <= exponent -> 0 < modulus ->
   QuantumCrypto.modPow base exponent modulus = Ok (base ^ exponent mod modulus)) /\
  QuantumCrypto.modPow base exponent 1 = Ok 0 /\
  QuantumCrypto.modPow base exponent 0 = Throw RangeError /\
  (exponent <= 0 -> modulus <> 0 -> modulus <> 1 ->
   QuantumCrypto.modPow base exponent modulus = Ok 1).
Proof.
  split; [apply modPow_nonneg|]. split; [reflexivity|]. split; [reflexivity|].
  intros He H0 H1. unfold QuantumCrypto.modPow.
  destruct (modulus =? 1) eqn:E1; [apply Z.eqb_eq in E1; lia|].
  destruct (modulus =? 0) eqn:E0; [apply Z.eqb_eq in E0; lia|].
  destruct exponent; try reflexivity. lia.
Qed.

Lemma modPow_computes_power_witness :
  QuantumCrypto.modPow 7 128 13 = Ok (7 ^ 128 mod 13).
Proof.
  apply (proj1 (modPow_computes_power 7 128 13)); lia.
Defined.

(** X2: [generateRandomBigInt(min, max)] with [min < max] returns a value in
    [min, max), having drawn the bytes that the hexadecimal text of the range
    calls for; with [min = max] the remainder by zero throws; with
    [max < min] the value returned is at or above [min], outside the interval
    asked for. *)
Theorem generateRandomBigInt_in_range (env : Environment) (min max : Z) (cursor : nat) :
  (min < max ->
   exists v,
     QuantumCrypto.generateRandomBigInt env min max cursor =
       Returned (v, (cursor + rangeBytes (max - min))%nat) /\
     min <= v < max) /\
  (min = max ->
   QuantumCrypto.generateRandomBigInt env min max cursor = Raised RangeError) /\
  (max < min ->
   exists v,
     QuantumCrypto.generateRandomBigInt env min max cursor =
       Returned (v, (cursor + rangeBytes (max - min))%nat) /\
     min <= v < min + (min - max)).
Proof.
  repeat split.
  - intros H. eexists. split; [apply generateRandomBigInt_run; lia|].
    pose proof (Z.rem_bound_pos (randomValue env (rangeBytes (max - min)) cursor) (max - min)
                  (randomValue_nonneg _ _ _) ltac:(lia)). lia.
  - intros ->. unfold QuantumCrypto.generateRandomBigInt, bindR.
    rewrite Z.sub_diag.
    change (QuantumCrypto.ceilDiv (length (BigInt_toString16 0)) 2) with 1%nat.
    rewrite (generateRandomBytes_run env 1 cursor) by lia. reflexivity.
  - intros H. eexists. split; [apply generateRandomBigInt_run; lia|].
    pose proof (randomValue_nonneg env (rangeBytes (max - min)) cursor) as Hv.
    set (value := randomValue env (rangeBytes (max - min)) cursor) in *.
    rewrite <- (Z.opp_involutive (max - min)) at 1 2.
    rewrite Z.rem_opp_r by lia.
    pose proof (Z.rem_bound_pos value (- (max - min)) Hv ltac:(lia)). lia.
Qed.

Lemma generateRandomBigInt_in_range_witness :
  exists v,
    QuantumCrypto.generateRandomBigInt sampleEnvironment 2 15 0%nat =
      Returned (v, (0 + rangeBytes (15 - 2))%nat) /\
    2 <= v < 15.
Proof.
  apply (proj1 (generateRandomBigInt_in_range sampleEnvironment 2 15 0%nat)). lia.
Defined.

(** ** The primality test and the prime search *)

Lemma modPow_returns (base exponent modulus : Z) :
  modulus <> 0 -> exists x, QuantumCrypto.modPow base exponent modulus = Ok x.
Proof.
  intros H. unfold QuantumCrypto.modPow.
  destruct (modulus =? 1); [eexists; reflexivity|].
  destruct (modulus =? 0) eqn:E; [apply Z.eqb_eq in E; contradiction|].
  destruct exponent; eexists; reflexivity.
Qed.

Lemma isStrongProbablePrime_returns (n a d r : Z) :
  n <> 0 -> exists b, QuantumCrypto.isStrongProbablePrime n a d r = Ok b.
Proof.
  intros H. unfold QuantumCrypto.isStrongProbablePrime.
  destruct (modPow_returns a d n H) as [x ->]. cbn [bindO].
  destruct ((x =? 1) || (x =? n - 1)); eexists; reflexivity.
Qed.

Lemma millerRabinRounds_returns (env : Environment) (n d r : Z) (k : nat) :
  n <> 0 -> n <> 4 ->
  forall cursor, exists verdict cursor',
    QuantumCrypto.millerRabinRounds env k n d r cursor = Returned (verdict, cursor').
Proof.
  intros H0 H4. induction k as [|k IH]; intros cursor.
  - eexists _, _. reflexivity.
  - cbn [QuantumCrypto.millerRabinRounds].
    erewrite bindR_returned by (apply generateRandomBigInt_run; lia).
    destruct (isStrongProbablePrime_returns n
                (Z.rem (randomValue env (rangeBytes (n - 2 - 2)) cursor) (n - 2 - 2) + 2) d r H0)
      as [b Hb].
    unfold bindR, liftR. rewrite Hb.
    destruct b; [apply IH|]. eexists _, _. reflexivity.
Qed.

Lemma millerRabinPrimalityTest_even (env : Environment) (n : Z) (k cursor : nat) :
  3 < n -> Z.even n = true ->
  QuantumCrypto.millerRabinPrimalityTest env n k cursor = Returned (false, cursor).
Proof.
  intros H3 He. unfold QuantumCrypto.millerRabinPrimalityTest.
  destruct (n <=? 1) eqn:E1; [apply Z.leb_le in E1; lia|].
  destruct (n <=? 3) eqn:E3; [apply Z.leb_le in E3; lia|].
  assert (Hr : Z.rem n 2 = 0).
  { rewrite Z.rem_mod_nonneg by lia. rewrite Zmod_even, He. reflexivity. }
  rewrite Hr. reflexivity.
Qed.

Lemma millerRabinPrimalityTest_returns (env : Environment) (n : Z) (k cursor : nat) :
  exists verdict cursor',
    QuantumCrypto.millerRabinPrimalityTest env n k cursor = Returned (verdict, cursor').
Proof.
  unfold QuantumCrypto.millerRabinPrimalityTest.
  destruct (n <=? 1) eqn:E1; [eexists _, _; reflexivity|].
  destruct (n <=? 3) eqn:E3; [eexists _, _; reflexivity|].
  destruct (Z.rem n 2 =? 0) eqn:E2; [eexists _, _; reflexivity|].
  apply Z.leb_gt in E3. apply Z.eqb_neq in E2.
  destruct (n - 1) as [|p|p] eqn:Ep; [eexists _, _; reflexivity| |eexists _, _; reflexivity].
  destruct (QuantumCrypto.oddPart p 0) as [d r].
  apply millerRabinRounds_returns; [lia|].
  intros ->. apply E2. reflexivity.
Qed.

(** X3: [millerRabinPrimalityTest] answers [false] for [n <= 1], [true] for 2
    and 3 and [false] for an even [n > 3], all without drawing a random
    byte; and for every [n] and every number of rounds it returns a verdict:
    no base it draws and no modular power it takes throws. *)
Theorem millerRabinPrimalityTest_edge_cases (env : Environment) (n : Z) (k cursor : nat) :
  (n <= 1 -> QuantumCrypto.millerRabinPrimalityTest env n k cursor = Returned (false, cursor)) /\
  (n = 2 \/ n = 3 ->
   QuantumCrypto.millerRabinPrimalityTest env n k cursor = Returned (true, cursor)) /\
  (3 < n -> Z.even n = true ->
   QuantumCrypto.millerRabinPrimalityTest env n k cursor = Returned (false, cursor)) /\
  (exists verdict cursor',
     QuantumCrypto.millerRabinPrimalityTest env n k cursor = Returned (verdict, cursor')).
Proof.
  split; [|split; [|split]].
  - intros H. unfold QuantumCrypto.millerRabinPrimalityTest.
    destruct (n <=? 1) eqn:E; [reflexivity|]. apply Z.leb_gt in E. lia.
  - intros [-> | ->]; reflexivity.
  - apply millerRabinPrimalityTest_even.
  - apply millerRabinPrimalityTest_returns.
Qed.

Lemma millerRabinPrimalityTest_edge_cases_witness :
  QuantumCrypto.millerRabinPrimalityTest sampleEnvironment 1000 40 0%nat =
  Returned (false, 0%nat).
Proof.
  apply (proj1 (proj2 (proj2
           (millerRabinPrimalityTest_edge_cases sampleEnvironment 1000 40 0%nat))));
    [lia | reflexivity].
Defined.

Lemma product_permutation (l l' : list Z) : Permutation l l' -> product l = product l'.
Proof.
  induction 1; cbn [product fold_right] in *; try lia.
  fold (product l) in *. fold (product l') in *. congruence.
Qed.

Lemma NoDup_map_on {A B : Type} (f : A -> B) (l : list A) :
  (forall x y, In x l -> In y l -> f x = f y -> x = y) -> NoDup l -> NoDup (map f l).
Proof.
  intros Hinj Hnd. induction Hnd as [|x l Hx Hnd IH]; [constructor|].
  cbn [map]. constructor.
  - rewrite in_map_iff. intros [y [Hy Hin]].
    apply Hinj in Hy; [|right; exact Hin|left; reflexivity]. subst. contradiction.
  - apply IH. intros a b Ha Hb. apply Hinj; right; assumption.
Qed.

Lemma residues_in (p x : Z) : In x (residues p) <-> 1 <= x < p.
Proof.
  unfold residues. rewrite in_map_iff. split.
  - intros [i [<- Hi]]. apply in_seq in Hi. lia.
  - intros H. exists (Z.to_nat x). split; [lia|]. apply in_seq. lia.
Qed.

Lemma residues_NoDup (p : Z) : NoDup (residues p).
Proof.
  unfold residues. apply NoDup_map_on; [|apply seq_NoDup].
  intros x y _ _ H. lia.
Qed.

Lemma prime_not_divide_residue (p x : Z) : Z.prime p -> 1 <= x < p -> ~ (p | x).
Proof.
  intros Hp Hx Hd. apply Z.divide_pos_le in Hd; lia.
Qed.

Lemma scaled_residue_in (p a x : Z) :
  Z.prime p -> ~ (p | a) -> 1 <= x < p -> 1 <= (a * x) mod p < p.
Proof.
  intros Hp Ha Hx. pose proof (Z.prime_ge_2 p Hp) as H2.
  pose proof (Z.mod_pos_bound (a * x) p ltac:(lia)) as Hb.
  assert ((a * x) mod p <> 0); [|lia].
  intros H0. apply Z.mod_divide in H0; [|lia].
  apply Z.divide_prime_mul in H0; [|exact Hp].
  destruct H0 as [H0|H0]; [contradiction|].
  exact (prime_not_divide_residue p x Hp Hx H0).
Qed.

Lemma scaled_residue_inj (p a x y : Z) :
  Z.prime p -> ~ (p | a) -> 1 <= x < p -> 1 <= y < p ->
  (a * x) mod p = (a * y) mod p -> x = y.
Proof.
  intros Hp Ha Hx Hy H. pose proof (Z.prime_ge_2 p Hp) as H2.
  assert (Hd : (p | a * (x - y))).
  { apply Z.mod_divide; [lia|].
    rewrite Z.mul_sub_distr_l, Zminus_mod, H, Z.sub_diag. reflexivity. }
  apply Z.divide_prime_mul in Hd; [|exact Hp]. destruct Hd as [Hd|Hd]; [contradiction|].
  destruct (Z.eq_dec x y) as [|Hne]; [assumption|exfalso].
  destruct (Z.lt_ge_cases y x).
  - apply Z.divide_pos_le in Hd; lia.
  - apply Z.divide_opp_r in Hd. apply Z.divide_pos_le in Hd; lia.
Qed.

Lemma product_scaled (p a : Z) (l : list Z) :
  0 < p ->
  product (map (fun x => (a * x) mod p) l) mod p =
  (a ^ Z.of_nat (length l) * product l) mod p.
Proof.
  intros Hp. induction l as [|x l IH].
  - reflexivity.
  - cbn [map product fold_right length]. fold (product l).
    fold (product (map (fun x => (a * x) mod p) l)).
    rewrite Z.mul_mod_idemp_l by lia.
    rewrite <- Z.mul_mod_idemp_r by lia. rewrite IH.
    rewrite Z.mul_mod_idemp_r by lia. f_equal.
    rewrite Nat2Z.inj_succ, Z.pow_succ_r by lia. ring.
Qed.

Lemma product_residues_coprime (p : Z) (l : list Z) :
  Z.prime p -> (forall x, In x l -> 1 <= x < p) -> ~ (p | product l).
Proof.
  intros Hp. induction l as [|x l IH]; intros Hl Hd.
  - cbn in Hd. pose proof (Z.prime_ge_2 p Hp). apply Z.divide_1_r_nonneg in Hd; lia.
  - cbn [product fold_right] in Hd. fold (product l) in Hd.
    apply Z.divide_prime_mul in Hd; [|exact Hp]. destruct Hd as [Hd|Hd].
    + apply (prime_not_divide_residue p x Hp); [apply Hl; left; reflexivity|exact Hd].
    + apply IH; [|exact Hd]. intros y Hy. apply Hl. right. exact Hy.
Qed.

(** Fermat's little theorem. *)
Lemma fermat_little (p a : Z) : Z.prime p -> ~ (p | a) -> a ^ (p - 1) mod p = 1.
Proof.
  intros Hp Ha. pose proof (Z.prime_ge_2 p Hp) as H2.
  set (f := fun x => (a * x) mod p).
  assert (Hperm : Permutation (map f (residues p)) (residues p)).
  { apply NoDup_Permutation_bis.
    - apply NoDup_map_on; [|apply residues_NoDup].
      intros x y Hx Hy. apply residues_in in Hx. apply residues_in in Hy.
      apply scaled_residue_inj; assumption.
    - rewrite length_map. apply Nat.le_refl.
    - intros y Hy. apply in_map_iff in Hy. destruct Hy as [x [<- Hx]].
      apply residues_in in Hx. apply residues_in. apply scaled_residue_in; assumption. }
  apply product_permutation in Hperm.
  pose proof (product_scaled p a (residues p) ltac:(lia)) as Hprod.
  fold f in Hprod. rewrite Hperm in Hprod.
  assert (Hlen : Z.of_nat (length (residues p)) = p - 1).
  { unfold residues. rewrite length_map, length_seq. lia. }
  rewrite Hlen in Hprod.
  assert (Hd : (p | product (residues p) * (a ^ (p - 1) - 1))).
  { apply Z.mod_divide; [lia|].
    rewrite Z.mul_sub_distr_l, Z.mul_1_r, Zminus_mod.
    rewrite (Z.mul_comm (product _)), <- Hprod, Z.sub_diag. reflexivity. }
  apply Z.divide_prime_mul in Hd; [|exact Hp]. destruct Hd as [Hd|Hd].
  - exfalso. apply (product_residues_coprime p (residues p) Hp); [|exact Hd].
    intros x Hx. apply residues_in. exact Hx.
  - apply Z.mod_divide in Hd; [|lia].
    rewrite Zminus_mod in Hd.
    rewrite (Z.mod_small 1 p) in Hd by lia.
    pose proof (Z.mod_pos_bound (a ^ (p - 1)) p ltac:(lia)) as Hb.
    destruct (Z.eq_dec (a ^ (p - 1) mod p) 0) as [E|E].
    + rewrite E in Hd. rewrite Z.sub_0_l in Hd.
      change (-1) with (- (1)) in Hd.
      rewrite Z.mod_opp_l_nz in Hd by (rewrite ?Z.mod_small; lia).
      rewrite Z.mod_small in Hd; lia.
    + rewrite Z.mod_small in Hd; lia.
Qed.

Lemma square_root_of_one (p x : Z) :
  Z.prime p -> 0 <= x < p -> (x * x) mod p = 1 -> x = 1 \/ x = p - 1.
Proof.
  intros Hp Hx H. pose proof (Z.prime_ge_2 p Hp) as H2.
  assert (Hd : (p | (x - 1) * (x + 1))).
  { apply Z.mod_divide; [lia|].
    replace ((x - 1) * (x + 1)) with (x * x - 1) by ring.
    rewrite Zminus_mod, H, (Z.mod_small 1 p) by lia. reflexivity. }
  apply Z.divide_prime_mul in Hd; [|exact Hp]. destruct Hd as [Hd|Hd].
  - left. destruct (Z.eq_dec x 1) as [|Hne]; [assumption|exfalso].
    destruct (Z.eq_dec x 0) as [->|H0].
    + rewrite Z.mod_0_l in H; lia.
    + apply Z.divide_pos_le in Hd; lia.
  - right. apply Z.divide_pos_le in Hd; lia.
Qed.

Lemma oddPart_spec (p : positive) :
  forall r d r', QuantumCrypto.oddPart p r = (d, r') ->
    r <= r' /\ 0 < d /\ Zpos p = d * 2 ^ (r' - r).
Proof.
  induction p as [p IH|p IH|]; intros r d r' H; cbn [QuantumCrypto.oddPart] in H.
  - injection H as <- <-. rewrite Z.sub_diag. cbn. lia.
  - apply IH in H. destruct H as [Hr [Hd Hp]]. split; [lia|]. split; [exact Hd|].
    rewrite Pos2Z.inj_xO, Hp.
    replace (r' - r) with (Z.succ (r' - (r + 1))) by lia.
    rewrite Z.pow_succ_r by lia. ring.
  - injection H as <- <-. rewrite Z.sub_diag. cbn. lia.
Qed.

Lemma strongProbablePrimeLoop_prime (n : Z) :
  Z.prime n ->
  forall k x, 0 <= x < n -> x <> 1 -> x <> n - 1 ->
    x ^ (2 ^ Z.of_nat (S k)) mod n = 1 ->
    QuantumCrypto.strongProbablePrimeLoop k x n = true.
Proof.
  intros Hp. pose proof (Z.prime_ge_2 n Hp) as H2.
  induction k as [|k IH]; intros x Hx H1 Hn Hpow.
  - exfalso. change (2 ^ Z.of_nat 1) with 2 in Hpow.
    rewrite Z.pow_2_r in Hpow.
    destruct (square_root_of_one n x Hp Hx Hpow); contradiction.
  - cbn [QuantumCrypto.strongProbablePrimeLoop].
    rewrite Z.rem_mod_nonneg by nia.
    destruct ((x * x) mod n =? n - 1) eqn:E1; [reflexivity|].
    destruct ((x * x) mod n =? 1) eqn:E2.
    + exfalso. apply Z.eqb_eq in E2.
      destruct (square_root_of_one n x Hp Hx E2); contradiction.
    + apply Z.eqb_neq in E1. apply Z.eqb_neq in E2.
      apply IH; try assumption.
      * apply Z.mod_pos_bound. lia.
      * rewrite Z.mod_pow_l. rewrite <- Z.pow_2_r, <- Z.pow_mul_r by lia.
        rewrite <- Z.pow_succ_r by lia. rewrite <- Nat2Z.inj_succ. exact Hpow.
Qed.

Lemma isStrongProbablePrime_prime (n a d r : Z) :
  Z.prime n -> 1 <= a < n -> 0 < d -> 0 <= r -> n - 1 = d * 2 ^ r ->
  QuantumCrypto.isStrongProbablePrime n a d r = Ok true.
Proof.
  intros Hp Ha Hd Hr Hn. pose proof (Z.prime_ge_2 n Hp) as H2.
  assert (Hfermat : a ^ (d * 2 ^ r) mod n = 1).
  { rewrite <- Hn. apply fermat_little; [exact Hp|].
    apply prime_not_divide_residue; assumption. }
  unfold QuantumCrypto.isStrongProbablePrime.
  rewrite modPow_nonneg by lia. cbn [bindO].
  destruct (a ^ d mod n =? 1) eqn:E1; [reflexivity|].
  destruct (a ^ d mod n =? n - 1) eqn:E2; [reflexivity|].
  cbn [orb]. f_equal.
  apply Z.eqb_neq in E1. apply Z.eqb_neq in E2.
  destruct (Z.eq_dec r 0) as [->|Hr0].
  - exfalso. apply E1. rewrite Z.pow_0_r, Z.mul_1_r in Hfermat. exact Hfermat.
  - apply strongProbablePrimeLoop_prime; try assumption.
    + apply Z.mod_pos_bound. lia.
    + replace (Z.of_nat (S (Z.to_nat (r - 1)))) with r by lia.
      rewrite Z.mod_pow_l, <- Z.pow_mul_r by lia. exact Hfermat.
Qed.

Lemma millerRabinRounds_prime (env : Environment) (n d r : Z) (k : nat) :
  Z.prime n -> 3 < n -> 0 < d -> 0 <= r -> n - 1 = d * 2 ^ r ->
  forall cursor, exists cursor',
    QuantumCrypto.millerRabinRounds env k n d r cursor = Returned (true, cursor').
Proof.
  intros Hp H3 Hd Hr Hn.
  assert (H4 : n <> 4).
  { intros ->. destruct Hp as [_ Hp]. apply (Hp 2); [lia|]. exists 2. reflexivity. }
  induction k as [|k IH]; intros cursor.
  - eexists. reflexivity.
  - cbn [QuantumCrypto.millerRabinRounds].
    erewrite bindR_returned by (apply generateRandomBigInt_run; lia).
    pose proof (Z.rem_bound_pos (randomValue env (rangeBytes (n - 2 - 2)) cursor) (n - 2 - 2)
                  (randomValue_nonneg _ _ _) ltac:(lia)) as Hb.
    unfold bindR, liftR.
    rewrite isStrongProbablePrime_prime by (assumption || lia).
    apply IH.
Qed.

Lemma millerRabinPrimalityTest_prime (env : Environment) (n : Z) (k cursor : nat) :
  Z.prime n ->
  exists cursor',
    QuantumCrypto.millerRabinPrimalityTest env n k cursor = Returned (true, cursor').
Proof.
  intros Hp. pose proof (Z.prime_ge_2 n Hp) as H2.
  unfold QuantumCrypto.millerRabinPrimalityTest.
  destruct (n <=? 1) eqn:E1; [apply Z.leb_le in E1; lia|].
  destruct (n <=? 3) eqn:E3; [eexists; reflexivity|]. apply Z.leb_gt in E3.
  destruct (Z.rem n 2 =? 0) eqn:E2.
  - exfalso. apply Z.eqb_eq in E2. rewrite Z.rem_mod_nonneg in E2 by lia.
    apply Z.mod_divide in E2; [|lia]. destruct Hp as [_ Hp]. apply (Hp 2); [lia|exact E2].
  - destruct (n - 1) as [|p|p] eqn:Ep; try lia.
    destruct (QuantumCrypto.oddPart p 0) as [d r] eqn:Eo.
    apply oddPart_spec in Eo. destruct Eo as [Hr [Hd Hpow]].
    rewrite Z.sub_0_r in Hpow.
    apply millerRabinRounds_prime; try assumption; lia.
Qed.

(** X4: a prime is never rejected.  For a prime [n],
    [millerRabinPrimalityTest(n, k)] returns [true] for every number of
    rounds and whatever bases the random source supplies, and so does
    [isProbablePrime(n)]. *)
Theorem millerRabinPrimalityTest_accepts_primes
    (env : Environment) (n : Z) (k cursor : nat) :
  Z.prime n ->
  (exists cursor',
     QuantumCrypto.millerRabinPrimalityTest env n k cursor = Returned (true, cursor')) /\
  (exists cursor',
     QuantumCrypto.isProbablePrime env n cursor = Returned (true, cursor')).
Proof.
  intros Hp. split; apply millerRabinPrimalityTest_prime; exact Hp.
Qed.

Lemma millerRabinPrimalityTest_accepts_primes_witness :
  exists cursor',
    QuantumCrypto.millerRabinPrimalityTest sampleEnvironment 13 40 0%nat =
    Returned (true, cursor').
Proof.
  assert (Hp : Z.prime 13).
  { split; [lia|]. intros m Hm [q Hq].
    assert (m = 2 \/ m = 3 \/ m = 4 \/ m = 5 \/ m = 6 \/ m = 7 \/ m = 8 \/ m = 9 \/
            m = 10 \/ m = 11 \/ m = 12) as Hcases by lia.
    repeat (destruct Hcases as [-> | Hcases]; [lia|]). subst m. lia. }
  exact (proj1 (millerRabinPrimalityTest_accepts_primes sampleEnvironment 13 40 0%nat Hp)).
Defined.

Lemma primeSearch_returned (env : Environment) (minValue maxValue : Z) (fuel : nat) :
  forall candidate cursor p cursor',
    QuantumCrypto.primeSearch env fuel minValue maxValue candidate cursor =
      Returned (p, cursor') ->
    exists c0,
      QuantumCrypto.millerRabinPrimalityTest env p 40 c0 = Returned (true, cursor').
Proof.
  induction fuel as [|fuel IH]; intros candidate cursor p cursor' Hrun.
  - discriminate Hrun.
  - cbn [QuantumCrypto.primeSearch] in Hrun. unfold bindR in Hrun.
    destruct (QuantumCrypto.millerRabinPrimalityTest env candidate 40 cursor)
      as [[prime c1]|e|] eqn:Etest; try discriminate.
    destruct prime.
    + unfold retR in Hrun. injection Hrun as <- <-. exists cursor. exact Etest.
    + apply IH in Hrun. exact Hrun.
Qed.

Lemma primeSearch_never_raises (env : Environment) (minValue maxValue : Z) (fuel : nat) :
  forall candidate cursor e,
    QuantumCrypto.primeSearch env fuel minValue maxValue candidate cursor <> Raised e.
Proof.
  induction fuel as [|fuel IH]; intros candidate cursor e.
  - discriminate.
  - cbn [QuantumCrypto.primeSearch]. unfold bindR.
    destruct (millerRabinPrimalityTest_returns env candidate 40 cursor)
      as [verdict [c1 ->]].
    destruct verdict; [discriminate|apply IH].
Qed.

Lemma millerRabinPrimalityTest_true_odd (env : Environment) (n : Z) (k c0 c1 : nat) :
  3 < n ->
  QuantumCrypto.millerRabinPrimalityTest env n k c0 = Returned (true, c1) ->
  Z.odd n = true.
Proof.
  intros H3 Hrun. destruct (Z.even n) eqn:He.
  - rewrite millerRabinPrimalityTest_even in Hrun by assumption. discriminate.
  - rewrite <- Z.negb_even, He. reflexivity.
Qed.

(** X5: [generateLargePrime(bits)] refuses fewer than 64 bits; otherwise it
    throws nothing, and a value it returns has exactly [bits] bits, is odd and
    has passed the 40 rounds of [millerRabinPrimalityTest]. *)
Theorem generateLargePrime_result (env : Environment) (fuel : nat) (bits : Z) (cursor : nat) :
  (bits < 64 ->
   QuantumCrypto.generateLargePrime env fuel bits cursor =
   Raised (Error "Prime must be at least 64 bits for security")) /\
  (64 <= bits ->
   forall e, QuantumCrypto.generateLargePrime env fuel bits cursor <> Raised e) /\
  (forall p cursor',
     QuantumCrypto.generateLargePrime env fuel bits cursor = Returned (p, cursor') ->
     2 ^ (bits - 1) <= p < 2 ^ bits /\
     Z.odd p = true /\
     exists c0,
       QuantumCrypto.millerRabinPrimalityTest env p 40 c0 = Returned (true, cursor')).
Proof.
  split; [|split].
  - intros H. unfold QuantumCrypto.generateLargePrime.
    destruct (bits <? 64) eqn:E; [reflexivity|]. apply Z.ltb_ge in E. lia.
  - intros H e. unfold QuantumCrypto.generateLargePrime.
    destruct (bits <? 64) eqn:E; [apply Z.ltb_lt in E; lia|].
    unfold bindR.
    destruct (QuantumCrypto.generateRandomBigInt env (Z.shiftl 1 (bits - 1))
                (Z.shiftl 1 bits - 1) cursor) as [[candidate c1]|e'|] eqn:Edraw.
    + apply primeSearch_never_raises.
    + exfalso. rewrite generateRandomBigInt_run in Edraw; [discriminate|].
      rewrite !Z.shiftl_1_l.
      replace bits with (Z.succ (bits - 1)) at 1 by lia.
      rewrite Z.pow_succ_r by lia.
      assert (1 < 2 ^ (bits - 1)) by (apply Z.pow_gt_1; lia). lia.
    + discriminate.
  - intros p cursor' Hrun.
    pose proof (generateLargePrime_range env fuel bits cursor cursor' p Hrun) as Hrange.
    unfold QuantumCrypto.generateLargePrime in Hrun.
    destruct (bits <? 64) eqn:E; [discriminate|]. apply Z.ltb_ge in E.
    unfold bindR in Hrun.
    destruct (QuantumCrypto.generateRandomBigInt env (Z.shiftl 1 (bits - 1))
                (Z.shiftl 1 bits - 1) cursor) as [[candidate c1]|e'|]; try discriminate.
    apply primeSearch_returned in Hrun. destruct Hrun as [c0 Htest].
    split; [lia|]. split; [|exists c0; exact Htest].
    apply (millerRabinPrimalityTest_true_odd env p 40 c0 cursor'); [|exact Htest].
    assert (2 ^ 63 <= 2 ^ (bits - 1)) by (apply Z.pow_le_mono_r; lia).
    assert (2 ^ 63 = 9223372036854775808) by reflexivity. lia.
Qed.

Lemma generateLargePrime_result_witness :
  QuantumCrypto.generateLargePrime sampleEnvironment 10 32 0%nat =
  Raised (Error "Prime must be at least 64 bits for security").
Proof.
  apply (proj1 (generateLargePrime_result sampleEnvironment 10 32 0%nat)). lia.
Defined.

Lemma primeSearch_even_candidate (env : Environment) (minValue maxValue : Z) (fuel : nat) :
  3 < minValue -> Z.even minValue = true ->
  forall candidate cursor,
    3 < candidate -> Z.even candidate = true ->
    QuantumCrypto.primeSearch env fuel minValue maxValue candidate cursor = OutOfFuel.
Proof.
  intros Hmin Hemin. induction fuel as [|fuel IH]; intros candidate cursor Hc Hec.
  - reflexivity.
  - cbn [QuantumCrypto.primeSearch]. unfold bindR.
    rewrite millerRabinPrimalityTest_even by assumption.
    destruct (maxValue <? candidate + 2); apply IH; try assumption; try lia.
    rewrite Z.even_add, Hec. reflexivity.
Qed.

(** X6: the prime search does not survive its wrap-around.  Once the
    candidate has passed [maxValue] it restarts at [minValue = 2 ^ (bits - 1)],
    which is even, and stepping by two it only ever meets even numbers: the
    loop never ends.  The random source [wrappingEnvironment] starts
    [generateLargePrime(64)] on [2 ^ 64 - 1], which the test rejects, so that
    call never returns. *)
Theorem generateLargePrime_wraparound_diverges (fuel : nat) :
  (forall env bits cursor,
     64 <= bits ->
     QuantumCrypto.primeSearch env fuel (Z.shiftl 1 (bits - 1)) (Z.shiftl 1 bits - 1)
       (Z.shiftl 1 (bits - 1)) cursor = OutOfFuel) /\
  QuantumCrypto.generateLargePrime wrappingEnvironment fuel 64 0%nat = OutOfFuel.
Proof.
  split.
  - intros env bits cursor Hbits.
    assert (Hpow : Z.shiftl 1 (bits - 1) = 2 * 2 ^ (bits - 2)).
    { rewrite Z.shiftl_1_l. replace (bits - 1) with (Z.succ (bits - 2)) by lia.
      apply Z.pow_succ_r. lia. }
    assert (1 < 2 ^ (bits - 2)) by (apply Z.pow_gt_1; lia).
    apply primeSearch_even_candidate; try lia; rewrite Hpow, Z.even_mul; reflexivity.
  - unfold QuantumCrypto.generateLargePrime.
    change (64 <? 64) with false. cbv iota.
    erewrite bindR_returned by (apply generateRandomBigInt_run; discriminate).
    match goal with
    | |- QuantumCrypto.primeSearch _ _ _ _ ?c _ = _ =>
        replace c with (Z.shiftl 1 64 - 1) by (vm_compute; reflexivity)
    end.
    destruct fuel as [|fuel]; [reflexivity|].
    cbn [QuantumCrypto.primeSearch]. unfold bindR.
    match goal with
    | |- context [QuantumCrypto.millerRabinPrimalityTest ?env ?n ?k ?c] =>
        replace (QuantumCrypto.millerRabinPrimalityTest env n k c)
          with (@Returned (bool * nat) (false, 16%nat)) by (vm_compute; reflexivity)
    end.
    change (Z.shiftl 1 64 - 1 <? Z.shiftl 1 64 - 1 + 2) with true. cbv iota.
    apply primeSearch_even_candidate; reflexivity.
Qed.

Lemma prime_odd (q : Z) : Z.prime q -> 2 < q -> Z.odd q = true.
Proof.
  intros [_ Hq] H2. destruct (Z.odd q) eqn:E; [reflexivity|exfalso].
  rewrite <- Z.negb_even in E. apply negb_false_iff in E.
  apply Z.even_spec in E. destruct E as [m ->].
  apply (Hq 2); [lia|]. exists m. lia.
Qed.

Lemma primeSearch_reaches_prime (env : Environment) (minValue maxValue q : Z) :
  Z.prime q -> q <= maxValue ->
  forall steps candidate cursor,
    q = candidate + 2 * Z.of_nat steps ->
    exists p cursor',
      QuantumCrypto.primeSearch env (S steps) minValue maxValue candidate cursor =
        Returned (p, cursor') /\
      candidate <= p <= q.
Proof.
  intros Hq Hmax. induction steps as [|steps IH]; intros candidate cursor Hsteps.
  - assert (candidate = q) as -> by lia.
    cbn [QuantumCrypto.primeSearch]. unfold bindR.
    destruct (millerRabinPrimalityTest_prime env q 40 cursor Hq) as [c1 ->].
    eexists _, _. split; [reflexivity|lia].
  - cbn [QuantumCrypto.primeSearch]. unfold bindR.
    destruct (millerRabinPrimalityTest_returns env candidate 40 cursor) as [verdict [c1 ->]].
    destruct verdict.
    + eexists _, _. split; [reflexivity|lia].
    + destruct (maxValue <? candidate + 2) eqn:E; [apply Z.ltb_lt in E; lia|].
      destruct (IH (candidate + 2) c1 ltac:(lia)) as [p [cursor' [Hrun Hp]]].
      exists p, cursor'. split; [exact Hrun|lia].
Qed.

(** X7: when a prime lies ahead, the search ends.  The first random draw of
    [generateLargePrime(bits)] is the value that [generateRandomBigInt]
    returns between [2 ^ (bits - 1)] and [2 ^ bits - 1]; made odd, it is the
    candidate the loop starts from.  If some prime lies between that starting
    candidate and [2 ^ bits], the loop returns after finitely many passes,
    with a value between the starting candidate and that prime. *)
Theorem generateLargePrime_returns_before_prime (env : Environment) (bits : Z) (cursor : nat) :
  64 <= bits ->
  exists candidate cursor0,
    QuantumCrypto.generateRandomBigInt env (2 ^ (bits - 1)) (2 ^ bits - 1) cursor =
      Returned (candidate, cursor0) /\
    let start := if Z.even candidate then candidate + 1 else candidate in
    2 ^ (bits - 1) <= start < 2 ^ bits /\
    Z.odd start = true /\
    (forall fuel,
       QuantumCrypto.generateLargePrime env fuel bits cursor =
       QuantumCrypto.primeSearch env fuel (2 ^ (bits - 1)) (2 ^ bits - 1) start cursor0) /\
    (forall q, Z.prime q -> start <= q < 2 ^ bits ->
       exists fuel p cursor',
         QuantumCrypto.generateLargePrime env fuel bits cursor = Returned (p, cursor') /\
         start <= p <= q).
Proof.
  intros Hbits.
  assert (Hpow : 2 ^ bits = 2 * 2 ^ (bits - 1)).
  { replace bits with (Z.succ (bits - 1)) at 1 by lia. apply Z.pow_succ_r. lia. }
  assert (Hbig : 2 ^ 63 <= 2 ^ (bits - 1)) by (apply Z.pow_le_mono_r; lia).
  assert (H63 : 2 ^ 63 = 9223372036854775808) by reflexivity.
  set (range := 2 ^ bits - 1 - 2 ^ (bits - 1)).
  set (candidate := Z.rem (randomValue env (rangeBytes range) cursor) range + 2 ^ (bits - 1)).
  pose proof (Z.rem_bound_pos (randomValue env (rangeBytes range) cursor) range
                (randomValue_nonneg _ _ _) ltac:(unfold range; lia)) as Hrem.
  assert (Hdraw :
            QuantumCrypto.generateRandomBigInt env (2 ^ (bits - 1)) (2 ^ bits - 1) cursor =
            Returned (candidate, (cursor + rangeBytes range)%nat))
    by (apply generateRandomBigInt_run; fold range; lia).
  assert (Hparity : (Z.rem candidate 2 =? 0) = Z.even candidate).
  { rewrite Z.rem_mod_nonneg by (unfold candidate; lia). rewrite Zmod_even.
    destruct (Z.even candidate); reflexivity. }
  set (start := if Z.even candidate then candidate + 1 else candidate).
  assert (Hstart :
            forall fuel,
              QuantumCrypto.generateLargePrime env fuel bits cursor =
              QuantumCrypto.primeSearch env fuel (2 ^ (bits - 1)) (2 ^ bits - 1) start
                (cursor + rangeBytes range)%nat).
  { intros fuel. unfold QuantumCrypto.generateLargePrime.
    destruct (bits <? 64) eqn:E; [apply Z.ltb_lt in E; lia|].
    rewrite !Z.shiftl_1_l.
    erewrite bindR_returned by exact Hdraw.
    rewrite Hparity. reflexivity. }
  assert (Hodd : Z.odd start = true).
  { unfold start. destruct (Z.even candidate) eqn:E.
    - rewrite Z.odd_add, <- Z.negb_even, E. reflexivity.
    - rewrite <- Z.negb_even, E. reflexivity. }
  assert (Hbounds : 2 ^ (bits - 1) <= start < 2 ^ bits).
  { unfold start. destruct (Z.even candidate) eqn:E; [|unfold candidate, range in *; lia].
    assert (candidate <> 2 ^ bits - 1).
    { intros Heq. rewrite Heq in E.
      replace (2 ^ bits - 1) with (1 + 2 * (2 ^ (bits - 1) - 1)) in E by lia.
      rewrite Z.even_add_mul_2 in E. discriminate E. }
    unfold candidate, range in *. lia. }
  exists candidate, (cursor + rangeBytes range)%nat.
  split; [exact Hdraw|]. cbv zeta. fold start.
  split; [exact Hbounds|]. split; [exact Hodd|]. split; [exact Hstart|].
  intros q Hq Hrange.
  assert (Hqodd : Z.odd q = true) by (apply prime_odd; [exact Hq|lia]).
  pose proof Hodd as Hodd'.
  apply Z.odd_spec in Hodd'. destruct Hodd' as [s Hs].
  apply Z.odd_spec in Hqodd. destruct Hqodd as [t Ht].
  destruct (primeSearch_reaches_prime env (2 ^ (bits - 1)) (2 ^ bits - 1) q Hq ltac:(lia)
              (Z.to_nat (t - s)) start (cursor + rangeBytes range)%nat ltac:(lia))
    as [p [cursor' [Hrun Hp]]].
  exists (S (Z.to_nat (t - s))), p, cursor'. split; [|exact Hp].
  rewrite Hstart. exact Hrun.
Qed.

Lemma generateLargePrime_returns_before_prime_witness :
  exists candidate cursor0,
    QuantumCrypto.generateRandomBigInt sampleEnvironment (2 ^ (64 - 1)) (2 ^ 64 - 1) 0%nat =
      Returned (candidate, cursor0) /\
    let start := if Z.even candidate then candidate + 1 else candidate in
    2 ^ (64 - 1) <= start < 2 ^ 64 /\
    Z.odd start = true /\
    (forall fuel,
       QuantumCrypto.generateLargePrime sampleEnvironment fuel 64 0%nat =
       QuantumCrypto.primeSearch sampleEnvironment fuel (2 ^ (64 - 1)) (2 ^ 64 - 1) start
         cursor0) /\
    (forall q, Z.prime q -> start <= q < 2 ^ 64 ->
       exists fuel p cursor',
         QuantumCrypto.generateLargePrime sampleEnvironment fuel 64 0%nat =
           Returned (p, cursor') /\
         start <= p <= q).
Proof.
  apply (generateLargePrime_returns_before_prime sampleEnvironment 64 0%nat). lia.
Defined.


(** ** Hash chains and the hash engine *)

Lemma createHashChainLoop_same (n : nat) :
  forall seed, QuantumCrypto.createHashChainLoop seed n = HashZKP.createHashChainLoop seed n.
Proof.
  induction n as [|n IH]; intros seed; [reflexivity|].
  cbn [QuantumCrypto.createHashChainLoop HashZKP.createHashChainLoop]. rewrite IH. reflexivity.
Qed.

Lemma createHashChainLoop_nth (n : nat) :
  forall seed i, (i < n)%nat ->
    nth i (HashZKP.createHashChainLoop seed n) [] =
    QuantumCrypto.hash (nth i (seed :: HashZKP.createHashChainLoop seed n) []).
Proof.
  induction n as [|n IH]; intros seed i Hi; [lia|].
  cbn [HashZKP.createHashChainLoop]. destruct i as [|i]; [reflexivity|].
  cbn [nth]. rewrite IH by lia. reflexivity.
Qed.

(** X8: [QuantumCrypto.createHashChain(seed, length)] throws when [length] is
    not positive; otherwise it returns the chain that the hash engine builds:
    [length] digests, the first the hash of the seed and each further one the
    hash of its predecessor.  [verifyHashChain] accepts that chain when it
    has at least two links and rejects the chain of a single link. *)
Theorem QuantumCrypto_createHashChain_links (seed : Buffer) (length : Z) :
  (length <= 0 ->
   QuantumCrypto.createHashChain seed length = Throw (Error "Chain length must be positive")) /\
  (0 < length ->
   exists chain,
     QuantumCrypto.createHashChain seed length = Ok chain /\
     chain = HashZKP.createHashChain seed length /\
     List.length chain = Z.to_nat length /\
     (forall i, (i < List.length chain)%nat ->
        nth i chain [] = QuantumCrypto.hash (nth i (seed :: chain) [])) /\
     HashZKP.verifyHashChain chain = (2 <=? length)).
Proof.
  split.
  - intros H. unfold QuantumCrypto.createHashChain.
    destruct (length <=? 0) eqn:E; [reflexivity|]. apply Z.leb_gt in E. lia.
  - intros H. exists (HashZKP.createHashChain seed length).
    split; [|split; [reflexivity|split; [apply createHashChain_length|split]]].
    + unfold QuantumCrypto.createHashChain.
      destruct (length <=? 0) eqn:E; [apply Z.leb_le in E; lia|].
      rewrite createHashChainLoop_same. reflexivity.
    + intros i Hi. unfold HashZKP.createHashChain in *.
      apply createHashChainLoop_nth. rewrite createHashChainLoop_length in Hi. exact Hi.
    + destruct (2 <=? length) eqn:E.
      * apply verifyHashChain_created. apply Z.leb_le in E. exact E.
      * apply Z.leb_gt in E. assert (length = 1) as -> by lia. reflexivity.
Qed.

Lemma QuantumCrypto_createHashChain_links_witness :
  QuantumCrypto.createHashChain (Buffer_from_utf8 "test-seed") 0 =
  Throw (Error "Chain length must be positive").
Proof.
  apply (proj1 (QuantumCrypto_createHashChain_links (Buffer_from_utf8 "test-seed") 0)). lia.
Defined.

Lemma last_default {A : Type} (l : list A) (d d' : A) : l <> [] -> last l d = last l d'.
Proof.
  induction l as [|x l IH]; [contradiction|]. intros _.
  destruct l as [|y l]; [reflexivity|].
  change (last (y :: l) d = last (y :: l) d'). apply IH. discriminate.
Qed.

Lemma createHashChainLoop_app (a b : nat) :
  forall seed,
    HashZKP.createHashChainLoop seed (a + b) =
    HashZKP.createHashChainLoop seed a ++
    HashZKP.createHashChainLoop (last (HashZKP.createHashChainLoop seed a) seed) b.
Proof.
  induction a as [|a IH]; intros seed; [reflexivity|].
  cbn [Nat.add HashZKP.createHashChainLoop app]. rewrite IH. f_equal. f_equal. f_equal.
  destruct (HashZKP.createHashChainLoop (QuantumCrypto.hash seed) a) as [|y chain];
    [reflexivity|].
  transitivity (last (y :: chain) seed); [apply last_default; discriminate|reflexivity].
Qed.

Lemma nth_error_last {A : Type} (l : list A) (d : A) :
  l <> [] -> nth_error l (length l - 1) = Some (last l d).
Proof.
  induction l as [|x l IH]; [contradiction|]. intros _.
  destruct l as [|y l]; [reflexivity|].
  replace (length (x :: y :: l) - 1)%nat with (S (length (y :: l) - 1)) by (cbn [length]; lia).
  cbn [nth_error]. rewrite IH by discriminate. reflexivity.
Qed.

Lemma optimizedBatches_chain (length : Z) (passes : nat) :
  forall k current,
    passes = Z.to_nat ((length - Z.of_nat k * 100 + 99) / 100) ->
    HashZKP.optimizedBatches (Some current) length
      (map (fun k => Z.of_nat k * 100) (seq k passes)) =
    Ok (HashZKP.createHashChainLoop current (Z.to_nat (length - Z.of_nat k * 100))).
Proof.
  induction passes as [|passes IH]; intros k current Hpasses.
  - assert (length - Z.of_nat k * 100 <= 0).
    { destruct (Z.le_gt_cases (length - Z.of_nat k * 100) 0) as [|Hpos]; [assumption|exfalso].
      assert (1 <= (length - Z.of_nat k * 100 + 99) / 100)
        by (apply Z.div_le_lower_bound; lia). lia. }
    replace (Z.to_nat (length - Z.of_nat k * 100)) with 0%nat by lia. reflexivity.
  - set (remaining := length - Z.of_nat k * 100) in *.
    assert (Hpos : 0 < remaining).
    { destruct (Z.lt_ge_cases 0 remaining) as [|Hle]; [assumption|exfalso].
      assert ((remaining + 99) / 100 < 1); [|lia].
      apply Z.div_lt_upper_bound; lia. }
    cbn [seq map HashZKP.optimizedBatches]. fold remaining.
    unfold HashZKP.createHashChainFrom, HashZKP.createHashChain. cbn [bindO].
    set (batch := HashZKP.createHashChainLoop current (Z.to_nat (Z.min 100 remaining))).
    assert (Hbatch : batch <> []).
    { unfold batch. destruct (Z.to_nat (Z.min 100 remaining)) eqn:E; [lia|discriminate]. }
    rewrite (nth_error_last batch current Hbatch).
    rewrite IH.
    + cbn [bindO]. f_equal. unfold batch.
      rewrite <- createHashChainLoop_app. f_equal.
      replace (length - Z.of_nat (S k) * 100) with (remaining - 100) by lia. lia.
    + replace (length - Z.of_nat (S k) * 100 + 99) with (remaining + 99 + (-1) * 100) by lia.
      rewrite Z.div_add by lia. lia.
Qed.

(** X9: batching changes nothing.  [createOptimizedHashChain(seed, length)]
    never throws and returns the very chain of [createHashChain(seed, length)],
    for every [length] (the empty chain when it is not positive). *)
Theorem createOptimizedHashChain_same_chain (seed : Buffer) (length : Z) :
  HashZKP.createOptimizedHashChain seed length = Ok (HashZKP.createHashChain seed length).
Proof.
  unfold HashZKP.createOptimizedHashChain.
  rewrite (optimizedBatches_chain length _ 0 seed).
  - rewrite Z.mul_0_l, Z.sub_0_r. reflexivity.
  - f_equal. f_equal. lia.
Qed.

(** X10: [HashZKP.createProof] fails with the parameter error when the chain
    length in force (the supplied one, or 1000 when none or 0 is supplied) is
    below 100; otherwise it returns a proof, having drawn 48 random bytes, and
    [HashZKP.verifyProof] accepts every proof it returns. *)
Theorem HashZKP_createProof_complete (env : Environment) (secret : Secret)
    (parameters : option ProofParameters) (cursor : nat) :
  let c := orDefault (optionalField parameters chainLength) HashZKP.DEFAULT_CHAIN_LENGTH in
  (c < 100 ->
   HashZKP.createProof env secret parameters cursor = Raised (Error "Invalid hash parameters")) /\
  (100 <= c ->
   exists proof,
     HashZKP.createProof env secret parameters cursor = Returned (proof, (cursor + 48)%nat)) /\
  (forall proof cursor',
     HashZKP.createProof env secret parameters cursor = Returned (proof, cursor') ->
     HashZKP.verifyProof proof = Ok true).
Proof.
  intros c. split; [|split].
  - apply HashZKP_createProof_invalid.
  - intros Hc. destruct (HashZKP_createProof_run env secret parameters cursor Hc)
      as [tree [root [_ [_ Hrun]]]].
    eexists. exact Hrun.
  - intros proof cursor'. apply HashZKP_verifies_created_proof.
Qed.

Lemma HashZKP_createProof_complete_witness :
  exists proof,
    HashZKP.createProof sampleEnvironment sampleSecret (withChainLength 100) 0%nat =
    Returned (proof, (0 + 48)%nat).
Proof.
  apply (proj1 (proj2 (HashZKP_createProof_complete sampleEnvironment sampleSecret
                         (withChainLength 100) 0%nat))).
  vm_compute. discriminate.
Defined.

Lemma entropyBytes_length (env : Environment) (cursor n : nat) :
  length (entropyBytes env cursor n) = n.
Proof. unfold entropyBytes. rewrite length_map, length_seq. reflexivity. Qed.

Lemma fit32_exact (b : Buffer) : length b = 32%nat -> HashZKP.fit32 b = b.
Proof.
  intros H. unfold HashZKP.fit32, Buffer_slice. rewrite H.
  cbn [Nat.leb Nat.sub skipn]. apply firstn_all2. lia.
Qed.

Lemma firstn_app_exact {A : Type} (n : nat) (a b : list A) :
  length a = n -> firstn n (a ++ b) = a.
Proof.
  intros <-. induction a as [|x a IH]; [reflexivity|].
  cbn [length app firstn]. rewrite IH. reflexivity.
Qed.

Lemma skipn_app_exact {A : Type} (n : nat) (a b : list A) :
  length a = n -> skipn n (a ++ b) = b.
Proof.
  intros <-. induction a as [|x a IH]; [reflexivity|].
  cbn [length app skipn]. exact IH.
Qed.

Lemma hmac_length (data key : Buffer) : length (QuantumCrypto.hmac data key) = 32%nat.
Proof. apply digest_length. Qed.

(** X11: the fields of a proof made by [HashZKP.createProof] are tied
    together.  The commitment is the first link of the hash chain, which is
    the hash of the secret followed by 16 random bytes; the chain has
    [chainLength] links; the response is 64 bytes long, its first half is the
    32-byte random witness in the clear and its second half the HMAC of the
    challenge under the hashed secret; and the challenge is the hash of the
    commitment followed by that first half of the response. *)
Theorem HashZKP_created_proof_relations (env : Environment) (secret : Secret)
    (parameters : option ProofParameters) (cursor cursor' : nat) (proof : JsValue) :
  HashZKP.createProof env secret parameters cursor = Returned (proof, cursor') ->
  exists commitment challenge response hashChain,
    getProp proof "commitment" = Ok (JBuffer commitment) /\
    getProp proof "challenge" = Ok (JBuffer challenge) /\
    getProp proof "response" = Ok (JBuffer response) /\
    getProp proof "hashChain" = Ok (jsBuffers hashChain) /\
    getProp proof "chainLength" = Ok (JNumber (Z.of_nat (length hashChain))) /\
    commitment = nth 0 hashChain [] /\
    commitment =
      QuantumCrypto.hash (secretBytes secret ++ entropyBytes env (cursor + 32) 16) /\
    length response = 64%nat /\
    firstn 32 response = entropyBytes env cursor 32 /\
    skipn 32 response =
      QuantumCrypto.hmac challenge (QuantumCrypto.hash (secretBytes secret)) /\
    challenge = QuantumCrypto.hash (commitment ++ firstn 32 response).
Proof.
  intros H.
  set (c := orDefault (optionalField parameters chainLength) HashZKP.DEFAULT_CHAIN_LENGTH).
  destruct (Z.lt_ge_cases c 100) as [Hlt|Hge].
  { rewrite HashZKP_createProof_invalid in H by exact Hlt. discriminate. }
  destruct (HashZKP_createProof_run env secret parameters cursor Hge)
    as [tree [root [_ [_ Hrun]]]].
  fold c in Hrun. rewrite Hrun in H. injection H as <- _.
  exists (runCommitment env secret c cursor), (runChallenge env secret c cursor),
         (runResponse env secret c cursor), (runChain env secret c cursor).
  assert (Hwitness : HashZKP.fit32 (runWitness env cursor) = entropyBytes env cursor 32).
  { apply fit32_exact. apply entropyBytes_length. }
  assert (Hresponse :
            runResponse env secret c cursor =
            entropyBytes env cursor 32 ++
            QuantumCrypto.hmac (runChallenge env secret c cursor)
              (QuantumCrypto.hash (secretBytes secret))).
  { unfold runResponse, HashZKP.createResponse. rewrite Hwitness.
    rewrite fit32_exact by apply hmac_length. reflexivity. }
  assert (Hfirst : firstn 32 (runResponse env secret c cursor) = entropyBytes env cursor 32).
  { rewrite Hresponse. apply firstn_app_exact. apply entropyBytes_length. }
  split; [reflexivity|]. split; [reflexivity|]. split; [reflexivity|].
  split; [reflexivity|]. split; [|split; [reflexivity|split; [|split; [|split; [|split]]]]].
  - cbn. f_equal. f_equal. unfold runChain. rewrite createHashChain_length. lia.
  - unfold runCommitment, runChain, HashZKP.createHashChain.
    destruct (Z.to_nat c) as [|n] eqn:En; [lia|]. reflexivity.
  - unfold runResponse. apply createResponse_length.
  - exact Hfirst.
  - rewrite Hresponse. apply skipn_app_exact. apply entropyBytes_length.
  - rewrite Hfirst. reflexivity.
Qed.

Lemma HashZKP_created_proof_relations_witness :
  match HashZKP.createProof sampleEnvironment sampleSecret (withChainLength 100) 0%nat with
  | Returned (proof, _) =>
      exists commitment challenge response,
        getProp proof "commitment" = Ok (JBuffer commitment) /\
        getProp proof "challenge" = Ok (JBuffer challenge) /\
        getProp proof "response" = Ok (JBuffer response) /\
        challenge = QuantumCrypto.hash (commitment ++ firstn 32 response)
  | _ => False
  end.
Proof.
  destruct (HashZKP_createProof_run sampleEnvironment sampleSecret (withChainLength 100) 0%nat)
    as [tree [root [_ [_ Hrun]]]]; [vm_compute; discriminate|].
  rewrite Hrun.
  destruct (HashZKP_created_proof_relations sampleEnvironment sampleSecret
              (withChainLength 100) 0%nat _ _ Hrun)
    as [commitment [challenge [response [hashChain H]]]].
  exists commitment, challenge, response. tauto.
Defined.

Ltac settle t :=
  destruct t eqn:?; cbn [andb negb orb tryCatch bindO] in *; try discriminate.

(** X12: [HashZKP.verifyProof] looks at the response and at the challenge
    only to check that they are Buffers of 64 and of 32 bytes.  In a proof
    that it accepts, the two fields can be replaced by any Buffers of these
    lengths and the proof is still accepted. *)
Theorem HashZKP_verifyProof_ignores_response_content
    (proof : JsValue) (response challenge : Buffer) :
  HashZKP.verifyProof proof = Ok true ->
  length response = 64%nat -> length challenge = 32%nat ->
  HashZKP.verifyProof
    (withField (withField proof "response" (JBuffer response)) "challenge" (JBuffer challenge))
  = Ok true.
Proof.
  intros H Hr Hc.
  destruct proof as [| |b|n|n|s|b|items|fields| |negative|whole part]; try (cbn in H; discriminate H).
  revert H. cbn [withField].
  unfold HashZKP.verifyProof, HashZKP.verifyProofBody, HashZKP.validateProofStructure.
  cbn [getProp bindO lookupField String.eqb Ascii.eqb Bool.eqb].
  rewrite !(hasLength_buffer response), !(hasLength_buffer challenge), Hr, Hc.
  cbn [instanceofBuffer truthy Nat.eqb negb orb].
  intros H.
  settle (isString (lookupField "type" fields) "hash").
  settle (instanceofBuffer (lookupField "commitment" fields)).
  settle (instanceofBuffer (lookupField "challenge" fields)).
  settle (instanceofBuffer (lookupField "response" fields)).
  settle (instanceofArray (lookupField "hashChain" fields)).
  settle (Nat.ltb 0 (length (elements (lookupField "hashChain" fields)))).
  settle (greaterThan (lookupField "chainLength" fields) 0).
  match goal with a : bool |- _ => settle a end.
  settle (isUndefined (lookupField "merkleTree" fields)).
  settle (isUndefined (lookupField "merkleProof" fields)).
  settle (truthy (lookupField "hashChain" fields)).
  settle (Nat.eqb (length (elements (lookupField "hashChain" fields))) 0).
  settle (QuantumCrypto.verifyMerkleProofValue
            (nth 0 (elements (lookupField "hashChain" fields)) JUndefined)
            (lookupField "merkleProof" fields) (lookupField "commitmentChain" fields) 0).
  match goal with a : bool |- _ => settle a end.
  settle (HashZKP.verifyHashChainValue (elements (lookupField "hashChain" fields))).
  match goal with a : bool |- _ => settle a end.
  settle (asBuffer (nth 0 (elements (lookupField "hashChain" fields)) JUndefined)).
  settle (asBuffer (lookupField "commitment" fields)).
  match goal with |- context [Buffer_equals ?x ?y] => settle (Buffer_equals x y) end.
  reflexivity.
Qed.

Lemma verifyHashChain_links (c : list Buffer) :
  HashZKP.verifyHashChain c = true <->
  (2 <= length c)%nat /\
  (forall i, (1 <= i < length c)%nat -> nth i c [] = QuantumCrypto.hash (nth (i - 1) c [])).
Proof.
  unfold HashZKP.verifyHashChain.
  destruct (Nat.ltb (length c) 2) eqn:E.
  - apply Nat.ltb_lt in E. split; [discriminate | intros [H _]; lia].
  - apply Nat.ltb_ge in E. destruct c as [|first rest]; [cbn in E; lia|].
    rewrite verifyHashChainLoop_spec. split.
    + intros H. split; [exact E|]. intros i Hi.
      destruct i as [|i]; [lia|]. cbn [length] in Hi.
      replace (S i - 1)%nat with i by lia.
      change (nth (S i) (first :: rest) []) with (nth i rest []).
      apply H. lia.
    + intros [_ H] i Hi. specialize (H (S i)). cbn [length] in H.
      replace (S i - 1)%nat with i in H by lia. apply H. lia.
Qed.

Lemma verifyHashChain_replaced (c : list Buffer) (j : nat) (x : Buffer) :
  HashZKP.verifyHashChain c = true -> (1 <= j < length c)%nat -> x <> nth j c [] ->
  HashZKP.verifyHashChain (replaceAt j x c) = false.
Proof.
  intros Hc Hj Hx.
  destruct (HashZKP.verifyHashChain (replaceAt j x c)) eqn:E; [|reflexivity].
  exfalso. apply verifyHashChain_links in Hc. apply verifyHashChain_links in E.
  destruct Hc as [_ Hc]. destruct E as [_ E].
  rewrite replaceAt_length in E by lia.
  specialize (E j Hj). specialize (Hc j Hj).
  rewrite replaceAt_nth_same in E by lia.
  rewrite replaceAt_nth_other in E by lia.
  apply Hx. congruence.
Qed.

(** X13: what [HashZKP.verifyProof] does detect.  In a proof made by
    [createProof], replacing the commitment by any other Buffer, replacing
    any link of the hash chain after the first by any other Buffer, or
    replacing the Merkle root [commitmentChain] by any other Buffer makes
    [verifyProof] return [false]. *)
Theorem HashZKP_verifyProof_detects (env : Environment) (secret : Secret)
    (parameters : option ProofParameters) (cursor cursor' : nat) (proof : JsValue) :
  HashZKP.createProof env secret parameters cursor = Returned (proof, cursor') ->
  exists commitment hashChain root,
    getProp proof "commitment" = Ok (JBuffer commitment) /\
    getProp proof "hashChain" = Ok (jsBuffers hashChain) /\
    getProp proof "commitmentChain" = Ok (JBuffer root) /\
    (forall b, b <> commitment ->
       HashZKP.verifyProof (withField proof "commitment" (JBuffer b)) = Ok false) /\
    (forall j x, (1 <= j < length hashChain)%nat -> x <> nth j hashChain [] ->
       HashZKP.verifyProof
         (withField proof "hashChain" (jsBuffers (replaceAt j x hashChain))) = Ok false) /\
    (forall r, r <> root ->
       HashZKP.verifyProof (withField proof "commitmentChain" (JBuffer r)) = Ok false).
Proof.
  intros H.
  set (c := orDefault (optionalField parameters chainLength) HashZKP.DEFAULT_CHAIN_LENGTH).
  destruct (Z.lt_ge_cases c 100) as [Hlt|Hge].
  { rewrite HashZKP_createProof_invalid in H by exact Hlt. discriminate. }
  destruct (HashZKP_createProof_run env secret parameters cursor Hge)
    as [tree [root [Htree [Hfirst Hrun]]]].
  fold c in Htree, Hfirst, Hrun. rewrite Hrun in H. injection H as <- _.
  assert (Hchain : HashZKP.verifyHashChain (runChain env secret c cursor) = true)
    by (apply verifyHashChain_created; lia).
  exists (runCommitment env secret c cursor), (runChain env secret c cursor), root.
  split; [reflexivity|]. split; [reflexivity|]. split; [reflexivity|].
  split; [|split].
  - intros b Hb. unfold runProof. cbn [withField].
    erewrite HashZKP_verifyProof_typed; try reflexivity.
    fold (runCommitment env secret c cursor).
    rewrite (Buffer_equals_neq (runCommitment env secret c cursor) b) by congruence.
    rewrite !andb_false_r. reflexivity.
  - intros j x Hj Hx. unfold runProof. cbn [withField].
    erewrite HashZKP_verifyProof_typed; try reflexivity.
    rewrite verifyHashChain_replaced by assumption.
    rewrite !andb_false_r. reflexivity.
  - intros r Hr. unfold runProof. cbn [withField].
    erewrite HashZKP_verifyProof_typed; try reflexivity.
    fold (runCommitment env secret c cursor).
    assert (Hmerkle : QuantumCrypto.verifyMerkleProof (runCommitment env secret c cursor)
                        (QuantumCrypto.generateMerkleProof tree 0) r 0 = false).
    { unfold QuantumCrypto.verifyMerkleProof in *. apply Buffer_equals_eq in Hfirst.
      rewrite Hfirst. apply Buffer_equals_neq. congruence. }
    rewrite Hmerkle. rewrite !andb_false_r. reflexivity.
Qed.

Lemma HashZKP_verifyProof_detects_witness :
  match HashZKP.createProof sampleEnvironment sampleSecret (withChainLength 100) 0%nat with
  | Returned (proof, _) =>
      exists commitment,
        getProp proof "commitment" = Ok (JBuffer commitment) /\
        forall b, b <> commitment ->
          HashZKP.verifyProof (withField proof "commitment" (JBuffer b)) = Ok false
  | _ => False
  end.
Proof.
  destruct (HashZKP_createProof_run sampleEnvironment sampleSecret (withChainLength 100) 0%nat)
    as [tree [root [_ [_ Hrun]]]]; [vm_compute; discriminate|].
  rewrite Hrun.
  destruct (HashZKP_verifyProof_detects sampleEnvironment sampleSecret
              (withChainLength 100) 0%nat _ _ Hrun)
    as [commitment [hashChain [root' [Hc [_ [_ [Hdetect _]]]]]]].
  exists commitment. split; assumption.
Defined.

(** ** Merkle proofs *)

(** X14: [generateMerkleTree] refuses an empty list of leaves.  For any other
    list it returns a tree whose first level is the leaves and whose last
    level is the root alone, and the proof that [generateMerkleProof] builds
    for leaf 0 is accepted by [verifyMerkleProof]; a single leaf is its own
    root, unhashed. *)
Theorem generateMerkleTree_first_leaf_verifies :
  QuantumCrypto.generateMerkleTree [] =
    Throw (Error "Cannot generate Merkle tree with no leaves") /\
  (forall leaf, QuantumCrypto.generateMerkleTree [leaf] = Ok ([[leaf]], leaf)) /\
  (forall leaves, leaves <> [] ->
     exists tree root,
       QuantumCrypto.generateMerkleTree leaves = Ok (tree, root) /\
       hd [] tree = leaves /\
       last tree [] = [root] /\
       QuantumCrypto.verifyMerkleProof (nth 0 leaves [])
         (QuantumCrypto.generateMerkleProof tree 0) root 0 = true).
Proof.
  split; [reflexivity|]. split; [reflexivity|].
  intros leaves H.
  destruct (generateMerkleTree_root leaves H) as [tree [root [Htree [Hhd Hlast]]]].
  destruct (generateMerkleTree_first_leaf leaves H) as [tree' [root' [Htree' Hfirst]]].
  rewrite Htree in Htree'. injection Htree' as <- <-.
  exists tree, root. repeat split; assumption.
Qed.

Lemma generateMerkleTree_first_leaf_verifies_witness :
  exists tree root,
    QuantumCrypto.generateMerkleTree threeLeaves = Ok (tree, root) /\
    hd [] tree = threeLeaves /\
    last tree [] = [root] /\
    QuantumCrypto.verifyMerkleProof (nth 0 threeLeaves [])
      (QuantumCrypto.generateMerkleProof tree 0) root 0 = true.
Proof.
  apply (proj2 (proj2 generateMerkleTree_first_leaf_verifies) threeLeaves). discriminate.
Defined.

Lemma nextLevel_even (m : nat) :
  forall level, length level = (2 * m)%nat ->
    length (QuantumCrypto.nextLevel level) = m /\
    forall j, (j < m)%nat ->
      nth j (QuantumCrypto.nextLevel level) [] =
      QuantumCrypto.hash (nth (2 * j) level [] ++ nth (2 * j + 1) level []).
Proof.
  induction m as [|m IH]; intros level Hlen.
  - destruct level; [|discriminate]. split; [reflexivity|]. intros j Hj. lia.
  - destruct level as [|leftNode [|rightNode rest]]; try (cbn in Hlen; lia).
    cbn [QuantumCrypto.nextLevel length].
    destruct (IH rest) as [Hl Hn]; [cbn [length] in Hlen; lia|].
    split; [rewrite Hl; reflexivity|].
    intros [|j] Hj; [reflexivity|].
    replace (2 * S j)%nat with (S (S (2 * j))) by lia.
    replace (S (S (2 * j)) + 1)%nat with (S (S (2 * j + 1))) by lia.
    cbn [nth]. apply Hn. lia.
Qed.

Lemma generateMerkleProof_step (level next : list Buffer) (rest : list (list Buffer))
    (i : nat) :
  QuantumCrypto.generateMerkleProof (level :: next :: rest) i =
  (if Nat.ltb (if Nat.eqb (Nat.modulo i 2) 1 then i - 1 else i + 1)%nat (length level)
   then [nth (if Nat.eqb (Nat.modulo i 2) 1 then i - 1 else i + 1)%nat level []]
   else []) ++ QuantumCrypto.generateMerkleProof (next :: rest) (Nat.div i 2).
Proof. reflexivity. Qed.

Lemma merkleFold_power_of_two (k : nat) :
  forall fuel level i,
    length level = (2 ^ k)%nat -> (length level <= fuel)%nat -> (i < length level)%nat ->
    QuantumCrypto.merkleFold (nth i level [])
      (QuantumCrypto.generateMerkleProof (level :: QuantumCrypto.upperLevels fuel level) i) i =
    nth 0 (last (level :: QuantumCrypto.upperLevels fuel level) []) [] /\
    length (QuantumCrypto.generateMerkleProof
              (level :: QuantumCrypto.upperLevels fuel level) i) = k.
Proof.
  induction k as [|k IH]; intros fuel level i Hlen Hfuel Hi.
  - cbn [Nat.pow] in Hlen. destruct fuel as [|fuel]; [lia|].
    assert (i = 0%nat) as -> by lia.
    destruct level as [|x [|y rest]]; try discriminate. split; reflexivity.
  - assert (Hpos : (0 < 2 ^ k)%nat) by (apply Nat.neq_0_lt_0, Nat.pow_nonzero; lia).
    assert (Hlen' : length level = (2 * 2 ^ k)%nat) by (rewrite Hlen; cbn [Nat.pow]; lia).
    destruct fuel as [|fuel]; [lia|].
    cbn [QuantumCrypto.upperLevels].
    match goal with |- context [if ?c then _ else _] => destruct c eqn:E end;
      [|apply Nat.ltb_ge in E; unfold Buffer in *; lia].
    set (next := QuantumCrypto.nextLevel level).
    destruct (nextLevel_even (2 ^ k) level Hlen') as [Hnext Hnth]. fold next in Hnext, Hnth.
    unfold Buffer in *.
    destruct (IH fuel next (Nat.div i 2)) as [IHfold IHlen];
      [exact Hnext | lia | rewrite Hnext; apply Nat.Div0.div_lt_upper_bound; lia |].
    change (last (level :: next :: QuantumCrypto.upperLevels fuel next) [])
      with (last (next :: QuantumCrypto.upperLevels fuel next) []).
    rewrite <- IHfold. rewrite generateMerkleProof_step. unfold Buffer in *.
    pose proof (Nat.div_mod_eq i 2) as Hdiv.
    pose proof (Nat.mod_upper_bound i 2 ltac:(lia)) as Hmod.
    destruct (Nat.eqb (Nat.modulo i 2) 1) eqn:Eodd.
    + apply Nat.eqb_eq in Eodd.
      destruct (Nat.ltb (i - 1) (length level)) eqn:Es; [|apply Nat.ltb_ge in Es; lia].
      cbn [app QuantumCrypto.merkleFold length]. rewrite (proj2 (Nat.eqb_eq _ _) Eodd).
      split; [|rewrite IHlen; reflexivity].
      f_equal. rewrite Hnth by (apply Nat.Div0.div_lt_upper_bound; lia).
      f_equal. f_equal; f_equal; lia.
    + apply Nat.eqb_neq in Eodd.
      destruct (Nat.ltb (i + 1) (length level)) eqn:Es; [|apply Nat.ltb_ge in Es; lia].
      cbn [app QuantumCrypto.merkleFold length].
      rewrite (proj2 (Nat.eqb_neq _ _) Eodd).
      split; [|rewrite IHlen; reflexivity].
      f_equal. rewrite Hnth by (apply Nat.Div0.div_lt_upper_bound; lia).
      f_equal. f_equal; f_equal; lia.
Qed.

(** X15: over a number of leaves that is a power of two the Merkle functions
    agree.  For [2 ^ k] leaves and every leaf index, the proof built by
    [generateMerkleProof] from the tree of [generateMerkleTree] has [k]
    siblings and is accepted by [verifyMerkleProof] against the root. *)
Theorem merkle_proof_verifies_power_of_two (k : nat) (leaves : list Buffer) (i : nat) :
  length leaves = (2 ^ k)%nat -> (i < length leaves)%nat ->
  exists tree root,
    QuantumCrypto.generateMerkleTree leaves = Ok (tree, root) /\
    length (QuantumCrypto.generateMerkleProof tree i) = k /\
    QuantumCrypto.verifyMerkleProof (nth i leaves [])
      (QuantumCrypto.generateMerkleProof tree i) root i = true.
Proof.
  intros Hlen Hi. unfold QuantumCrypto.generateMerkleTree, QuantumCrypto.verifyMerkleProof.
  destruct (Nat.eqb (length leaves) 0) eqn:E; [apply Nat.eqb_eq in E; lia|].
  eexists. eexists. split; [reflexivity|].
  destruct (merkleFold_power_of_two k (length leaves) leaves i Hlen (Nat.le_refl _) Hi)
    as [Hfold Hproof].
  split; [exact Hproof|]. unfold Buffer in *. rewrite Hfold. apply Buffer_equals_refl.
Qed.

Lemma merkle_proof_verifies_power_of_two_witness :
  exists tree root,
    QuantumCrypto.generateMerkleTree (threeLeaves ++ [Buffer_from_utf8 "leaf4"]) =
      Ok (tree, root) /\
    length (QuantumCrypto.generateMerkleProof tree 3) = 2%nat /\
    QuantumCrypto.verifyMerkleProof (nth 3 (threeLeaves ++ [Buffer_from_utf8 "leaf4"]) [])
      (QuantumCrypto.generateMerkleProof tree 3) root 3 = true.
Proof.
  apply (merkle_proof_verifies_power_of_two 2 (threeLeaves ++ [Buffer_from_utf8 "leaf4"]) 3);
    [reflexivity | cbn; lia].
Defined.

(** ** Integers in buffers and the lattice engine *)

Lemma bufferToBigInts_whole (b : Buffer) : QuantumCrypto.bufferToBigInts b 1 = [beValue b].
Proof.
  pose proof (bufferToBigInts_length b 1) as Hlen.
  pose proof (bufferToBigInts_nth b 1 0 ltac:(lia)) as Hnth.
  destruct (QuantumCrypto.bufferToBigInts b 1) as [|x [|y rest]]; try discriminate.
  cbn [nth] in Hnth. rewrite Hnth. f_equal. f_equal.
  unfold Buffer_slice, QuantumCrypto.ceilDiv.
  rewrite Nat.mul_0_l, Nat.add_0_l, Nat.sub_0_r. cbn [skipn].
  apply firstn_all2. rewrite Nat.div_1_r. lia.
Qed.

Lemma bigIntsToBuffer_app (l1 l2 : list Z) :
  QuantumCrypto.bigIntsToBuffer (l1 ++ l2) =
  QuantumCrypto.bigIntsToBuffer l1 ++ QuantumCrypto.bigIntsToBuffer l2.
Proof. unfold QuantumCrypto.bigIntsToBuffer. rewrite map_app, concat_app. reflexivity. Qed.

(** X16: what survives [bigIntsToBuffer].  A single non-negative integer is
    read back by [bufferToBigInts(..., 1)]; a negative integer contributes no
    byte at all, so it reads back as 0 and disappears from a longer list; and
    the boundaries between integers are not recorded: the lists [1, 256] and
    [257, 0] give the same three bytes. *)
Theorem bigIntsToBuffer_what_survives :
  (forall n, 0 <= n ->
     QuantumCrypto.bufferToBigInts (QuantumCrypto.bigIntsToBuffer [n]) 1 = [n]) /\
  (forall n, n < 0 ->
     QuantumCrypto.bigIntsToBuffer [n] = [] /\
     QuantumCrypto.bufferToBigInts (QuantumCrypto.bigIntsToBuffer [n]) 1 = [0]) /\
  (forall l1 l2 n, n < 0 ->
     QuantumCrypto.bigIntsToBuffer (l1 ++ n :: l2) = QuantumCrypto.bigIntsToBuffer (l1 ++ l2)) /\
  QuantumCrypto.bigIntsToBuffer [1; 256] = QuantumCrypto.bigIntsToBuffer [257; 0].
Proof.
  assert (Hneg : forall n, n < 0 -> QuantumCrypto.bigIntsToBuffer [n] = []).
  { intros n Hn. unfold QuantumCrypto.bigIntsToBuffer. cbn [map concat].
    rewrite bigIntToBuffer_negative by exact Hn. reflexivity. }
  split; [|split; [|split]].
  - intros n Hn. rewrite bufferToBigInts_whole. f_equal.
    unfold QuantumCrypto.bigIntsToBuffer. cbn [map concat]. rewrite app_nil_r.
    apply bigIntToBuffer_beValue. exact Hn.
  - intros n Hn. rewrite Hneg by exact Hn. split; reflexivity.
  - intros l1 l2 n Hn.
    change (n :: l2) with ([n] ++ l2). rewrite !bigIntsToBuffer_app.
    rewrite Hneg by exact Hn. reflexivity.
  - reflexivity.
Qed.

Lemma bigIntsToBuffer_what_survives_witness :
  QuantumCrypto.bufferToBigInts (QuantumCrypto.bigIntsToBuffer [1000003]) 1 = [1000003].
Proof.
  apply (proj1 bigIntsToBuffer_what_survives). lia.
Defined.

Lemma innerProduct_fold (modulus : Z) (l : list (Z * Z)) :
  0 < modulus ->
  Forall (fun p => 0 <= fst p /\ 0 <= snd p) l ->
  forall acc, 0 <= acc ->
    fold_left (fun commitment p => Z.rem (commitment + fst p * snd p) modulus) l
              (acc mod modulus) =
    fold_left (fun acc p => acc + fst p * snd p) l acc mod modulus.
Proof.
  intros Hm Hl. induction Hl as [|p l [Hp1 Hp2] _ IH]; intros acc Hacc; [reflexivity|].
  cbn [fold_left].
  pose proof (Z.mod_pos_bound acc modulus Hm) as Hb.
  rewrite Z.rem_mod_nonneg by nia.
  rewrite Z.add_mod_idemp_l by lia.
  apply IH. nia.
Qed.

Lemma bufferToBigInts_nonneg (b : Buffer) (n : nat) :
  Forall (fun x => 0 <= x) (QuantumCrypto.bufferToBigInts b n).
Proof.
  unfold QuantumCrypto.bufferToBigInts, QuantumCrypto.bufferToBigIntsLoop.
  apply Forall_forall. intros x Hx. apply in_map_iff in Hx. destruct Hx as [i [<- _]].
  rewrite sliceToBigInt_beValue. apply beValue_nonneg.
Qed.

Lemma innerProduct_dotProduct (a s : list Z) (modulus : Z) :
  0 < modulus -> Forall (fun x => 0 <= x) a -> Forall (fun x => 0 <= x) s ->
  LatticeZKP.innerProduct a s modulus = dotProduct a s mod modulus.
Proof.
  intros Hm Ha Hs. unfold LatticeZKP.innerProduct, dotProduct.
  rewrite <- (innerProduct_fold modulus (combine a s) Hm); [reflexivity| |lia].
  apply Forall_forall. intros [x y] Hin. cbn [fst snd].
  split.
  - apply in_combine_l in Hin. rewrite Forall_forall in Ha. apply Ha. exact Hin.
  - apply in_combine_r in Hin. rewrite Forall_forall in Hs. apply Hs. exact Hin.
Qed.

(** X17: the commitment of the lattice engine does carry the inner product.
    For a positive modulus and a vector [a] without negative entries,
    [createLWECommitment(a, secret, modulus)] draws one error (four random
    bytes) and encodes [(<a, s> mod modulus + error) % modulus], where [s] is
    the secret cut into as many integers as [a] has entries.  When that sum
    is not negative the bytes are the big-endian digits of
    [(<a, s> + error) mod modulus]; when the remainder is negative there are
    no bytes. *)
Theorem createLWECommitment_value
    (env : Environment) (a : list Z) (secret : Buffer) (modulus : Z) (cursor : nat) :
  0 < modulus -> Forall (fun x => 0 <= x) a ->
  let s := QuantumCrypto.bufferToBigInts secret (length a) in
  let error := errorAt env LatticeZKP.DEFAULT_ERROR_BOUND cursor in
  let value := Z.rem (dotProduct a s mod modulus + error) modulus in
  LatticeZKP.createLWECommitment env a secret modulus cursor =
    Returned (QuantumCrypto.bigIntsToBuffer [value], (cursor + 4)%nat) /\
  (0 <= dotProduct a s mod modulus + error ->
   beValue (QuantumCrypto.bigIntsToBuffer [value]) = (dotProduct a s + error) mod modulus) /\
  (value < 0 -> QuantumCrypto.bigIntsToBuffer [value] = []).
Proof.
  intros Hm Ha s error value.
  assert (Hinner : LatticeZKP.innerProduct a s modulus = dotProduct a s mod modulus).
  { apply innerProduct_dotProduct; [exact Hm|exact Ha|apply bufferToBigInts_nonneg]. }
  split; [|split].
  - unfold LatticeZKP.createLWECommitment.
    erewrite bindR_returned by apply generateDiscreteGaussianError_run.
    fold s. rewrite Hinner. reflexivity.
  - intros Hnonneg. unfold QuantumCrypto.bigIntsToBuffer. cbn [map concat].
    rewrite app_nil_r. unfold value.
    rewrite Z.rem_mod_nonneg by lia.
    rewrite bigIntToBuffer_beValue by (apply Z.mod_pos_bound; exact Hm).
    apply Z.add_mod_idemp_l. lia.
  - intros Hneg. unfold QuantumCrypto.bigIntsToBuffer. cbn [map concat].
    rewrite bigIntToBuffer_negative by exact Hneg. reflexivity.
Qed.

Lemma createLWECommitment_value_witness :
  LatticeZKP.createLWECommitment sampleEnvironment [1; 2; 3; 4]
    (Buffer_from_utf8 "secret") 1000 0%nat =
  Returned
    (QuantumCrypto.bigIntsToBuffer
       [Z.rem (dotProduct [1; 2; 3; 4]
                 (QuantumCrypto.bufferToBigInts (Buffer_from_utf8 "secret") 4) mod 1000
               + errorAt sampleEnvironment LatticeZKP.DEFAULT_ERROR_BOUND 0) 1000],
     (0 + 4)%nat).
Proof.
  apply (createLWECommitment_value sampleEnvironment [1; 2; 3; 4]
           (Buffer_from_utf8 "secret") 1000 0%nat); [lia|].
  repeat constructor; lia.
Defined.

(** X18: [LatticeZKP.createProof] with a modulus supplied.  No prime is
    searched for.  The call fails with the parameter error when the dimension
    in force (the supplied one, or 256 when none or 0 is supplied) is below
    128 or the modulus is negative; otherwise it returns a proof that records
    the dimension and the modulus and whose challenge and polynomial
    commitment are 32 bytes long, having drawn a number of random bytes fixed
    by the dimension and by the width of the modulus. *)
Theorem LatticeZKP_createProof_supplied_modulus
    (env : Environment) (fuel : nat) (secret : Secret) (parameters : ProofParameters)
    (m : Z) (cursor : nat) :
  modulus parameters = Some m -> m <> 0 ->
  let d := orDefault (dimension parameters) LatticeZKP.DEFAULT_DIMENSION in
  let width := rangeBytes m in
  (d < 128 \/ m < 0 ->
   LatticeZKP.createProof env fuel secret (Some parameters) cursor =
   Raised (Error "Invalid lattice parameters")) /\
  (128 <= d -> 0 < m ->
   exists proof challenge polynomialCommitment,
     LatticeZKP.createProof env fuel secret (Some parameters) cursor =
       Returned (proof,
                 (cursor + Z.to_nat d * width + 4 + width + 32 + 4 + Z.to_nat d * 9)%nat) /\
     getProp proof "dimension" = Ok (JNumber d) /\
     getProp proof "modulus" = Ok (JBigInt m) /\
     getProp proof "challenge" = Ok (JBuffer challenge) /\
     length challenge = 32%nat /\
     getProp proof "polynomialCommitment" = Ok (JBuffer polynomialCommitment) /\
     length polynomialCommitment = 32%nat).
Proof.
  intros Hmod Hm d width.
  assert (Hstart :
            LatticeZKP.createProof env fuel secret (Some parameters) cursor =
            LatticeZKP.createProofWith env d m secret cursor).
  { unfold LatticeZKP.createProof. cbn [optionalField]. rewrite Hmod.
    destruct (m =? 0) eqn:E; [apply Z.eqb_eq in E; contradiction|]. reflexivity. }
  rewrite Hstart. split.
  - intros H. apply LatticeZKP_createProofWith_invalid. lia.
  - intros Hd Hpos. rewrite LatticeZKP_createProofWith_run by assumption.
    eexists _, _, _. split; [f_equal; f_equal; unfold errorCursor, witnessCursor; fold width; lia|].
    split; [reflexivity|]. split; [reflexivity|]. split; [reflexivity|].
    split; [apply hash_length|]. split; [reflexivity|apply hash_length].
Qed.

Lemma LatticeZKP_createProof_supplied_modulus_witness :
  LatticeZKP.createProof sampleEnvironment 0 sampleSecret
    (Some (mkProofParameters (Some 64) (Some 1000003) None None None)) 0%nat =
  Raised (Error "Invalid lattice parameters").
Proof.
  apply (proj1 (LatticeZKP_createProof_supplied_modulus sampleEnvironment 0 sampleSecret
                  (mkProofParameters (Some 64) (Some 1000003) None None None) 1000003 0%nat
                  eq_refl ltac:(lia))).
  left. vm_compute. reflexivity.
Defined.

Lemma beValue_zeros (b : Buffer) : Forall (fun x => x = x00) b -> beValue b = 0.
Proof.
  intros H. unfold beValue. induction H as [|x b -> _ IH]; [reflexivity|].
  cbn [fold_left]. exact IH.
Qed.

Lemma sliceToBigInt_zeros (b : Buffer) (bytesPerInt i : nat) :
  Forall (fun x => x = x00) b -> QuantumCrypto.sliceToBigInt b bytesPerInt i = 0.
Proof.
  intros H. rewrite sliceToBigInt_beValue. apply beValue_zeros.
  unfold Buffer_slice. apply Forall_forall. intros x Hx.
  rewrite Forall_forall in H. apply H.
  rewrite <- (firstn_skipn (i * bytesPerInt) b). apply in_or_app. right.
  match type of Hx with
  | In x (firstn ?n ?l) => rewrite <- (firstn_skipn n l); apply in_or_app; left; exact Hx
  end.
Qed.

Lemma leadingResponseInts_zeros (b : Buffer) :
  Forall (fun x => x = x00) b ->
  existsb (fun value => negb (value =? 0)) (LatticeZKP.leadingResponseInts b) = false.
Proof.
  intros H.
  assert (Hloop : forall bytesPerInt n,
             existsb (fun value => negb (value =? 0))
                     (QuantumCrypto.bufferToBigIntsLoop b bytesPerInt n) = false).
  { intros bytesPerInt n. unfold QuantumCrypto.bufferToBigIntsLoop.
    induction (seq 0 n) as [|i l IH]; [reflexivity|].
    cbn [map existsb]. rewrite sliceToBigInt_zeros by exact H. exact IH. }
  unfold LatticeZKP.leadingResponseInts, QuantumCrypto.bufferToBigInts.
  destruct (Nat.ltb (length b) 80); apply Hloop.
Qed.

(** X19: proofs that [LatticeZKP.verifyProof] turns down, whatever else they
    hold: a challenge that is not 32 bytes long, a polynomial commitment that
    is not 32 bytes long, a response made of zero bytes only, and a response
    that is the same Buffer as the challenge. *)
Theorem LatticeZKP_verifyProof_rejects (fields : list (string * JsValue)) (b : Buffer) :
  (lookupField "challenge" fields = JBuffer b -> length b <> 32%nat ->
   LatticeZKP.verifyProof (JObject fields) = Ok false) /\
  (lookupField "polynomialCommitment" fields = JBuffer b -> length b <> 32%nat ->
   LatticeZKP.verifyProof (JObject fields) = Ok false) /\
  (lookupField "response" fields = JBuffer b -> Forall (fun x => x = x00) b ->
   LatticeZKP.verifyProof (JObject fields) = Ok false) /\
  (lookupField "response" fields = JBuffer b -> lookupField "challenge" fields = JBuffer b ->
   LatticeZKP.verifyProof (JObject fields) = Ok false).
Proof.
  split; [|split; [|split]].
  - intros H Hlen.
    unfold LatticeZKP.verifyProof, LatticeZKP.verifyProofBody, LatticeZKP.validateProofStructure.
    cbn [getProp bindO]. rewrite H. rewrite hasLength_buffer.
    destruct (Nat.eqb (length b) 32) eqn:E; [apply Nat.eqb_eq in E; contradiction|].
    cbn [truthy negb orb]. repeat verify_step.
  - intros H Hlen.
    unfold LatticeZKP.verifyProof, LatticeZKP.verifyProofBody, LatticeZKP.validateProofStructure,
      LatticeZKP.verifyPolynomialCommitment, LatticeZKP.verifyPolynomialCommitmentBody.
    cbn [getProp bindO]. rewrite H. rewrite !hasLength_buffer.
    destruct (Nat.eqb (length b) 32) eqn:E; [apply Nat.eqb_eq in E; contradiction|].
    cbn [truthy negb orb]. 
    destruct (Nat.eqb (length b) 0); cbn [tryCatch bindO negb]; repeat verify_step.
  - intros H Hzero.
    unfold LatticeZKP.verifyProof, LatticeZKP.verifyProofBody, LatticeZKP.validateProofStructure.
    cbn [getProp bindO]. rewrite H. cbn [asBuffer bindO].
    rewrite leadingResponseInts_zeros by exact Hzero.
    cbn [negb]. repeat verify_step.
  - intros Hr Hc.
    unfold LatticeZKP.verifyProof, LatticeZKP.verifyProofBody, LatticeZKP.validateProofStructure,
      LatticeZKP.verifyZeroKnowledge, digestsDiffer.
    cbn [getProp bindO]. rewrite Hr, Hc. cbn [QuantumCrypto.hashValue bindO].
    rewrite Buffer_equals_refl. cbn [negb tryCatch bindO]. repeat verify_step.
Qed.

Lemma LatticeZKP_verifyProof_rejects_witness :
  LatticeZKP.verifyProof
    (JObject [("type", JString "lattice"); ("challenge", JBuffer (repeat x01 16))]%string)
  = Ok false.
Proof.
  apply (proj1 (LatticeZKP_verifyProof_rejects
                  [("type", JString "lattice"); ("challenge", JBuffer (repeat x01 16))]%string
                  (repeat x01 16))); [reflexivity|cbn; lia].
Defined.

(** ** The hybrid engine, unconsulted fields and the facade *)

Lemma isString_true (value : JsValue) (s : string) : isString value s = true -> value = JString s.
Proof.
  destruct value; try discriminate. cbn [isString]. intros H.
  apply String.eqb_eq in H. subst. reflexivity.
Qed.

Lemma verifyComponentProof_true (component : JsValue) :
  HybridZKP.verifyComponentProof component = Ok true ->
  (getProp component "type" = Ok (JString "lattice") /\
   LatticeZKP.verifyProof component = Ok true) \/
  (getProp component "type" = Ok (JString "hash") /\
   HashZKP.verifyProof component = Ok true) \/
  (getProp component "type" = Ok (JString "multivariate") /\
   MultivariateZKP.verifyProof component = Ok true).
Proof.
  unfold HybridZKP.verifyComponentProof.
  destruct (getProp component "type") as [type|e]; [|discriminate]. cbn [bindO].
  destruct (isString type "lattice") eqn:E1.
  { apply isString_true in E1. subst. intros H. left. split; [reflexivity|exact H]. }
  destruct (isString type "hash") eqn:E2.
  { apply isString_true in E2. subst. intros H. right. left. split; [reflexivity|exact H]. }
  destruct (isString type "multivariate") eqn:E3.
  { apply isString_true in E3. subst. intros H. right. right. split; [reflexivity|exact H]. }
  discriminate.
Qed.

Lemma verifyComponents_true (components : list JsValue) :
  HybridZKP.verifyComponents components = Ok true ->
  Forall (fun component => HybridZKP.verifyComponentProof component = Ok true) components.
Proof.
  induction components as [|component rest IH]; intros H; [constructor|].
  cbn [HybridZKP.verifyComponents] in H.
  destruct (HybridZKP.verifyComponentProof component) as [[|]|e] eqn:E;
    cbn [bindO negb] in H; try discriminate.
  constructor; [exact E|apply IH; exact H].
Qed.

(** X20: a hybrid proof is accepted only with all its components.  When
    [HybridZKP.verifyProof] returns [true], [proof.proofs] is a non-empty
    array and each of its elements has type ['lattice'], ['hash'] or
    ['multivariate'] and is accepted by the verifier of that engine; a
    component of any other type, a nested hybrid proof included, makes the
    whole proof fail. *)
Theorem HybridZKP_accepts_only_verified_components (proof : JsValue) :
  HybridZKP.verifyProof proof = Ok true ->
  exists components,
    getProp proof "proofs" = Ok (JArray components) /\
    components <> [] /\
    Forall (fun component =>
              (getProp component "type" = Ok (JString "lattice") /\
               LatticeZKP.verifyProof component = Ok true) \/
              (getProp component "type" = Ok (JString "hash") /\
               HashZKP.verifyProof component = Ok true) \/
              (getProp component "type" = Ok (JString "multivariate") /\
               MultivariateZKP.verifyProof component = Ok true))
           components.
Proof.
  intros H.
  destruct proof as [| |b|n|n|s|b|items|fields| |negative|whole part]; try (cbn in H; discriminate H).
  revert H.
  unfold HybridZKP.verifyProof, HybridZKP.verifyProofBody, HybridZKP.validateProofStructure.
  cbn [getProp bindO]. intros H.
  settle (isString (lookupField "type" fields) "hybrid").
  settle (instanceofBuffer (lookupField "commitment" fields)).
  settle (instanceofBuffer (lookupField "challenge" fields)).
  settle (instanceofBuffer (lookupField "response" fields)).
  destruct (lookupField "proofs" fields) as [| |b|n|n|s|b|components|fs| |negative|whole part] eqn:Eproofs;
    cbn [instanceofArray andb negb tryCatch] in H; try discriminate H.
  exists components. split; [reflexivity|].
  cbn [elements] in H.
  destruct components as [|component rest]; [cbn in H; discriminate H|].
  split; [discriminate|].
  cbn [length Nat.ltb Nat.leb andb] in H.
  settle (instanceofBuffer (lookupField "combined" fields)).
  settle (isUndefined (lookupField "algorithmWeights" fields)).
  settle (mentionsCorrupted (lookupField "response" fields)).
  settle (mentionsCorrupted (lookupField "challenge" fields)).
  settle (mentionsCorrupted (lookupField "commitment" fields)).
  match type of H with
  | tryCatch (if ?c then _ else _) _ = _ => settle c
  end.
  cbn [iterate bindO] in H.
  destruct (HybridZKP.verifyComponents (component :: rest)) as [[|]|e] eqn:Ecomponents;
    cbn [bindO negb tryCatch] in H; try discriminate H.
  apply verifyComponents_true in Ecomponents.
  eapply Forall_impl; [|exact Ecomponents].
  intros c Hc. apply verifyComponentProof_true. exact Hc.
Qed.

(** Walking a verifier's chain of tests along an accepted run: the first
    undecided test of the hypothesis is decided, which also decides it in the
    goal. *)
Ltac settle_leaf c :=
  lazymatch c with
  | negb ?a => settle_leaf a
  | andb ?a _ => settle_leaf a
  | orb ?a _ => settle_leaf a
  | _ => settle c
  end.

Ltac settle_outcome m :=
  lazymatch m with
  | bindO ?m' _ => settle_outcome m'
  | (if ?c then _ else _) => settle_leaf c
  | _ => settle m
  end.

Ltac walk H :=
  repeat match type of H with
         | tryCatch (if ?c then _ else _) _ = _ => settle_leaf c
         | tryCatch (bindO ?m _) _ = _ => settle_outcome m
         end.

(** X21: fields that the verifiers never consult.  In a proof that its
    engine accepts, the multivariate proof's polynomial system can be replaced
    by any Buffer, the lattice proof's polynomial commitment by any Buffer of
    32 bytes, and the hybrid proof's weights by any defined value: the proof
    is still accepted. *)
Theorem verifiers_never_consult :
  (forall proof system,
     MultivariateZKP.verifyProof proof = Ok true ->
     MultivariateZKP.verifyProof (withField proof "polynomialSystem" (JBuffer system)) = Ok true) /\
  (forall proof polynomialCommitment,
     LatticeZKP.verifyProof proof = Ok true ->
     length polynomialCommitment = 32%nat ->
     LatticeZKP.verifyProof
       (withField proof "polynomialCommitment" (JBuffer polynomialCommitment)) = Ok true) /\
  (forall proof weights,
     HybridZKP.verifyProof proof = Ok true ->
     weights <> JUndefined ->
     HybridZKP.verifyProof (withField proof "algorithmWeights" weights) = Ok true).
Proof.
  split; [|split].
  - intros proof system H.
    destruct proof as [| |b|n|n|s|b|items|fields| |negative|whole part]; try (cbn in H; discriminate H).
    revert H. cbn [withField].
    unfold MultivariateZKP.verifyProof, MultivariateZKP.verifyProofBody,
      MultivariateZKP.validateProofStructure, MultivariateZKP.verifyMultivariateCommitment,
      MultivariateZKP.verifyMultivariateCommitmentBody, MultivariateZKP.verifyPolynomialSolution,
      MultivariateZKP.verifyPolynomialSolutionBody, MultivariateZKP.verifyZeroKnowledge,
      digestsDiffer.
    cbn [getProp bindO lookupField String.eqb Ascii.eqb Bool.eqb instanceofBuffer].
    intros H. walk H. reflexivity.
  - intros proof polynomialCommitment H Hlen.
    destruct proof as [| |b|n|n|s|b|items|fields| |negative|whole part]; try (cbn in H; discriminate H).
    revert H. cbn [withField].
    unfold LatticeZKP.verifyProof, LatticeZKP.verifyProofBody,
      LatticeZKP.validateProofStructure, LatticeZKP.verifyLWEEquation,
      LatticeZKP.verifyLWEEquationBody, LatticeZKP.verifyPolynomialCommitment,
      LatticeZKP.verifyPolynomialCommitmentBody, LatticeZKP.verifyZeroKnowledge,
      digestsDiffer.
    cbn [getProp bindO lookupField String.eqb Ascii.eqb Bool.eqb instanceofBuffer].
    rewrite !(hasLength_buffer polynomialCommitment), Hlen.
    cbn [truthy Nat.eqb negb orb andb].
    intros H. walk H. reflexivity.
  - intros proof weights H Hw.
    destruct proof as [| |b|n|n|s|b|items|fields| |negative|whole part]; try (cbn in H; discriminate H).
    revert H. cbn [withField].
    unfold HybridZKP.verifyProof, HybridZKP.verifyProofBody,
      HybridZKP.validateProofStructure, HybridZKP.verifyHybridCommitment,
      HybridZKP.verifyHybridCommitmentBody, HybridZKP.verifyZeroKnowledge,
      HybridZKP.verifyCombinedProof, HybridZKP.verifyCombinedProofBody, digestsDiffer.
    cbn [getProp bindO lookupField String.eqb Ascii.eqb Bool.eqb].
    assert (Hdefined : isUndefined weights = false) by (destruct weights; try reflexivity; contradiction).
    rewrite Hdefined. intros H. walk H. reflexivity.
Qed.

Lemma HybridZKP_accepts_only_verified_components_witness :
  exists components,
    getProp sampleHybridProof "proofs" = Ok (JArray components) /\
    components <> [] /\
    Forall (fun component =>
              (getProp component "type" = Ok (JString "lattice") /\
               LatticeZKP.verifyProof component = Ok true) \/
              (getProp component "type" = Ok (JString "hash") /\
               HashZKP.verifyProof component = Ok true) \/
              (getProp component "type" = Ok (JString "multivariate") /\
               MultivariateZKP.verifyProof component = Ok true))
           components.
Proof.
  apply (HybridZKP_accepts_only_verified_components sampleHybridProof).
  vm_compute. reflexivity.
Defined.

Lemma verifiers_never_consult_witness :
  MultivariateZKP.verifyProof
    (withField sampleMultivariateProof "polynomialSystem" (JBuffer [])) = Ok true /\
  HybridZKP.verifyProof (withField sampleHybridProof "algorithmWeights" JNull) = Ok true.
Proof.
  split.
  - apply (proj1 verifiers_never_consult). vm_compute. reflexivity.
  - apply (proj2 (proj2 verifiers_never_consult)); [vm_compute; reflexivity|discriminate].
Defined.

Lemma HashZKP_verifyProof_ignores_response_content_witness :
  HashZKP.verifyProof
    (withField (withField sampleHashProof "response" (JBuffer (repeat x00 64)))
               "challenge" (JBuffer (repeat x00 32))) = Ok true.
Proof.
  apply (HashZKP_verifyProof_ignores_response_content sampleHashProof);
    [vm_compute; reflexivity | reflexivity | reflexivity].
Defined.




(** ** Polynomial utilities *)

Lemma fold_left_agree {A B : Type} (f g : A -> B -> A) (l : list B) :
  (forall a x, In x l -> f a x = g a x) ->
  forall a, fold_left f l a = fold_left g l a.
Proof.
  induction l as [|x l IH]; intros H a; [reflexivity|].
  cbn [fold_left]. rewrite H by (left; reflexivity).
  apply IH. intros a' y Hy. apply H. right. exact Hy.
Qed.

Lemma monomialTerm_first_value (row : list Z) (v v' : Z) (vs : list Z) :
  QuantumCrypto.monomialTerm row (v :: vs) = QuantumCrypto.monomialTerm row (v' :: vs).
Proof.
  unfold QuantumCrypto.monomialTerm. apply fold_left_agree.
  intros term j _. cbn [length]. destruct j as [|j]; [|reflexivity].
  cbn [Nat.ltb Nat.leb nth]. rewrite !Z.pow_0_r. reflexivity.
Qed.

Lemma monomialTerm_length (row row' values : list Z) :
  length row = length row' ->
  QuantumCrypto.monomialTerm row values = QuantumCrypto.monomialTerm row' values.
Proof. intros H. unfold QuantumCrypto.monomialTerm. rewrite H. reflexivity. Qed.

(** The row-by-row loop of [evaluateMultivariatePolynomial] from a running
    result. *)
Lemma evaluate_rows (values : list Z) (polynomial : list (list Z)) :
  forall result,
    (In [] polynomial ->
     foldO (fun result row =>
              match row with
              | [] => Throw TypeError
              | first :: _ => Ok (result + first * QuantumCrypto.monomialTerm row values)
              end) polynomial result = Throw TypeError) /\
    (~ In [] polynomial ->
     foldO (fun result row =>
              match row with
              | [] => Throw TypeError
              | first :: _ => Ok (result + first * QuantumCrypto.monomialTerm row values)
              end) polynomial result =
     Ok (fold_left (fun result row => result + hd 0 row * QuantumCrypto.monomialTerm row values)
                   polynomial result)).
Proof.
  induction polynomial as [|row polynomial IH]; intros result.
  - split; [contradiction|reflexivity].
  - cbn [foldO fold_left]. destruct row as [|first row].
    + split; [reflexivity|]. intros H. exfalso. apply H. left. reflexivity.
    + cbn [bindO hd]. destruct (IH (result + first * QuantumCrypto.monomialTerm (first :: row) values))
        as [IHthrow IHok].
      split.
      * intros [H|H]; [discriminate|]. apply IHthrow. exact H.
      * intros H. apply IHok. intros Hin. apply H. right. exact Hin.
Qed.

(** X23: what [evaluateMultivariatePolynomial] computes.  It throws exactly
    when some row is empty; otherwise the result is the sum, over the rows, of
    the row's first entry times a product of powers of the values that depends
    on the row only through its length.  So no entry of a row after the first
    has any influence, and neither has the first value. *)
Theorem evaluateMultivariatePolynomial_reads (polynomial : list (list Z)) (values : list Z) :
  (In [] polynomial ->
   QuantumCrypto.evaluateMultivariatePolynomial polynomial values = Throw TypeError) /\
  (~ In [] polynomial ->
   QuantumCrypto.evaluateMultivariatePolynomial polynomial values =
   Ok (fold_left (fun result row => result + hd 0 row * QuantumCrypto.monomialTerm row values)
                 polynomial 0)) /\
  (forall polynomial',
     Forall2 (fun row row' => hd_error row = hd_error row' /\ length row = length row')
             polynomial polynomial' ->
     QuantumCrypto.evaluateMultivariatePolynomial polynomial values =
     QuantumCrypto.evaluateMultivariatePolynomial polynomial' values) /\
  (forall v v' vs,
     QuantumCrypto.evaluateMultivariatePolynomial polynomial (v :: vs) =
     QuantumCrypto.evaluateMultivariatePolynomial polynomial (v' :: vs)).
Proof.
  unfold QuantumCrypto.evaluateMultivariatePolynomial.
  split; [apply evaluate_rows|]. split; [apply evaluate_rows|]. split.
  - intros polynomial' H. generalize 0 as result.
    induction H as [|row row' polynomial polynomial' [Hhd Hlen] _ IH]; intros result;
      [reflexivity|].
    cbn [foldO].
    destruct row as [|first row], row' as [|first' row']; try discriminate; [reflexivity|].
    injection Hhd as <-.
    rewrite (monomialTerm_length (first :: row) (first :: row') values Hlen).
    cbn [bindO]. apply IH.
  - intros v v' vs. generalize 0 as result.
    induction polynomial as [|row polynomial IH]; intros result; [reflexivity|].
    cbn [foldO]. destruct row as [|first row]; [reflexivity|].
    rewrite (monomialTerm_first_value (first :: row) v v' vs). cbn [bindO]. apply IH.
Qed.

Lemma evaluateMultivariatePolynomial_reads_witness :
  QuantumCrypto.evaluateMultivariatePolynomial [[3; 5]; []; [7]] [2; 4] = Throw TypeError.
Proof.
  apply (proj1 (evaluateMultivariatePolynomial_reads [[3; 5]; []; [7]] [2; 4])).
  right. left. reflexivity.
Defined.

Lemma repeatR_uniform {A : Type} (draw : Rand A) (value : nat -> A) (width : nat) (n : nat) :
  (forall cursor, draw cursor = Returned (value cursor, (cursor + width)%nat)) ->
  forall cursor,
    QuantumCrypto.repeatR n draw cursor =
    Returned (map (fun i => value (cursor + i * width)%nat) (seq 0 n), (cursor + n * width)%nat).
Proof.
  intros Hdraw. induction n as [|n IH]; intros cursor.
  - cbn. unfold retR. f_equal. f_equal. lia.
  - cbn [QuantumCrypto.repeatR].
    erewrite bindR_returned by apply Hdraw.
    erewrite bindR_returned by apply IH.
    unfold retR. f_equal. f_equal; [|lia].
    cbn [seq map]. f_equal; [f_equal; lia|].
    rewrite <- seq_shift, map_map. apply map_ext. intros i. f_equal. lia.
Qed.

(** X24: the shape of [generateMultivariateSystem(variables, equations,
    degree)]: [equations] rows of [variables] polynomials of [degree + 1]
    coefficients, each coefficient in [0, 2 ^ 64), drawn with nine random
    bytes apiece.  With a degree that is not negative no polynomial is empty,
    so [evaluateMultivariatePolynomial] throws on no row of the system. *)
Theorem generateMultivariateSystem_shape
    (env : Environment) (variables equations degree : Z) (cursor : nat) :
  exists system,
    QuantumCrypto.generateMultivariateSystem env variables equations degree cursor =
      Returned (system,
                (cursor + Z.to_nat equations *
                            (Z.to_nat variables * (Z.to_nat (degree + 1) * 9)))%nat) /\
    length system = Z.to_nat equations /\
    Forall (fun equation =>
              length equation = Z.to_nat variables /\
              Forall (fun polynomial =>
                        length polynomial = Z.to_nat (degree + 1) /\
                        Forall (fun c => 0 <= c < 2 ^ 64) polynomial)
                     equation)
           system /\
    (0 <= degree ->
     forall equation values,
       In equation system ->
       exists v, QuantumCrypto.evaluateMultivariatePolynomial equation values = Ok v).
Proof.
  unfold QuantumCrypto.generateMultivariateSystem.
  set (coefficient := fun c => drawBelow env (2 ^ 64) c).
  set (polynomial := fun c =>
         map (fun i => coefficient (c + i * 9)%nat) (seq 0 (Z.to_nat (degree + 1)))).
  set (equation := fun c =>
         map (fun i => polynomial (c + i * (Z.to_nat (degree + 1) * 9))%nat)
             (seq 0 (Z.to_nat variables))).
  assert (Hc : forall c,
             QuantumCrypto.generateRandomBigInt env 0 (2 ^ 64) c =
             Returned (coefficient c, (c + 9)%nat)).
  { intros c. rewrite generateRandomBigInt_below by discriminate.
    rewrite rangeBytes_2_64. reflexivity. }
  pose proof (fun c => repeatR_uniform _ coefficient 9 (Z.to_nat (degree + 1)) Hc c) as Hp.
  fold polynomial in Hp.
  pose proof (fun c => repeatR_uniform _ polynomial _ (Z.to_nat variables) Hp c) as He.
  fold equation in He.
  rewrite (repeatR_uniform _ equation _ (Z.to_nat equations) He cursor).
  eexists. split; [reflexivity|].
  assert (Hpoly : forall c,
             length (polynomial c) = Z.to_nat (degree + 1) /\
             Forall (fun x => 0 <= x < 2 ^ 64) (polynomial c)).
  { intros c. unfold polynomial. split; [rewrite length_map, length_seq; reflexivity|].
    apply Forall_forall. intros x Hx. apply in_map_iff in Hx. destruct Hx as [i [<- _]].
    apply drawBelow_range. reflexivity. }
  assert (Hequation : forall c,
             length (equation c) = Z.to_nat variables /\
             Forall (fun p => length p = Z.to_nat (degree + 1) /\
                              Forall (fun x => 0 <= x < 2 ^ 64) p) (equation c)).
  { intros c. unfold equation. split; [rewrite length_map, length_seq; reflexivity|].
    apply Forall_forall. intros p Hin. apply in_map_iff in Hin. destruct Hin as [i [<- _]].
    apply Hpoly. }
  split; [rewrite length_map, length_seq; reflexivity|]. split.
  - apply Forall_forall. intros e Hin. apply in_map_iff in Hin. destruct Hin as [i [<- _]].
    apply Hequation.
  - intros Hdegree e values Hin. apply in_map_iff in Hin. destruct Hin as [i [<- _]].
    destruct (evaluate_rows values (equation (cursor + i * (Z.to_nat variables *
                                               (Z.to_nat (degree + 1) * 9)))%nat) 0)
      as [_ Hok].
    eexists. apply Hok.
    intros Hempty. destruct (Hequation (cursor + i * (Z.to_nat variables *
                                           (Z.to_nat (degree + 1) * 9)))%nat) as [_ Hall].
    rewrite Forall_forall in Hall. apply Hall in Hempty. destruct Hempty as [Hlen _].
    cbn [length] in Hlen. lia.
Qed.

Lemma land_even_odd (x y : Z) : Z.land (2 * x) (2 * y + 1) = 2 * Z.land x y.
Proof.
  apply Z.bits_inj'. intros n Hn. rewrite Z.land_spec.
  destruct (Z.eq_dec n 0) as [->|Hne].
  - rewrite !Z.testbit_even_0. reflexivity.
  - replace n with (Z.succ (n - 1)) by lia.
    rewrite !Z.testbit_even_succ, Z.testbit_odd_succ, Z.land_spec by lia. reflexivity.
Qed.

Lemma land_odd_even (x : Z) : Z.land (2 * x + 1) (2 * x) = 2 * x.
Proof.
  apply Z.bits_inj'. intros n Hn. rewrite Z.land_spec.
  destruct (Z.eq_dec n 0) as [->|Hne].
  - rewrite !Z.testbit_even_0. apply andb_false_r.
  - replace n with (Z.succ (n - 1)) by lia.
    rewrite !Z.testbit_even_succ, Z.testbit_odd_succ by lia. apply andb_diag.
Qed.

Lemma land_pred_power_of_two (p : positive) :
  Z.land (Zpos p) (Zpos p - 1) = 0 <-> exists k, 0 <= k /\ Zpos p = 2 ^ k.
Proof.
  induction p as [p IH|p IH|].
  - split.
    + intros H. exfalso. rewrite Pos2Z.inj_xI in H.
      replace (2 * Z.pos p + 1 - 1) with (2 * Z.pos p) in H by lia.
      rewrite land_odd_even in H. lia.
    + intros [k [Hk H]]. exfalso. destruct (Z.eq_dec k 0) as [->|Hne].
      * cbn in H. lia.
      * replace k with (Z.succ (k - 1)) in H by lia. rewrite Z.pow_succ_r in H by lia. lia.
  - rewrite Pos2Z.inj_xO.
    replace (2 * Z.pos p - 1) with (2 * (Z.pos p - 1) + 1) by lia.
    rewrite land_even_odd. split.
    + intros H. assert (H0 : Z.land (Z.pos p) (Z.pos p - 1) = 0) by lia.
      apply IH in H0. destruct H0 as [k [Hk H0]]. exists (Z.succ k). split; [lia|].
      rewrite Z.pow_succ_r, H0 by lia. reflexivity.
    + intros [k [Hk H]]. destruct (Z.eq_dec k 0) as [->|Hne]; [cbn in H; lia|].
      replace k with (Z.succ (k - 1)) in H by lia. rewrite Z.pow_succ_r in H by lia.
      assert (H0 : exists k', 0 <= k' /\ Z.pos p = 2 ^ k') by (exists (k - 1); lia).
      apply IH in H0. lia.
  - split; [|reflexivity]. intros _. exists 0. split; [lia|reflexivity].
Qed.

Lemma toInt32_small (z : Z) : - 2 ^ 31 <= z < 2 ^ 31 -> toInt32 z = z.
Proof. intros H. unfold toInt32. rewrite Z.mod_small; lia. Qed.

Lemma addErrors_returns (env : Environment) (modulus errorBound : Z) :
  0 < modulus ->
  forall coefficients cursor,
    exists result,
      QuantumCrypto.addErrors env coefficients modulus errorBound cursor =
        Returned (result, (cursor + 4 * length coefficients)%nat) /\
      length result = length coefficients /\
      Forall (fun c => - modulus < c < modulus) result.
Proof.
  intros Hm. induction coefficients as [|c rest IH]; intros cursor.
  - exists []. split; [cbn; unfold retR; f_equal; f_equal; lia|]. split; [reflexivity|constructor].
  - cbn [QuantumCrypto.addErrors].
    erewrite bindR_returned by apply generateDiscreteGaussianError_run.
    destruct (modulus =? 0) eqn:E; [apply Z.eqb_eq in E; lia|].
    destruct (IH (cursor + 4)%nat) as [result [Hrun [Hlen Hall]]].
    erewrite bindR_returned by exact Hrun.
    eexists. split; [unfold retR; f_equal; f_equal; cbn [length]; lia|].
    split; [cbn [length]; rewrite Hlen; reflexivity|].
    constructor; [|exact Hall].
    pose proof (Z.rem_bound_abs (c + errorAt env errorBound cursor) modulus ltac:(lia)). lia.
Qed.

(** X25: [generateRLWEPolynomial] and its power-of-two test.  For a degree
    below [2 ^ 31] the test [degree & (degree - 1)] lets through the powers of
    two and also 0, for which the empty polynomial is returned without a
    single draw; every other degree is refused.  For a power of two and a
    positive modulus the function returns [degree] coefficients, each strictly
    between [-modulus] and [modulus]. *)
Theorem generateRLWEPolynomial_degree
    (env : Environment) (degree modulus errorBound : Z) (cursor : nat) :
  0 <= degree < 2 ^ 31 ->
  (degree = 0 ->
   QuantumCrypto.generateRLWEPolynomial env degree modulus errorBound cursor =
   Returned ([], cursor)) /\
  (degree <> 0 -> (forall k, 0 <= k -> degree <> 2 ^ k) ->
   QuantumCrypto.generateRLWEPolynomial env degree modulus errorBound cursor =
   Raised (Error "Degree must be a power of 2 for RLWE")) /\
  (forall k, 0 <= k -> degree = 2 ^ k -> 0 < modulus ->
   exists coefficients cursor',
     QuantumCrypto.generateRLWEPolynomial env degree modulus errorBound cursor =
       Returned (coefficients, cursor') /\
     length coefficients = Z.to_nat degree /\
     Forall (fun c => - modulus < c < modulus) coefficients).
Proof.
  intros Hd. split; [|split].
  - intros ->. reflexivity.
  - intros H0 Hk. unfold QuantumCrypto.generateRLWEPolynomial.
    rewrite !toInt32_small by lia.
    destruct (Z.land degree (degree - 1) =? 0) eqn:E; [|reflexivity].
    exfalso. apply Z.eqb_eq in E. destruct degree as [|p|p]; try lia.
    apply land_pred_power_of_two in E. destruct E as [k [Hk0 E]].
    apply (Hk k Hk0 E).
  - intros k Hk Hpow Hm. unfold QuantumCrypto.generateRLWEPolynomial.
    rewrite !toInt32_small by lia.
    assert (E : Z.land degree (degree - 1) = 0).
    { destruct degree as [|p|p]; try lia. apply land_pred_power_of_two. exists k. split; assumption. }
    rewrite E. cbn [Z.eqb negb].
    erewrite bindR_returned by (apply repeatR_draws; lia).
    match goal with
    | |- context [QuantumCrypto.addErrors env ?cs modulus errorBound ?c] =>
        destruct (addErrors_returns env modulus errorBound Hm cs c) as [result [Hrun [Hlen Hall]]]
    end.
    exists result. eexists. split; [exact Hrun|]. split; [|exact Hall].
    rewrite Hlen, length_map, length_seq. reflexivity.
Qed.

Lemma generateRLWEPolynomial_degree_witness :
  QuantumCrypto.generateRLWEPolynomial sampleEnvironment 12 1000003 8 0%nat =
  Raised (Error "Degree must be a power of 2 for RLWE").
Proof.
  apply (proj1 (proj2 (generateRLWEPolynomial_degree sampleEnvironment 12 1000003 8 0%nat
                         ltac:(lia)))); [lia|].
  intros k Hk H.
  assert (k < 4) by (apply (Z.pow_lt_mono_r_iff 2); lia).
  assert (k = 0 \/ k = 1 \/ k = 2 \/ k = 3) as [-> | [-> | [-> | ->]]] by lia; discriminate H.
Defined.

Lemma foldO_app {A B : Type} (f : A -> B -> Outcome A) (l1 l2 : list B) :
  forall acc, foldO f (l1 ++ l2) acc = bindO (foldO f l1 acc) (foldO f l2).
Proof.
  induction l1 as [|x l1 IH]; intros acc; [reflexivity|].
  cbn [app foldO]. destruct (f acc x) as [acc'|e]; [apply IH|reflexivity].
Qed.

Lemma mod_cases (x n : nat) :
  (0 < n)%nat -> (x < 2 * n)%nat ->
  Nat.modulo x n = if Nat.ltb x n then x else (x - n)%nat.
Proof.
  intros Hn Hx. destruct (Nat.ltb x n) eqn:E.
  - apply Nat.ltb_lt in E. apply Nat.mod_small. exact E.
  - apply Nat.ltb_ge in E. symmetry. apply (Nat.mod_unique x n 1); lia.
Qed.

Lemma shift_back (n i t : nat) :
  (i < n)%nat -> (t < n)%nat -> Nat.modulo (Nat.modulo (i + t) n + n - i) n = t.
Proof.
  intros Hi Ht. rewrite (mod_cases (i + t) n) by lia.
  destruct (Nat.ltb (i + t) n) eqn:E.
  - apply Nat.ltb_lt in E. rewrite (mod_cases (i + t + n - i) n) by lia.
    destruct (Nat.ltb (i + t + n - i) n) eqn:E'; [apply Nat.ltb_lt in E'; lia|lia].
  - apply Nat.ltb_ge in E. rewrite Nat.mod_small; lia.
Qed.

Lemma shift_inj (n i k t : nat) :
  (i < n)%nat -> (k < n)%nat -> (t < n)%nat ->
  Nat.modulo (k + n - i) n = t -> k = Nat.modulo (i + t) n.
Proof.
  intros Hi Hk Ht H. rewrite (mod_cases (k + n - i) n) in H by lia.
  rewrite (mod_cases (i + t) n) by lia.
  destruct (Nat.ltb (k + n - i) n) eqn:E.
  - apply Nat.ltb_lt in E. destruct (Nat.ltb (i + t) n) eqn:E'; [apply Nat.ltb_lt in E'|]; lia.
  - apply Nat.ltb_ge in E. destruct (Nat.ltb (i + t) n) eqn:E'; [|apply Nat.ltb_ge in E']; lia.
Qed.

Lemma map_nth_seq {A : Type} (l : list A) (d : A) :
  map (fun k => nth k l d) (seq 0 (length l)) = l.
Proof.
  apply (nth_ext _ _ d d).
  - rewrite length_map, length_seq. reflexivity.
  - intros k Hk. rewrite length_map, length_seq in Hk.
    apply (nth_map_seq (fun k => nth k l d) (length l) k d Hk).
Qed.

Lemma sumTo_succ (n : nat) (f : nat -> Z) : sumTo (S n) f = sumTo n f + f n.
Proof. unfold sumTo. rewrite seq_S, fold_left_app. reflexivity. Qed.

Lemma sumTo_nonneg (n : nat) (f : nat -> Z) : (forall i, 0 <= f i) -> 0 <= sumTo n f.
Proof.
  intros H. induction n as [|n IH]; [cbn; lia|]. rewrite sumTo_succ. specialize (H n). lia.
Qed.

Lemma polynomialMultiply_inner (a b : list Z) (modulus : Z) (i : nat) (r : list Z) :
  modulus <> 0 -> (i < length a)%nat -> length r = length a ->
  forall t, (t <= length a)%nat -> (t <= length b)%nat ->
    foldO (QuantumCrypto.polynomialMultiplyStep a b modulus i) (seq 0 t) r =
    Ok (partialRow a b modulus i r t).
Proof.
  intros Hm Hi Hr. set (n := length a) in *.
  induction t as [|t IH]; intros Htn Htb.
  - cbn [seq foldO]. f_equal. unfold partialRow. fold n. cbn [Nat.ltb Nat.leb]. rewrite <- Hr.
    symmetry. apply map_nth_seq.
  - rewrite seq_S, foldO_app, IH by lia. cbn [Nat.add bindO foldO].
    unfold QuantumCrypto.polynomialMultiplyStep. fold n.
    rewrite (nth_error_nth' b 0) by lia.
    destruct (modulus =? 0) eqn:E; [apply Z.eqb_eq in E; contradiction|]. cbn [bindO].
    f_equal.
    assert (Hk : (Nat.modulo (i + t) n < n)%nat) by (apply Nat.mod_upper_bound; lia).
    assert (Hlen : length (partialRow a b modulus i r t) = n)
      by (unfold partialRow; rewrite length_map, length_seq; reflexivity).
    change (arraySet ?k ?v ?l) with (replaceAt k v l).
    apply (nth_ext _ _ 0 0).
    + rewrite replaceAt_length by lia. rewrite Hlen. unfold partialRow.
      rewrite length_map, length_seq. reflexivity.
    + intros k Hklen. rewrite replaceAt_length in Hklen by lia. rewrite Hlen in Hklen.
      destruct (Nat.eq_dec k (Nat.modulo (i + t) n)) as [->|Hne].
      * rewrite replaceAt_nth_same by lia.
        unfold partialRow. fold n. rewrite !nth_map_seq by lia.
        rewrite shift_back by lia.
        rewrite Nat.ltb_irrefl.
        destruct (Nat.ltb t (S t)) eqn:E'; [reflexivity|apply Nat.ltb_ge in E'; lia].
      * rewrite replaceAt_nth_other by lia.
        unfold partialRow. fold n. rewrite !nth_map_seq by lia.
        assert (Hx : Nat.modulo (k + n - i) n <> t).
        { intros Hx. apply Hne. apply shift_inj; assumption || lia. }
        destruct (Nat.ltb (Nat.modulo (k + n - i) n) t) eqn:E1;
          destruct (Nat.ltb (Nat.modulo (k + n - i) n) (S t)) eqn:E2; try reflexivity.
        -- apply Nat.ltb_lt in E1. apply Nat.ltb_ge in E2. lia.
        -- apply Nat.ltb_ge in E1. apply Nat.ltb_lt in E2. lia.
Qed.

Lemma polynomialMultiply_inner_short (a b : list Z) (modulus : Z) (i : nat) (r : list Z) :
  modulus <> 0 -> (i < length a)%nat -> length r = length a -> (length b < length a)%nat ->
  foldO (QuantumCrypto.polynomialMultiplyStep a b modulus i) (seq 0 (length a)) r =
  Throw TypeError.
Proof.
  intros Hm Hi Hr Hb.
  replace (length a) with (length b + S (length a - length b - 1))%nat at 1 by lia.
  rewrite seq_app, foldO_app.
  rewrite polynomialMultiply_inner by (assumption || lia).
  cbn [bindO seq foldO Nat.add]. unfold QuantumCrypto.polynomialMultiplyStep.
  rewrite (proj2 (nth_error_None b (length b)) (Nat.le_refl _)). reflexivity.
Qed.

Lemma polynomialMultiply_outer (a b : list Z) (modulus : Z) :
  0 < modulus -> (length a <= length b)%nat ->
  Forall (fun x => 0 <= x) a -> Forall (fun x => 0 <= x) b ->
  forall s, (s <= length a)%nat ->
    foldO (fun result i =>
             foldO (QuantumCrypto.polynomialMultiplyStep a b modulus i)
                   (seq 0 (length a)) result)
          (seq 0 s) (repeat 0 (length a)) =
    Ok (afterRows a b modulus s).
Proof.
  intros Hm Hb Ha Hbn. set (n := length a) in *.
  assert (Hnth : forall (l : list Z) i, Forall (fun x => 0 <= x) l -> 0 <= nth i l 0).
  { intros l i Hl. destruct (Nat.lt_ge_cases i (length l)) as [Hlt|Hge].
    - rewrite Forall_forall in Hl. apply Hl. apply nth_In. exact Hlt.
    - rewrite nth_overflow by exact Hge. lia. }
  induction s as [|s IH]; intros Hs.
  - cbn [seq foldO]. f_equal. unfold afterRows. fold n.
    apply (nth_ext _ _ 0 0).
    + rewrite repeat_length, length_map, length_seq. reflexivity.
    + intros k Hk. rewrite repeat_length in Hk. rewrite nth_repeat, nth_map_seq by exact Hk.
      reflexivity.
  - rewrite seq_S, foldO_app, IH by lia. cbn [Nat.add bindO foldO].
    rewrite polynomialMultiply_inner;
      [|lia|fold n; lia
       |unfold afterRows; rewrite length_map, length_seq; reflexivity|fold n; lia|fold n; lia].
    cbn [bindO]. f_equal. unfold partialRow, afterRows. fold n.
    apply map_ext_in. intros k Hk. apply in_seq in Hk.
    destruct (Nat.ltb (Nat.modulo (k + n - s) n) n) eqn:E;
      [|apply Nat.ltb_ge in E;
        pose proof (Nat.mod_upper_bound (k + n - s) n ltac:(lia)); lia].
    rewrite nth_map_seq by lia. rewrite sumTo_succ.
    pose proof (Z.mod_pos_bound
                  (sumTo s (fun i => nth i a 0 * nth (Nat.modulo (k + n - i) n) b 0))
                  modulus Hm) as Hbound.
    pose proof (Hnth a s Ha) as Ha0.
    pose proof (Hnth b (Nat.modulo (k + n - s) n) Hbn) as Hb0.
    rewrite Z.rem_mod_nonneg by nia.
    apply Z.add_mod_idemp_l. lia.
Qed.

(** X26: [polynomialMultiply] is the cyclic convolution.  For a positive
    modulus and two lists without negative entries, the second at least as
    long as the first, it returns as many coefficients as the first list has,
    the coefficient [k] being the sum of the [a_i * b_j] with
    [i + j = k] modulo the length, reduced by the modulus.  An empty first
    list gives the empty product; an empty second list, or a second list
    shorter than the first, makes the bigint product fail on [undefined]; a
    modulus of 0 is a division by zero. *)
Theorem polynomialMultiply_cyclic (a b : list Z) (modulus : Z) :
  (a = [] -> QuantumCrypto.polynomialMultiply a b modulus = Ok []) /\
  (a <> [] -> b = [] -> QuantumCrypto.polynomialMultiply a b modulus = Throw TypeError) /\
  (a <> [] -> b <> [] -> modulus = 0 ->
   QuantumCrypto.polynomialMultiply a b modulus = Throw RangeError) /\
  (modulus <> 0 -> (length b < length a)%nat ->
   QuantumCrypto.polynomialMultiply a b modulus = Throw TypeError) /\
  (0 < modulus -> (length a <= length b)%nat ->
   Forall (fun x => 0 <= x) a -> Forall (fun x => 0 <= x) b ->
   exists product,
     QuantumCrypto.polynomialMultiply a b modulus = Ok product /\
     length product = length a /\
     forall k, (k < length a)%nat ->
       nth k product 0 = cyclicCoefficient a b k mod modulus).
Proof.
  split; [|split; [|split; [|split]]].
  - intros ->. reflexivity.
  - intros Ha ->. destruct a as [|x a]; [contradiction|]. reflexivity.
  - intros Ha Hb ->. destruct a as [|x a]; [contradiction|].
    destruct b as [|y b]; [contradiction|]. reflexivity.
  - intros Hm Hlen. unfold QuantumCrypto.polynomialMultiply.
    set (row := fun result i =>
                  foldO (QuantumCrypto.polynomialMultiplyStep a b modulus i)
                        (seq 0 (length a)) result).
    assert (Hseq : seq 0 (length a) = 0%nat :: seq 1 (length a - 1)).
    { destruct (length a) as [|n']; [lia|]. cbn [seq Nat.sub]. rewrite Nat.sub_0_r. reflexivity. }
    rewrite Hseq. cbn [foldO]. unfold row at 1.
    rewrite polynomialMultiply_inner_short;
      [reflexivity|exact Hm|lia|apply repeat_length|exact Hlen].
  - intros Hm Hlen Ha Hb. unfold QuantumCrypto.polynomialMultiply.
    rewrite (polynomialMultiply_outer a b modulus Hm Hlen Ha Hb (length a) (Nat.le_refl _)).
    eexists. split; [reflexivity|]. unfold afterRows.
    split; [rewrite length_map, length_seq; reflexivity|].
    intros k Hk. rewrite nth_map_seq by exact Hk. reflexivity.
Qed.

Lemma polynomialMultiply_cyclic_witness :
  exists product,
    QuantumCrypto.polynomialMultiply [1; 2; 3] [4; 5; 6] 1000 = Ok product /\
    length product = length [1; 2; 3] /\
    forall k, (k < length [1; 2; 3])%nat ->
      nth k product 0 = cyclicCoefficient [1; 2; 3] [4; 5; 6] k mod 1000.
Proof.
  apply (proj2 (proj2 (proj2 (proj2 (polynomialMultiply_cyclic [1; 2; 3] [4; 5; 6] 1000)))));
    [lia | cbn; lia | repeat constructor; lia | repeat constructor; lia].
Defined.
